(** * astro-llms-txt: the document-set pipeline and the accessibility transformer

    A shallow embedding of [src/index.ts] and [src/accessibilityTransformer.ts].
    JavaScript numbers that are array indices or lengths are integers ([Z]);
    strings are modelled by their UTF-8 encoding ([string], one character
    of the Rocq string per byte); an exception is a [None] or an [Err].
    Library calls whose code is outside the repository (micromatch,
    Intl.Collator, path, the CSS selector engine, the HTML parser and
    serializer) are parameters of the definitions that use them. *)

From Stdlib Require Import ZArith List String Ascii Bool Lia Sorted Permutation.
Import ListNotations.

Set Warnings "-register-all".

Local Open Scope string_scope.
Local Open Scope Z_scope.

(** ** JavaScript built-ins *)

Module Js.

(** [Array.prototype.findIndex]: the index of the first element that
    passes, [-1] when there is none. *)
Fixpoint findIndex_from {A : Type} (f : A -> bool) (l : list A) (i : Z) : Z :=
  match l with
  | [] => -1
  | x :: l' => if f x then i else findIndex_from f l' (i + 1)
  end.

Definition findIndex {A : Type} (f : A -> bool) (l : list A) : Z :=
  findIndex_from f l 0.

(** [Array.prototype.some]. *)
Definition some {A : Type} (f : A -> bool) (l : list A) : bool := existsb f l.

(** [arr.length]. *)
Definition len {A : Type} (l : list A) : Z := Z.of_nat (List.length l).

Fixpoint repeat_nat (s : string) (n : nat) : string :=
  match n with
  | O => ""
  | S n' => s ++ repeat_nat s n'
  end.

(** [String.prototype.repeat]: a negative count throws a RangeError. *)
Definition repeat (s : string) (count : Z) : option string :=
  if count <? 0 then None else Some (repeat_nat s (Z.to_nat count)).

(** A default parameter value: [undefined] is replaced by the default. *)
Definition default {A : Type} (d : A) (o : option A) : A :=
  match o with
  | Some a => a
  | None => d
  end.

(** [Array.prototype.join]. *)
Fixpoint join (sep : string) (l : list string) : string :=
  match l with
  | [] => ""
  | [x] => x
  | x :: l' => x ++ sep ++ join sep l'
  end.

End Js.

(** ** prioritizePathname (index.ts, lines 228-237) *)

Module Priority.

(** The sentinel that is repeated in front of a path. *)
Definition sentinel : ascii := "_"%char.

Section WithMatcher.

(** [micromatch.isMatch id pattern]. *)
Variable isMatch : string -> string -> bool.

Definition prefixLength (id : string) (promote demote : list string) : Z :=
  let demoted := Js.findIndex (fun expr => isMatch id expr) demote in
  let promoted :=
    if demoted >? -1 then -1
    else Js.findIndex (fun expr => isMatch id expr) promote in
  (if promoted >? -1 then Js.len promote - promoted else 0)
  + Js.len demote - demoted - 1.

Definition prioritizePathname (id : string)
    (promote demote : option (list string)) : option string :=
  let promote := Js.default [] promote in
  let demote := Js.default [] demote in
  match Js.repeat (String sentinel "") (prefixLength id promote demote) with
  | Some prefix => Some (prefix ++ id)
  | None => None
  end.

(** The key prioritizePathname returns when [repeat] does not throw: the
    path behind [prefixLength] sentinels. *)
Definition sortKey (id : string) (promote demote : option (list string)) : string :=
  Js.repeat_nat (String sentinel "")
    (Z.to_nat (prefixLength id (Js.default [] promote) (Js.default [] demote)))
  ++ id.

(** The pattern at index [i] is the first of [pats] that [id] matches. *)
Definition first_match (id : string) (pats : list string) (i : nat) : Prop :=
  (exists pat, nth_error pats i = Some pat /\ isMatch id pat = true) /\
  (forall j pat, (j < i)%nat -> nth_error pats j = Some pat ->
                 isMatch id pat = false).

(** No pattern of [pats] matches [id]. *)
Definition no_match (id : string) (pats : list string) : Prop :=
  forall pat, In pat pats -> isMatch id pat = false.

(** The bias as the specification words it (section 4.3, step 3). *)
Definition spec_bias_formula (id : string) (promote demote : list string) : Prop :=
  (forall p, no_match id demote -> first_match id promote p ->
     prefixLength id promote demote
     = (Js.len promote - Z.of_nat p - 1) + Js.len demote) /\
  (forall d, first_match id demote d ->
     prefixLength id promote demote = Js.len demote - Z.of_nat d - 1) /\
  (no_match id promote -> no_match id demote ->
     prefixLength id promote demote = 0).

End WithMatcher.

(** A matcher for patterns without glob characters: such a pattern matches
    exactly the path equal to it. Used where a concrete matcher is needed. *)
Definition literalMatch (id pat : string) : bool := String.eqb id pat.

End Priority.

(** ** More built-ins: trimming and the two regular-expression replacements *)

Module JsString.

Definition nl : string := String "010"%char "".

Definition quote : string := String "034"%char "".

Definition bytes (codes : list nat) : string :=
  List.fold_right (fun n rest => String (ascii_of_nat n) rest) "" codes.

(** The code points that are WhiteSpace or LineTerminator in ECMAScript,
    each by its UTF-8 encoding: U+0009 to U+000D, U+0020, U+00A0, U+1680,
    U+2000 to U+200A, U+2028, U+2029, U+202F, U+205F, U+3000 and U+FEFF. *)
Definition whiteSpace : list string :=
  List.map bytes
    [ [9]; [10]; [11]; [12]; [13]; [32];
      [194; 160];
      [225; 154; 128];
      [226; 128; 128]; [226; 128; 129]; [226; 128; 130]; [226; 128; 131];
      [226; 128; 132]; [226; 128; 133]; [226; 128; 134]; [226; 128; 135];
      [226; 128; 136]; [226; 128; 137]; [226; 128; 138];
      [226; 128; 168]; [226; 128; 169];
      [226; 128; 175];
      [226; 129; 159];
      [227; 128; 128];
      [239; 187; 191] ]%nat.

(** The rest of [s] behind [prefix], when [s] starts with it. *)
Fixpoint startsWith (prefix s : string) : option string :=
  match prefix with
  | "" => Some s
  | String a prefix' =>
      match s with
      | String b s' => if Ascii.eqb a b then startsWith prefix' s' else None
      | "" => None
      end
  end.

(** The rest of [s] behind the first entry of [table] it starts with. *)
Fixpoint afterAny (table : list string) (s : string) : option string :=
  match table with
  | [] => None
  | e :: table' =>
      match startsWith e s with
      | Some rest => Some rest
      | None => afterAny table' s
      end
  end.

(** The rest of [s] behind one white-space code point at its start. *)
Definition afterWhiteSpace (s : string) : option string := afterAny whiteSpace s.

Fixpoint trimStartFuel (fuel : nat) (s : string) : string :=
  match fuel with
  | O => s
  | S fuel' =>
      match afterWhiteSpace s with
      | Some rest => trimStartFuel fuel' rest
      | None => s
      end
  end.

(** [String.prototype.trimStart]: the white-space code points are taken off
    the front one by one; the length of the string is fuel enough. *)
Definition trimStart (s : string) : string := trimStartFuel (String.length s) s.

(** A string of white space only (the empty string included): nothing is
    left behind its leading white space. *)
Definition isBlank (s : string) : bool := String.eqb (trimStart s) "".

(** [String.prototype.trimEnd]: the longest end of the string that is white
    space only is cut off. *)
Fixpoint trimEnd (s : string) : string :=
  match s with
  | "" => ""
  | String c s' => if isBlank s then "" else String c (trimEnd s')
  end.

(** [String.prototype.trim]. *)
Definition trim (s : string) : string := trimEnd (trimStart s).

(** [s.replace(/\/$/, "")]: drops one slash at the end of the string. *)
Fixpoint stripTrailingSlash (s : string) : string :=
  match s with
  | "" => ""
  | String c s' =>
      match s' with
      | "" => if Ascii.eqb c "/" then "" else s
      | _ => String c (stripTrailingSlash s')
      end
  end.

(** [s.replace(/^\//, "")]: drops one slash at the start of the string. *)
Definition stripLeadingSlash (s : string) : string :=
  match s with
  | String c s' => if Ascii.eqb c "/" then s' else s
  | "" => ""
  end.

End JsString.

(** ** Results of calls that may throw *)

Inductive Result (A : Type) : Type :=
| Ok (a : A)
| Err (message : string).

Arguments Ok {A} a.
Arguments Err {A} message.

(** ** Comparators and Array.prototype.sort *)

Module Collation.

(** What the ordering argument needs from [collator.compare]. The
    comparator itself is a parameter: its code is not part of the
    repository. *)
Section Properties.

Variable compare : string -> string -> Z.

(** A shared leading sentinel does not hide a strict order of the rests. *)
Definition sentinel_congruent : Prop :=
  forall s t, compare s t < 0 ->
    compare (String Priority.sentinel s) (String Priority.sentinel t) < 0.

(** A string that starts with the sentinel is ordered before one that
    starts with [c]. *)
Definition after_sentinel (c : ascii) : Prop :=
  forall s t, compare (String Priority.sentinel s) (String c t) < 0.

(** A path that starts with a character ordered after the sentinel. *)
Definition ordinary (path : string) : Prop :=
  match path with
  | "" => False
  | String c _ => after_sentinel c
  end.

(** A consistent comparator in the sense of ECMAScript's sort. *)
Definition consistent : Prop :=
  (forall x y, compare x y < 0 <-> compare y x > 0) /\
  (forall x y z, compare x y <= 0 -> compare y z <= 0 -> compare x z <= 0).

End Properties.

(** A concrete comparator: strings compared character by character on a
    weight. *)
Fixpoint lex_compare (weight : ascii -> N) (s t : string) : Z :=
  match s, t with
  | "", "" => 0
  | "", String _ _ => -1
  | String _ _, "" => 1
  | String a s', String b t' =>
      match N.compare (weight a) (weight b) with
      | Lt => -1
      | Gt => 1
      | Eq => lex_compare weight s' t'
      end
  end.

(** Comparison byte by byte. On the lower-case paths used in the examples
    below it orders the sentinel first, as the root collation does. *)
Definition codeUnitCompare : string -> string -> Z := lex_compare N_of_ascii.

(** The number of sentinel characters a key starts with. *)
Fixpoint sentinelPrefix (key : string) : nat :=
  match key with
  | String c key' => if Ascii.eqb c Priority.sentinel then S (sentinelPrefix key') else O
  | "" => O
  end.

(** A key without the sentinel characters it starts with. *)
Fixpoint dropSentinels (key : string) : string :=
  match key with
  | String c key' => if Ascii.eqb c Priority.sentinel then dropSentinels key' else key
  | "" => ""
  end.

End Collation.

Module JsArray.

Section Sort.

Context {A : Type}.

(** The comparator function handed to [sort]; [None] when it throws. *)
Variable comparefn : A -> A -> option Z.

Fixpoint insert (x : A) (sorted : list A) : option (list A) :=
  match sorted with
  | [] => Some [x]
  | y :: rest =>
      match comparefn x y with
      | None => None
      | Some c =>
          if c <=? 0 then Some (x :: y :: rest)
          else match insert x rest with
               | Some rest' => Some (y :: rest')
               | None => None
               end
      end
  end.

(** [Array.prototype.sort]: for a consistent comparator the result is the
    stable sorted permutation, which insertion from the right computes. *)
Fixpoint sort (l : list A) : option (list A) :=
  match l with
  | [] => Some []
  | x :: l' =>
      match sort l' with
      | Some sorted => insert x sorted
      | None => None
      end
  end.

End Sort.

(** [x] occurs somewhere before [y] in [l]. *)
Definition precedes {A : Type} (x y : A) (l : list A) : Prop :=
  exists l1 l2 l3, l = (l1 ++ x :: l2 ++ y :: l3)%list.

End JsArray.

(** ** The DOM of a parsed page (jsdom), as far as buildEntryFromHtml uses it *)

Module Dom.

Inductive node : Type :=
| Element (localName : string) (attributes : list (string * string))
          (childNodes : list node)
| Text (data : string)
| Comment (data : string).

(** The child nodes of the document node. *)
Definition document : Type := list node.

Definition isElementNamed (name : string) (n : node) : bool :=
  match n with
  | Element localName _ _ => String.eqb localName name
  | _ => false
  end.

Section Forest.

Variable self_or_descendant : node -> option node.

(** The first hit in a list of siblings, in tree order. *)
Fixpoint firstIn (siblings : list node) : option node :=
  match siblings with
  | [] => None
  | c :: rest =>
      match self_or_descendant c with
      | Some hit => Some hit
      | None => firstIn rest
      end
  end.

Variable isTarget : node -> bool.
Variable removeInside : node -> option node.

(** Detaches the first target found in tree order under a list of siblings;
    [None] when there is no target. *)
Fixpoint removeFirstIn (siblings : list node) : option (list node) :=
  match siblings with
  | [] => None
  | c :: rest =>
      if isTarget c then Some rest
      else match removeInside c with
           | Some c' => Some (c' :: rest)
           | None =>
               match removeFirstIn rest with
               | Some rest' => Some (c :: rest')
               | None => None
               end
           end
  end.

End Forest.

(** The first element named [name] among [n] and its descendants. *)
Fixpoint findNamed (name : string) (n : node) : option node :=
  match n with
  | Element localName _ childNodes =>
      if String.eqb localName name then Some n
      else firstIn (findNamed name) childNodes
  | _ => None
  end.

(** [element.querySelector(name)] for a type selector: the first descendant
    of [element] (not [element] itself) with that name, in tree order. *)
Definition querySelectorNamed (name : string) (element : node) : option node :=
  match element with
  | Element _ _ childNodes => firstIn (findNamed name) childNodes
  | _ => None
  end.

(** [element] after [hit.remove()], where [hit] is what
    [querySelectorNamed name element] returned; [None] when that was null. *)
Fixpoint removeNamed (name : string) (element : node) : option node :=
  match element with
  | Element localName attributes childNodes =>
      match removeFirstIn (isElementNamed name) (removeNamed name) childNodes with
      | Some childNodes' => Some (Element localName attributes childNodes')
      | None => None
      end
  | _ => None
  end.

(** [node.textContent]: the data of the text descendants, in tree order. *)
Fixpoint textContent (n : node) : string :=
  match n with
  | Element _ _ childNodes =>
      List.fold_right
        (fun c acc =>
           match c with
           | Comment _ => acc
           | _ => textContent c ++ acc
           end)
        "" childNodes
  | Text data => data
  | Comment data => data
  end.

(** [element.getAttribute(name)]. *)
Fixpoint lookupAttribute (name : string) (attributes : list (string * string))
  : option string :=
  match attributes with
  | [] => None
  | (k, v) :: rest => if String.eqb k name then Some v else lookupAttribute name rest
  end.

Definition getAttribute (name : string) (n : node) : option string :=
  match n with
  | Element _ attributes _ => lookupAttribute name attributes
  | _ => None
  end.

(** A node is addressed by the child indices that lead to it. *)
Fixpoint nodeAt (path : list nat) (siblings : list node) : option node :=
  match path with
  | [] => None
  | i :: path' =>
      match nth_error siblings i, path' with
      | Some n, [] => Some n
      | Some (Element _ _ childNodes), _ => nodeAt path' childNodes
      | _, _ => None
      end
  end.

Fixpoint setNth (i : nat) (n : node) (siblings : list node) : list node :=
  match siblings, i with
  | [], _ => []
  | _ :: rest, O => n :: rest
  | c :: rest, S i' => c :: setNth i' n rest
  end.

Fixpoint replaceAt (path : list nat) (new : node) (siblings : list node)
  : list node :=
  match path with
  | [] => siblings
  | i :: path' =>
      match nth_error siblings i, path' with
      | Some _, [] => setNth i new siblings
      | Some (Element localName attributes childNodes), _ =>
          setNth i (Element localName attributes (replaceAt path' new childNodes))
                 siblings
      | _, _ => siblings
      end
  end.

(** The markup of a tree as a token stream: what a serializer walks. *)
Inductive token : Type :=
| Open (localName : string) (attributes : list (string * string))
| Close (localName : string)
| Chars (data : string)
| Remark (data : string).

Fixpoint tokens (n : node) : list token :=
  match n with
  | Element localName attributes childNodes =>
      (Open localName attributes :: List.flat_map tokens childNodes)
      ++ [Close localName]
  | Text data => [Chars data]
  | Comment data => [Remark data]
  end.

(** The tokens of the content of an element: what [innerHTML] serializes. *)
Definition innerTokens (n : node) : list token :=
  match n with
  | Element _ _ childNodes => List.flat_map tokens childNodes
  | _ => []
  end.

Definition opens (name : string) (t : token) : bool :=
  match t with
  | Open localName _ => String.eqb localName name
  | _ => false
  end.

(** What a hit of the search in [n] and below means. *)
Definition found_in (name : string) (n h : node) : Prop :=
  isElementNamed name h = true /\
  ((isElementNamed name n = true /\ h = n) \/
   (isElementNamed name n = false /\
    exists pre post n',
      tokens n = (pre ++ tokens h ++ post)%list /\
      Forall (fun t => opens name t = false) pre /\
      removeNamed name n = Some n' /\
      tokens n' = (pre ++ post)%list)).

(** What a miss means. *)
Definition absent_in (name : string) (n : node) : Prop :=
  isElementNamed name n = false /\
  Forall (fun t => opens name t = false) (tokens n) /\
  removeNamed name n = None.

Definition search_ok (name : string) (n : node) : Prop :=
  match findNamed name n with
  | Some h => found_in name n h
  | None => absent_in name n
  end.

End Dom.

(** ** hast trees and accessibilityTransformer (accessibilityTransformer.ts) *)

Module Hast.

(** The value of a property of an element. A key that is absent reads as
    [undefined]. *)
Inductive value : Type :=
| VBool (b : bool)
| VNumber (n : Z)
| VString (s : string)
| VList (items : list string)
| VNull.

(** hast types the value of a text node as a string; the transformer stores
    the label there without converting it, so the field holds a [value]. *)
Inductive node : Type :=
| Element (tagName : string) (properties : option (list (string * value)))
          (children : list node)
| Text (content : value)
| Comment (content : string)
| Doctype.

(** The tree the transformer is handed by the processor: a hast root. *)
Record root : Type := Root { rootChildren : list node }.

Fixpoint lookup (key : string) (props : list (string * value)) : option value :=
  match props with
  | [] => None
  | (k, v) :: rest => if String.eqb k key then Some v else lookup key rest
  end.

(** [node.properties && node.properties[key]], [None] for a falsy
    [properties] or an absent key. *)
Definition property (key : string) (n : node) : option value :=
  match n with
  | Element _ (Some props) _ => lookup key props
  | _ => None
  end.

(** The test of the first [remove] call (lines 14-18). *)
Definition isAriaHidden (n : node) : bool :=
  match n with
  | Element _ _ _ =>
      match property "ariaHidden" n with
      | Some (VBool true) => true
      | Some (VString s) => String.eqb s "true"
      | _ => false
      end
  | _ => false
  end.

(** The test of the second [remove] call (lines 21-26). *)
Definition isDecorativeImage (n : node) : bool :=
  match n with
  | Element tagName _ _ =>
      String.eqb tagName "img" &&
      match property "alt" n with
      | Some (VString s) => String.eqb s ""
      | _ => false
      end
  | _ => false
  end.

Section Remove.

Variable test : node -> bool.

Section Children.

(** [preorder] of unist-util-remove on a child: [None] when it returns
    false (the child is dropped). *)
Variable preorder : node -> option node.

(** The loop that moves the living children to the front of the array. *)
Fixpoint living (children : list node) : list node :=
  match children with
  | [] => []
  | c :: rest =>
      match preorder c with
      | Some c' => c' :: living rest
      | None => living rest
      end
  end.

End Children.

(** unist-util-remove, [preorder] on a node other than the tree, with the
    options the transformer passes (none, so [cascade] is true): a node that
    passes the test is dropped; a node that had children and lost all of
    them is dropped as well. *)
Fixpoint preorder (n : node) : option node :=
  if test n then None
  else
    match n with
    | Element tagName properties children =>
        match children with
        | [] => Some n
        | _ :: _ =>
            match living preorder children with
            | [] => None
            | kept => Some (Element tagName properties kept)
            end
        end
    | _ => Some n
    end.

(** [remove(tree, test)]: the tree itself is neither tested nor dropped. *)
Definition remove (tree : root) : root :=
  Root (living preorder (rootChildren tree)).

(** Removal as the specification words it: the nodes that pass the test go,
    with their subtrees, and nothing else. *)
Fixpoint spec_prune (n : node) : option node :=
  if test n then None
  else
    match n with
    | Element tagName properties children =>
        Some (Element tagName properties (living spec_prune children))
    | _ => Some n
    end.

Definition spec_remove (tree : root) : root :=
  Root (living spec_prune (rootChildren tree)).

End Remove.

(** JavaScript truthiness of a property value. *)
Definition truthy (v : value) : bool :=
  match v with
  | VBool b => b
  | VNumber n => negb (n =? 0)
  | VString s => negb (String.eqb s "")
  | VList _ => true
  | VNull => false
  end.

(** [selectAll('[aria-label]', tree)] selects the elements whose [ariaLabel]
    property is neither absent, null, false nor an empty list. *)
Definition hasAriaLabel (n : node) : bool :=
  match property "ariaLabel" n with
  | Some (VBool false) | Some VNull | Some (VList []) | None => false
  | Some _ => true
  end.

(** The value the loop body assigns to [ariaLabelValue] and then tests
    (lines 32-44); [None] when the element is left alone. *)
Definition ariaLabelValue (n : node) : option value :=
  if hasAriaLabel n then
    match property "ariaLabel" n with
    | Some VNull | None => None
    | Some v =>
        match v with
        | VString "" => None
        | _ => if truthy v then Some v else None
        end
    end
  else None.

(** The effect of the loop over the selected elements (lines 31-54). They
    come in tree order, so a labelled element is rewritten before the
    labelled elements below it, which are then no longer part of the tree. *)
Fixpoint relabel (n : node) : node :=
  match n with
  | Element tagName properties children =>
      match ariaLabelValue n with
      | Some label => Element tagName properties [Text label]
      | None => Element tagName properties (List.map relabel children)
      end
  | _ => n
  end.

Definition accessibilityTransformer (tree : root) : root :=
  let tree1 := remove isAriaHidden tree in
  let tree2 := remove isDecorativeImage tree1 in
  Root (List.map relabel (rootChildren tree2)).

(** The three rules as the specification words them (section 4.4). *)
Definition spec_transform (tree : root) : root :=
  let tree1 := spec_remove isAriaHidden tree in
  let tree2 := spec_remove isDecorativeImage tree1 in
  Root (List.map relabel (rootChildren tree2)).

(** [f] holds of a node and of every node below it. *)
Fixpoint allNodes (f : node -> bool) (n : node) : bool :=
  f n &&
  match n with
  | Element _ _ children => List.forallb (allNodes f) children
  | _ => true
  end.

(** A test that looks at an element's own tag and properties only, as the
    two tests of the transformer do. *)
Definition ownPropertiesTest (test : node -> bool) : Prop :=
  (forall tagName properties children children',
     test (Element tagName properties children)
     = test (Element tagName properties children')) /\
  (forall content, test (Text content) = false).

End Hast.

(** ** The document-set pipeline (index.ts) *)

Module Index.

Record DocSet : Type := {
  title : string;
  description : string;
  url : string;
  include : list string;
  exclude : option (list string);
  promote : option (list string);
  demote : option (list string);
  onlyStructure : option bool;
  mainSelector : option string;
  ignoreSelectors : option (list string)
}.

Record Page : Type := { pathname : string }.

(** The part of [PluginContext] that processDocSet reads; [pageSeparator]
    has been given its default by the build hook. *)
Record PluginContext : Type := {
  pageSeparator : string;
  distDir : string;
  pages : list Page
}.

(** What one run of processDocSet leaves behind: the file it writes and the
    lines it prints. *)
Record DocSetOutput : Type := {
  sorted : list string;
  entries : list string;
  errors : list string;
  outPath : string;
  content : string;
  info : string
}.

Section Pipeline.

(** [micromatch.isMatch]. *)
Variable isMatch : string -> string -> bool.
(** [collator.compare]. *)
Variable compare : string -> string -> Z.
(** [path.join]. *)
Variable path_join : list string -> string.
(** The files of the output directory: [None] for a path that [fs.access]
    and [fs.readFile] reject. *)
Variable files : string -> option string.
(** [new JSDOM(html).window.document]. *)
Variable parse : string -> Dom.document.
(** [doc.querySelector(selector)], as the place of the first match. *)
Variable querySelector : string -> Dom.document -> option (list nat).
(** [element.innerHTML]. *)
Variable innerHTML : Dom.node -> string.
(** entryToSimpleMarkdown, of a module that is not part of the sources. *)
Variable entryToSimpleMarkdown : string -> list string -> bool -> Result string.

(** Lines 106-116: the pages of the set. *)
Definition selectMatches (pages : list Page) (set : DocSet) : list string :=
  let matches :=
    List.filter (fun pn => Js.some (fun pat => isMatch pn pat) (include set))
                (List.map pathname pages) in
  match exclude set with
  | Some excluded =>
      List.filter (fun pn => negb (Js.some (fun pat => isMatch pn pat) excluded))
                  matches
  | None => matches
  end.

(** Lines 118-122: the comparator handed to [sort]. *)
Definition comparePathnames (set : DocSet) (a b : string) : option Z :=
  match Priority.prioritizePathname isMatch a (promote set) (demote set) with
  | None => None
  | Some pa =>
      match Priority.prioritizePathname isMatch b (promote set) (demote set) with
      | None => None
      | Some pb => Some (compare pa pb)
      end
  end.

Definition htmlPathOf (dist pn : string) : string :=
  path_join [dist; JsString.stripTrailingSlash pn; "index.html"].

(** Lines 163-165: the title and the main element without its heading. *)
Definition extractTitle (main : Dom.node) : string * Dom.node :=
  let h1 := Dom.querySelectorNamed "h1" main in
  let title :=
    match h1 with
    | Some h => JsString.trim (Dom.textContent h)
    | None => "Untitled"
    end in
  let main' :=
    match h1 with
    | Some _ => Js.default main (Dom.removeNamed "h1" main)
    | None => main
    end in
  (title, main').

(** The selector [meta[name="description"]]. *)
Definition metaDescriptionSelector : string :=
  "meta[name=" ++ JsString.quote ++ "description" ++ JsString.quote ++ "]".

(** Lines 151-183. *)
Definition buildEntryFromHtml (htmlPath : string) (mainSelector : option string)
    (ignoreSelectors : option (list string)) (onlyStructure : bool)
  : Result string :=
  let mainSelector := Js.default "main" mainSelector in
  let ignoreSelectors := Js.default [] ignoreSelectors in
  match files htmlPath with
  | None => Err ("ENOENT: no such file or directory, open '" ++ htmlPath ++ "'")
  | Some html =>
      let doc := parse html in
      match querySelector mainSelector doc with
      | None => Err ("Missing main selector <" ++ mainSelector ++ ">")
      | Some place =>
          match Dom.nodeAt place doc with
          | None => Err ("Missing main selector <" ++ mainSelector ++ ">")
          | Some main =>
              let (title, main') := extractTitle main in
              let doc' := Dom.replaceAt place main' doc in
              let metaDesc :=
                match querySelector metaDescriptionSelector doc' with
                | Some metaPlace =>
                    match Dom.nodeAt metaPlace doc' with
                    | Some meta =>
                        match Dom.getAttribute "content" meta with
                        | Some c => Some (JsString.trim c)
                        | None => None
                        end
                    | None => None
                    end
                | None => None
                end in
              match entryToSimpleMarkdown (JsString.trim (innerHTML main'))
                      ("h1" :: "footer" :: "header" :: ignoreSelectors)
                      onlyStructure with
              | Err e => Err e
              | Ok markdown =>
                  let parts :=
                    ("# " ++ title)
                    :: List.app
                         match metaDesc with
                         | Some d => if String.eqb d "" then [] else ["> " ++ d]
                         | None => []
                         end
                         [JsString.trim markdown] in
                  Ok (Js.join (JsString.nl ++ JsString.nl) parts)
              end
          end
      end
  end.

(** The [try] block of the loop over the sorted pages (lines 128-131):
    the entry it pushes, or [None] when [fs.access] or buildEntryFromHtml
    throws. *)
Definition tryPage (dist : string) (set : DocSet) (pn : string) : option string :=
  let htmlPath := htmlPathOf dist pn in
  match files htmlPath with
  | None => None
  | Some _ =>
      match buildEntryFromHtml htmlPath (mainSelector set) (ignoreSelectors set)
              (Js.default false (onlyStructure set)) with
      | Ok entry => Some entry
      | Err _ => None
      end
  end.

(** The line the [catch] block prints (line 133). *)
Definition notFoundMessage (dist pn : string) : string :=
  "❌ File not found: " ++ htmlPathOf dist pn.

(** The body of the loop (lines 126-135), on the pair of the entries
    pushed and the lines printed so far. *)
Definition processPage (dist : string) (set : DocSet)
    (state : list string * list string) (pn : string)
  : list string * list string :=
  let (entries, errors) := state in
  match tryPage dist set pn with
  | Some entry => (List.app entries [entry], errors)
  | None => (entries, List.app errors [notFoundMessage dist pn])
  end.

(** The entries of the pages of a list that can be processed, and whether a
    page fails. *)
Definition pageFails (dist : string) (set : DocSet) (pn : string) : bool :=
  match tryPage dist set pn with
  | Some _ => false
  | None => true
  end.

Definition entriesOf (dist : string) (set : DocSet) (pns : list string)
  : list string :=
  List.flat_map
    (fun pn => match tryPage dist set pn with
               | Some entry => [entry]
               | None => []
               end)
    pns.

(** Lines 98-143; [None] when the comparator throws during the sort. *)
Definition processDocSet (context : PluginContext) (set : DocSet)
  : option DocSetOutput :=
  let matches := selectMatches (pages context) set in
  match JsArray.sort (comparePathnames set) matches with
  | None => None
  | Some sorted =>
      let (entries, errors) :=
        List.fold_left (processPage (distDir context) set) sorted ([], []) in
      let outPath :=
        path_join [distDir context; JsString.stripLeadingSlash (url set)] in
      Some {|
        sorted := sorted;
        entries := entries;
        errors := errors;
        outPath := outPath;
        content :=
          "<SYSTEM>" ++ description set ++ "</SYSTEM>" ++ JsString.nl ++ JsString.nl
          ++ Js.join (pageSeparator context) entries;
        info := "✅ DocSet " ++ JsString.quote ++ title set ++ JsString.quote
                ++ " generated at " ++ outPath
      |}
  end.

(** [x] is ordered before [y] in a run over [set]: the key of [x] compares
    lower than the key of [y] and, when the comparator is consistent, [x]
    stands before [y] in the sorted pages if both were selected. *)
Definition orderedBefore (context : PluginContext) (set : DocSet) (x y : string)
  : Prop :=
  (exists kx ky,
     Priority.prioritizePathname isMatch x (promote set) (demote set) = Some kx /\
     Priority.prioritizePathname isMatch y (promote set) (demote set) = Some ky /\
     compare kx ky < 0) /\
  (Collation.consistent compare ->
   exists out,
     processDocSet context set = Some out /\
     (In x (selectMatches (pages context) set) ->
      In y (selectMatches (pages context) set) ->
      JsArray.precedes x y (sorted out))).

(** The ordering invariant as the data model of the specification words it:
    of two keys of a run, the one with more sentinels sorts later. *)
Definition spec_longer_prefix_later (set : DocSet) : Prop :=
  forall a b ka kb,
    Priority.prioritizePathname isMatch a (promote set) (demote set) = Some ka ->
    Priority.prioritizePathname isMatch b (promote set) (demote set) = Some kb ->
    (Collation.sentinelPrefix kb < Collation.sentinelPrefix ka)%nat ->
    compare ka kb > 0.

(** The two ordering properties as section 8 of the specification words
    them, for every pair of paths. *)
Definition spec_priority_order (context : PluginContext) (set : DocSet) : Prop :=
  let promoted := Js.default [] (promote set) in
  let demoted := Js.default [] (demote set) in
  (forall a b d,
     Priority.first_match isMatch a demoted d ->
     Priority.no_match isMatch a promoted ->
     Priority.no_match isMatch b promoted ->
     Priority.no_match isMatch b demoted ->
     orderedBefore context set b a) /\
  (forall a b p q,
     Priority.no_match isMatch a demoted ->
     Priority.no_match isMatch b demoted ->
     Priority.first_match isMatch a promoted p ->
     Priority.first_match isMatch b promoted q ->
     (p < q)%nat ->
     orderedBefore context set a b).

End Pipeline.

End Index.

(** ** A small site, for the worked examples *)

Module Example.

(** [path.join] on segments that need no normalization. *)
Definition path_join (segments : list string) : string := Js.join "/" segments.

(** A serializer for [innerHTML], without escaping. *)
Fixpoint renderAttributes (attributes : list (string * string)) : string :=
  match attributes with
  | [] => ""
  | (k, v) :: rest =>
      " " ++ k ++ "=" ++ JsString.quote ++ v ++ JsString.quote
      ++ renderAttributes rest
  end.

Definition renderToken (t : Dom.token) : string :=
  match t with
  | Dom.Open name attributes => "<" ++ name ++ renderAttributes attributes ++ ">"
  | Dom.Close name => "</" ++ name ++ ">"
  | Dom.Chars data => data
  | Dom.Remark data => "<!--" ++ data ++ "-->"
  end.

Definition innerHTML (n : Dom.node) : string :=
  String.concat "" (List.map renderToken (Dom.innerTokens n)).

Section Place.

Variable placeIn : Dom.node -> option (list nat).

Fixpoint placeAmong (i : nat) (siblings : list Dom.node) : option (list nat) :=
  match siblings with
  | [] => None
  | c :: rest =>
      match placeIn c with
      | Some place => Some (i :: place)
      | None => placeAmong (S i) rest
      end
  end.

End Place.

Fixpoint placeOfNamed (name : string) (n : Dom.node) : option (list nat) :=
  match n with
  | Dom.Element localName _ childNodes =>
      if String.eqb localName name then Some []
      else placeAmong (placeOfNamed name) 0 childNodes
  | _ => None
  end.

(** A selector engine that knows type selectors only. *)
Definition querySelector (selector : string) (doc : Dom.document)
  : option (list nat) :=
  placeAmong (placeOfNamed selector) 0 doc.

(** A flattener that leaves the markup as it is. *)
Definition entryToSimpleMarkdown (html : string) (ignore : list string)
    (onlyStructure : bool) : Result string :=
  Ok html.

Definition heading (text : string) : Dom.node :=
  Dom.Element "h1" [] [Dom.Text text].

Definition paragraph (text : string) : Dom.node :=
  Dom.Element "p" [] [Dom.Text text].

Definition pageWith (content : list Dom.node) : Dom.document :=
  [Dom.Element "html" []
     [Dom.Element "head" [] [];
      Dom.Element "body" [] [Dom.Element "main" [] content]]].

(** A page without a main element. *)
Definition bareBody : Dom.document :=
  [Dom.Element "html" [] [Dom.Element "body" [] [paragraph "no main here"]]].

(** The files of the output directory, each standing for its own markup:
    alpha and beta are well-formed pages, gamma has no main element and
    delta was never written. *)
Definition files (path : string) : option string :=
  if String.eqb path "dist/alpha/index.html" then Some "alpha"
  else if String.eqb path "dist/beta/index.html" then Some "beta"
  else if String.eqb path "dist/gamma/index.html" then Some "gamma"
  else None.

Definition parse (html : string) : Dom.document :=
  if String.eqb html "alpha" then pageWith [heading "Alpha"; paragraph "first"]
  else if String.eqb html "beta" then pageWith [paragraph "second"]
  else bareBody.

Definition context : Index.PluginContext := {|
  Index.pageSeparator := JsString.nl ++ JsString.nl ++ "---" ++ JsString.nl ++ JsString.nl;
  Index.distDir := "dist";
  Index.pages := [ {| Index.pathname := "alpha/" |};
                   {| Index.pathname := "beta/" |};
                   {| Index.pathname := "gamma/" |};
                   {| Index.pathname := "delta/" |};
                   {| Index.pathname := "private/" |} ]
|}.

Definition docSet (promoted demoted : option (list string)) : Index.DocSet := {|
  Index.title := "Complete site";
  Index.description := "The full site";
  Index.url := "/llms-full.txt";
  Index.include := ["alpha/"; "beta/"; "gamma/"; "delta/"; "private/"];
  Index.exclude := Some ["private/"];
  Index.promote := promoted;
  Index.demote := demoted;
  Index.onlyStructure := None;
  Index.mainSelector := None;
  Index.ignoreSelectors := None
|}.

(** A second site, one of whose paths starts with the sentinel character. *)
Definition archiveContext : Index.PluginContext := {|
  Index.pageSeparator := JsString.nl ++ JsString.nl ++ "---" ++ JsString.nl ++ JsString.nl;
  Index.distDir := "dist";
  Index.pages := [ {| Index.pathname := "blog/" |};
                   {| Index.pathname := "_archive/" |} ]
|}.

Definition archiveSet : Index.DocSet := {|
  Index.title := "Complete site";
  Index.description := "The full site";
  Index.url := "/llms-full.txt";
  Index.include := ["blog/"; "_archive/"];
  Index.exclude := None;
  Index.promote := None;
  Index.demote := Some ["_archive/"];
  Index.onlyStructure := None;
  Index.mainSelector := None;
  Index.ignoreSelectors := None
|}.

(** A set whose include pattern matches no page of the small site. *)
Definition strayset : Index.DocSet := {|
  Index.title := "Stray";
  Index.description := "Nothing to see";
  Index.url := "/llms-stray.txt";
  Index.include := ["missing/"];
  Index.exclude := None;
  Index.promote := None;
  Index.demote := None;
  Index.onlyStructure := None;
  Index.mainSelector := None;
  Index.ignoreSelectors := None
|}.

(** A paragraph next to a button that shows an icon only: the icon is
    hidden from assistive technology and the button carries the label. *)
Definition toolbar : Hast.root :=
  Hast.Root
    [Hast.Element "p" (Some []) [Hast.Text (Hast.VString "Settings")];
     Hast.Element "button" (Some [("ariaLabel", Hast.VString "Close")])
       [Hast.Element "svg" (Some [("ariaHidden", Hast.VString "true")]) []]].

(** One run of processDocSet on the small site. *)
Definition run (set : Index.DocSet) : option Index.DocSetOutput :=
  Index.processDocSet Priority.literalMatch Collation.codeUnitCompare path_join
    files parse querySelector innerHTML entryToSimpleMarkdown context set.

End Example.

(** ** The standing of a path with respect to the pattern lists *)

Module Standing.

(** How prioritizePathname classifies a path: promoted by the promote
    pattern at an index, demoted by the demote pattern at an index, or
    matched by no pattern that counts. *)
Inductive standing : Type :=
| Promoted (p : nat)
| Neutral
| Demoted (d : nat).

Section WithMatcher.

Variable isMatch : string -> string -> bool.

Definition holds (id : string) (promote demote : list string) (s : standing)
  : Prop :=
  match s with
  | Promoted p =>
      Priority.no_match isMatch id demote /\ Priority.first_match isMatch id promote p
  | Neutral =>
      Priority.no_match isMatch id demote /\ Priority.no_match isMatch id promote
  | Demoted d => Priority.first_match isMatch id demote d
  end.

End WithMatcher.

(** [s] ranks above [t]: promoted above neutral above demoted, and inside
    either list the pattern listed earlier ranks higher. *)
Definition outranks (s t : standing) : Prop :=
  match s, t with
  | Promoted p, Promoted q => (p < q)%nat
  | Promoted _, _ => True
  | Neutral, Demoted _ => True
  | Demoted d, Demoted e => (d < e)%nat
  | _, _ => False
  end.

End Standing.

(** ** White space at the ends of a string *)

Module Blank.

(** [s] starts with a white-space code point. *)
Definition startsBlank (s : string) : bool :=
  match JsString.afterWhiteSpace s with
  | Some _ => true
  | None => false
  end.

(** [suffix] is the end of [s]. *)
Fixpoint endsWith (suffix s : string) : bool :=
  String.eqb s suffix ||
  match s with
  | String _ s' => endsWith suffix s'
  | "" => false
  end.

(** [s] ends with a white-space code point. *)
Definition endsBlank (s : string) : bool :=
  List.existsb (fun e => endsWith e s) JsString.whiteSpace.

End Blank.

(** ** Counting headings in markup *)

Module Heading.

(** The number of start tags of elements named [name] in a token stream. *)
Definition count (name : string) (ts : list Dom.token) : nat :=
  List.length (List.filter (Dom.opens name) ts).

(** A node and everything below it, in tree order. *)
Fixpoint selfAndBelow (n : Dom.node) : list Dom.node :=
  n :: match n with
       | Dom.Element _ _ childNodes => List.flat_map selfAndBelow childNodes
       | _ => []
       end.

(** The nodes inside an element. *)
Definition inside (element : Dom.node) : list Dom.node :=
  match element with
  | Dom.Element _ _ childNodes => List.flat_map selfAndBelow childNodes
  | _ => []
  end.

(** The title for a blank heading as it was first worded: any h1 inside the
    main element whose text is blank makes the title empty. *)
Definition spec_blank_heading (main : Dom.node) : Prop :=
  forall h,
    In h (inside main) ->
    Dom.isElementNamed "h1" h = true ->
    JsString.isBlank (Dom.textContent h) = true ->
    fst (Index.extractTitle main) = "".

End Heading.

(** ** The nodes of a hast tree *)

Module Tree.

(** A node and everything below it, in tree order. *)
Fixpoint subnodes (n : Hast.node) : list Hast.node :=
  n :: match n with
       | Hast.Element _ _ children => List.flat_map subnodes children
       | _ => []
       end.

(** Everything below the root. *)
Definition below (tree : Hast.root) : list Hast.node :=
  List.flat_map subnodes (Hast.rootChildren tree).

(** No element that stays loses all its children to [test]: each element
    that does not pass the test and has children has a child that does not
    pass it either. *)
Fixpoint cascadeFree (test : Hast.node -> bool) (n : Hast.node) : bool :=
  test n ||
  match n with
  | Hast.Element _ _ children =>
      match children with
      | [] => true
      | _ :: _ =>
          List.existsb (fun c => negb (test c)) children &&
          List.forallb (cascadeFree test) children
      end
  | _ => true
  end.

(** [m] comes from [n] with its own tag and properties: an element keeps
    both (its children may differ), any other node is the same node. *)
Definition derives (m n : Hast.node) : Prop :=
  match m, n with
  | Hast.Element tagName properties _, Hast.Element tagName' properties' _ =>
      tagName = tagName' /\ properties = properties'
  | Hast.Element _ _ _, _ => False
  | _, _ => m = n
  end.

(** A node without children. *)
Definition isLeaf (n : Hast.node) : bool :=
  match n with
  | Hast.Element _ _ (_ :: _) => false
  | _ => true
  end.

(** No usable label on the node. *)
Definition unlabelled (n : Hast.node) : bool :=
  match Hast.ariaLabelValue n with
  | Some _ => false
  | None => true
  end.

End Tree.

(** ** The index file and the build hook (index.ts, lines 43-92, 191-219) *)

Module Llms.

Record OptionalLink : Type := {
  label : string;
  linkUrl : string;
  linkDescription : option string
}.

Record LlmsConfig : Type := {
  title : string;
  description : option string;
  details : option string;
  optionalLinks : option (list OptionalLink);
  docSet : option (list Index.DocSet);
  notes : option string;
  pageSeparator : option string
}.

(** Truthiness of an optional string: absent and empty are both falsy. *)
Definition present (o : option string) : bool :=
  match o with
  | Some s => negb (String.eqb s "")
  | None => false
  end.

Definition nonEmpty (s : string) : bool := negb (String.eqb s "").

(** Line 213: one line of the Optional section. *)
Definition linkLine (l : OptionalLink) : string :=
  "- [" ++ label l ++ "](" ++ linkUrl l ++ ")"
  ++ (if present (linkDescription l)
      then ": " ++ Js.default "" (linkDescription l)
      else "").

(** Lines 195-216: the array [lines] before it is filtered. *)
Definition indexBlocks (opts : LlmsConfig) (docSetsLines : list string)
  : list string :=
  let lines :=
    [ "# " ++ title opts;
      if present (description opts)
      then "> " ++ Js.default "" (description opts) else "";
      Js.default "" (details opts) ] in
  let lines :=
    match docSetsLines with
    | [] => lines
    | _ :: _ =>
        List.app lines
          ["## Documentation Sets" ++ JsString.nl ++ JsString.nl
           ++ Js.join JsString.nl docSetsLines]
    end in
  let lines :=
    if present (notes opts)
    then List.app lines
           ["## Notes" ++ JsString.nl ++ JsString.nl ++ Js.default "" (notes opts)]
    else lines in
  match optionalLinks opts with
  | Some (l :: links) =>
      List.app lines
        ["## Optional" ++ JsString.nl ++ JsString.nl
         ++ Js.join JsString.nl (List.map linkLine (l :: links))]
  | _ => lines
  end.

(** Lines 191-219. *)
Definition buildLlmsIndex (opts : LlmsConfig) (docSetsLines : list string)
  : string :=
  Js.join (JsString.nl ++ JsString.nl)
    (List.filter nonEmpty (indexBlocks opts docSetsLines)).

(** Line 88: the line of a document set in the index. *)
Definition docSetLine (set : Index.DocSet) (href : string) : string :=
  "- [" ++ Index.title set ++ "](" ++ href ++ "): " ++ Index.description set.

Section Build.

Variable isMatch : string -> string -> bool.
Variable compare : string -> string -> Z.
Variable path_join : list string -> string.
Variable files : string -> option string.
Variable parse : string -> Dom.document.
Variable querySelector : string -> Dom.document -> option (list nat).
Variable innerHTML : Dom.node -> string.
Variable entryToSimpleMarkdown : string -> list string -> bool -> Result string.
(** [new URL(url, site)] as a string; [None] when the constructor throws. *)
Variable newURL : string -> option string -> option string.

(** Lines 79-92: the artifacts written, and the lines for the index when no
    call threw on the way. *)
Fixpoint processAllDocSets (context : Index.PluginContext) (site : option string)
    (sets : list Index.DocSet) : list Index.DocSetOutput * option (list string) :=
  match sets with
  | [] => ([], Some [])
  | set :: rest =>
      match Index.processDocSet isMatch compare path_join files parse
              querySelector innerHTML entryToSimpleMarkdown context set with
      | None => ([], None)
      | Some out =>
          match newURL (Index.url set) site with
          | None => ([out], None)
          | Some href =>
              let (outs, lines) := processAllDocSets context site rest in
              (out :: outs,
               match lines with
               | Some ls => Some (docSetLine set href :: ls)
               | None => None
               end)
          end
      end
  end.

(** The separator the hook leaves in the configuration (lines 53-55). *)
Definition effectiveSeparator (opts : LlmsConfig) : string :=
  if present (pageSeparator opts)
  then Js.default "" (pageSeparator opts)
  else JsString.nl ++ JsString.nl ++ "---" ++ JsString.nl ++ JsString.nl.

(** Lines 52-69, the astro:build:done hook: the artifacts written, and the
    path and content of llms.txt when the hook gets that far. *)
Definition buildDone (opts : LlmsConfig) (site : option string)
    (dirPathname : string) (pages : list Index.Page)
  : list Index.DocSetOutput * option (string * string) :=
  let context := {|
    Index.pageSeparator := effectiveSeparator opts;
    Index.distDir := dirPathname;
    Index.pages :=
      List.map (fun page => {| Index.pathname := Index.pathname page |}) pages
  |} in
  let (outs, lines) :=
    processAllDocSets context site (Js.default [] (docSet opts)) in
  (outs,
   match lines with
   | Some ls =>
       Some (path_join [Index.distDir context; "llms.txt"],
             buildLlmsIndex opts ls)
   | None => None
   end).

End Build.

(** The configuration with every empty optional field left out. *)
Definition dropEmpty (opts : LlmsConfig) : LlmsConfig := {|
  title := title opts;
  description := if present (description opts) then description opts else None;
  details := if present (details opts) then details opts else None;
  optionalLinks :=
    match optionalLinks opts with
    | Some [] => None
    | other => other
    end;
  docSet := docSet opts;
  notes := if present (notes opts) then notes opts else None;
  pageSeparator := pageSeparator opts
|}.

End Llms.

(** ** More of the small site *)

Module Sample.

(** A resolver for urls that start with a slash, against an origin. *)
Definition newURL (url : string) (site : option string) : option string :=
  match site with
  | Some origin => Some (origin ++ url)
  | None => None
  end.

Definition config : Llms.LlmsConfig := {|
  Llms.title := "Site";
  Llms.description := Some "";
  Llms.details := None;
  Llms.optionalLinks := Some [];
  Llms.docSet := Some [Example.docSet None None; Example.strayset];
  Llms.notes := Some "";
  Llms.pageSeparator := Some ""
|}.

(** A set with an empty exclude list. *)
Definition looseSet : Index.DocSet := {|
  Index.title := "Complete site";
  Index.description := "The full site";
  Index.url := "/llms-full.txt";
  Index.include := ["beta/"; "alpha/"];
  Index.exclude := Some [];
  Index.promote := None;
  Index.demote := None;
  Index.onlyStructure := None;
  Index.mainSelector := None;
  Index.ignoreSelectors := None
|}.

(** A main element whose second heading is blank. *)
Definition realThenBlank : Dom.node :=
  Dom.Element "main" [] [Example.heading "Real"; Example.heading "  "].

(** An ideographic space (U+3000), a space and a no-break space (U+00A0). *)
Definition blankText : string :=
  JsString.bytes [227; 128; 128; 32; 194; 160]%nat.

(** A main element whose heading holds that white space only. *)
Definition blankHeading : Dom.node :=
  Dom.Element "main" []
    [Example.heading blankText; Example.paragraph "first"].

(** The word Wide with an em space (U+2003) before it and an ideographic
    space (U+3000) behind it. *)
Definition wideText : string :=
  JsString.bytes [226; 128; 131]%nat ++ "Wide"
  ++ JsString.bytes [227; 128; 128]%nat.

(** A main element whose heading has an em space before its text and an
    ideographic space behind it. *)
Definition wideHeading : Dom.node :=
  Dom.Element "main" [] [Example.heading wideText].

(** A main element with two headings. *)
Definition twoHeadings : Dom.node :=
  Dom.Element "main" []
    [Example.paragraph "lead";
     Example.heading "  First  ";
     Dom.Element "section" [] [Example.heading "Second"]].

Definition isMetaDescription (n : Dom.node) : bool :=
  Dom.isElementNamed "meta" n &&
  match Dom.getAttribute "name" n with
  | Some v => String.eqb v "description"
  | None => false
  end.

Fixpoint placeOfMeta (n : Dom.node) : option (list nat) :=
  if isMetaDescription n then Some []
  else match n with
       | Dom.Element _ _ childNodes => Example.placeAmong placeOfMeta 0 childNodes
       | _ => None
       end.

(** A selector engine that knows type selectors and the selector of the
    meta description. *)
Definition querySelector (selector : string) (doc : Dom.document)
  : option (list nat) :=
  if String.eqb selector Index.metaDescriptionSelector
  then Example.placeAmong placeOfMeta 0 doc
  else Example.querySelector selector doc.

(** The words About alpha with an em space (U+2003) before them and a
    space and a line feed behind them. *)
Definition describedContent : string :=
  JsString.bytes [226; 128; 131]%nat ++ "About alpha" ++ JsString.bytes [32; 10]%nat.

(** A page with a meta description. *)
Definition describedPage : Dom.document :=
  [Dom.Element "html" []
     [Dom.Element "head" []
        [Dom.Element "meta"
           [("name", "description"); ("content", describedContent)] []];
      Dom.Element "body" []
        [Dom.Element "main" []
           [Example.heading "Alpha"; Example.paragraph "first"]]]].

(** A labelled link around visible text, next to a hidden note. *)
Definition labelledLink : Hast.root :=
  Hast.Root
    [Hast.Element "a" (Some [("ariaLabel", Hast.VString "Home page")])
       [Hast.Text (Hast.VString "Home")];
     Hast.Element "div" (Some [])
       [Hast.Element "span" (Some [("ariaHidden", Hast.VBool true)])
          [Hast.Text (Hast.VString "decoration")];
        Hast.Text (Hast.VString "kept")]].

End Sample.

(** ** Facts about findIndex *)

Section FindIndexFacts.

Context {A : Type} (f : A -> bool).

Lemma findIndex_from_range (l : list A) (i : Z) :
  Js.findIndex_from f l i = -1 \/
  (i <= Js.findIndex_from f l i < i + Js.len l).
Proof.
  revert i; induction l as [|x l IH]; intros i; simpl.
  - now left.
  - destruct (f x).
    + right. unfold Js.len. simpl List.length. lia.
    + destruct (IH (i + 1)) as [H|H]; [now left|right].
      unfold Js.len in *. simpl List.length. lia.
Qed.

Lemma findIndex_range (l : list A) :
  -1 <= Js.findIndex f l < Js.len l.
Proof.
  unfold Js.findIndex.
  destruct (findIndex_from_range l 0) as [H|H]; rewrite ?H.
  - unfold Js.len; lia.
  - lia.
Qed.

Lemma findIndex_from_none (l : list A) (i : Z) :
  0 <= i ->
  (forall x, In x l -> f x = false) ->
  Js.findIndex_from f l i = -1.
Proof.
  revert i; induction l as [|x l IH]; intros i Hi Hall; simpl.
  - reflexivity.
  - rewrite (Hall x (or_introl eq_refl)).
    apply IH; [lia|]. intros y Hy. apply Hall. now right.
Qed.

Lemma findIndex_from_first (l : list A) (i : Z) (k : nat) (x : A) :
  nth_error l k = Some x -> f x = true ->
  (forall j y, (j < k)%nat -> nth_error l j = Some y -> f y = false) ->
  Js.findIndex_from f l i = i + Z.of_nat k.
Proof.
  revert i k; induction l as [|a l IH]; intros i k Hk Hx Hbefore.
  - destruct k; discriminate.
  - destruct k as [|k]; simpl in *.
    + injection Hk as ->. rewrite Hx. lia.
    + rewrite (Hbefore 0%nat a); [|lia|reflexivity].
      rewrite (IH (i + 1) k Hk Hx); [lia|].
      intros j y Hj Hy. apply (Hbefore (S j) y); [lia|exact Hy].
Qed.

End FindIndexFacts.

Section PriorityFacts.

Variable isMatch : string -> string -> bool.

Lemma findIndex_no_match (id : string) (pats : list string) :
  Priority.no_match isMatch id pats ->
  Js.findIndex (fun expr => isMatch id expr) pats = -1.
Proof.
  intros H. apply findIndex_from_none; [lia|exact H].
Qed.

Lemma findIndex_first_match (id : string) (pats : list string) (i : nat) :
  Priority.first_match isMatch id pats i ->
  Js.findIndex (fun expr => isMatch id expr) pats = Z.of_nat i.
Proof.
  intros [[pat [Hn Hm]] Hbefore].
  unfold Js.findIndex.
  rewrite (findIndex_from_first (fun expr => isMatch id expr) pats 0 i pat Hn Hm Hbefore).
  lia.
Qed.

Lemma first_match_lt (id : string) (pats : list string) (i : nat) :
  Priority.first_match isMatch id pats i -> Z.of_nat i < Js.len pats.
Proof.
  intros [[pat [Hn _]] _].
  assert (nth_error pats i <> None) as H by congruence.
  apply nth_error_Some in H. unfold Js.len. lia.
Qed.

Lemma prefixLength_nonneg (id : string) (promote demote : list string) :
  0 <= Priority.prefixLength isMatch id promote demote.
Proof.
  unfold Priority.prefixLength.
  pose proof (findIndex_range (fun expr => isMatch id expr) demote) as Hd.
  pose proof (findIndex_range (fun expr => isMatch id expr) promote) as Hp.
  destruct (Js.findIndex _ demote >? -1) eqn:Ed; simpl.
  - lia.
  - destruct (Js.findIndex _ promote >? -1) eqn:Ep; lia.
Qed.

Lemma prefixLength_promoted id promote demote p :
  Priority.no_match isMatch id demote ->
  Priority.first_match isMatch id promote p ->
  Priority.prefixLength isMatch id promote demote
  = (Js.len promote - Z.of_nat p) + Js.len demote.
Proof.
  intros Hd Hp. unfold Priority.prefixLength.
  rewrite (findIndex_no_match _ _ Hd). simpl.
  rewrite (findIndex_first_match _ _ _ Hp).
  destruct (Z.of_nat p >? -1) eqn:E; lia.
Qed.

Lemma prefixLength_demoted id promote demote d :
  Priority.first_match isMatch id demote d ->
  Priority.prefixLength isMatch id promote demote
  = Js.len demote - Z.of_nat d - 1.
Proof.
  intros Hd. unfold Priority.prefixLength.
  rewrite (findIndex_first_match _ _ _ Hd).
  destruct (Z.of_nat d >? -1) eqn:E; [|lia].
  simpl. lia.
Qed.

Lemma prefixLength_neutral id promote demote :
  Priority.no_match isMatch id promote ->
  Priority.no_match isMatch id demote ->
  Priority.prefixLength isMatch id promote demote = Js.len demote.
Proof.
  intros Hp Hd. unfold Priority.prefixLength.
  rewrite (findIndex_no_match _ _ Hd). simpl.
  rewrite (findIndex_no_match _ _ Hp). simpl. lia.
Qed.

Lemma prioritizePathname_key id promote demote :
  Priority.prioritizePathname isMatch id promote demote
  = Some (Js.repeat_nat (String Priority.sentinel "")
            (Z.to_nat (Priority.prefixLength isMatch id
                         (Js.default [] promote) (Js.default [] demote)))
          ++ id).
Proof.
  unfold Priority.prioritizePathname, Js.repeat.
  pose proof (prefixLength_nonneg id (Js.default [] promote) (Js.default [] demote)) as H.
  destruct (Priority.prefixLength _ _ _ _ <? 0) eqn:E; [lia|reflexivity].
Qed.

End PriorityFacts.

(** ** The bias of a path and its sort key *)

(** C1 (as amended): for every path and pattern lists the prefix length is a
    non-negative integer with these values: promoted at index [p] and not
    demoted, it is [(promoteCount - p) + demoteCount]; demoted at index [d],
    it is [demoteCount - d - 1]; matched by neither list, it is
    [demoteCount]; and the sort key is the path behind exactly that many
    sentinel characters. *)
Theorem prioritizePathname_bias (isMatch : string -> string -> bool)
    (id : string) (promote demote : option (list string)) :
  let promoted := Js.default [] promote in
  let demoted := Js.default [] demote in
  let bias := Priority.prefixLength isMatch id promoted demoted in
  (forall p, Priority.no_match isMatch id demoted ->
             Priority.first_match isMatch id promoted p ->
             bias = (Js.len promoted - Z.of_nat p) + Js.len demoted) /\
  (forall d, Priority.first_match isMatch id demoted d ->
             bias = Js.len demoted - Z.of_nat d - 1) /\
  (Priority.no_match isMatch id promoted ->
   Priority.no_match isMatch id demoted ->
   bias = Js.len demoted) /\
  0 <= bias /\
  Priority.prioritizePathname isMatch id promote demote
  = Some (Js.repeat_nat (String Priority.sentinel "") (Z.to_nat bias) ++ id).
Proof.
  cbv zeta. repeat split.
  - intros p Hd Hp. now apply prefixLength_promoted.
  - intros d Hd. now apply prefixLength_demoted.
  - intros Hp Hd. now apply prefixLength_neutral.
  - apply prefixLength_nonneg.
  - apply prioritizePathname_key.
Qed.

Lemma prioritizePathname_bias_witness :
  Priority.no_match Priority.literalMatch "guide" ["changelog"] /\
  Priority.first_match Priority.literalMatch "guide" ["intro"; "guide"] 1 /\
  Priority.prefixLength Priority.literalMatch "guide" ["intro"; "guide"] ["changelog"]
  = (2 - 1) + 1.
Proof.
  assert (Hd : Priority.no_match Priority.literalMatch "guide" ["changelog"]).
  { intros pat [<-|[]]. reflexivity. }
  assert (Hp : Priority.first_match Priority.literalMatch "guide" ["intro"; "guide"] 1).
  { split.
    - exists "guide". split; reflexivity.
    - intros j pat Hj Hn. destruct j as [|j]; [|lia].
      injection Hn as <-. reflexivity. }
  split; [exact Hd|split; [exact Hp|]].
  destruct (prioritizePathname_bias Priority.literalMatch "guide"
              (Some ["intro"; "guide"]) (Some ["changelog"])) as [H _].
  exact (H 1%nat Hd Hp).
Defined.

(** The formula of the specification gives 0 for a path promoted by the only
    promote pattern, and 0 for an unmatched path next to one demote pattern;
    the code gives each of them one sentinel. *)
Lemma spec_bias_formula_fails :
  ~ Priority.spec_bias_formula Priority.literalMatch "guide" ["guide"] [] /\
  ~ Priority.spec_bias_formula Priority.literalMatch "guide" [] ["changelog"].
Proof.
  split.
  - intros [H _].
    assert (Hd : Priority.no_match Priority.literalMatch "guide" []).
    { intros pat []. }
    assert (Hp : Priority.first_match Priority.literalMatch "guide" ["guide"] 0).
    { split.
      - exists "guide". split; reflexivity.
      - intros j pat Hj. lia. }
    specialize (H 0%nat Hd Hp). vm_compute in H. discriminate H.
  - intros [_ [_ H]].
    assert (Hp : Priority.no_match Priority.literalMatch "guide" []).
    { intros pat []. }
    assert (Hd : Priority.no_match Priority.literalMatch "guide" ["changelog"]).
    { intros pat [<-|[]]. reflexivity. }
    specialize (H Hp Hd). vm_compute in H. discriminate H.
Qed.

(** C9: the prefix length is never negative, whatever the path and the
    pattern lists (absent lists included), so [repeat] does not throw and
    prioritizePathname always returns a key. *)
Theorem prioritizePathname_total (isMatch : string -> string -> bool)
    (id : string) (promote demote : option (list string)) :
  let bias :=
    Priority.prefixLength isMatch id (Js.default [] promote) (Js.default [] demote) in
  0 <= bias /\
  Js.repeat (String Priority.sentinel "") bias <> None /\
  exists key, Priority.prioritizePathname isMatch id promote demote = Some key.
Proof.
  cbv zeta.
  pose proof (prefixLength_nonneg isMatch id (Js.default [] promote)
                (Js.default [] demote)) as H.
  split; [exact H|split].
  - unfold Js.repeat.
    destruct (Priority.prefixLength _ _ _ _ <? 0) eqn:E; [lia|discriminate].
  - eexists. apply prioritizePathname_key.
Qed.

(** ** Sort keys under a comparator *)

Section KeyOrder.

Variable compare : string -> string -> Z.
Hypothesis congruent : Collation.sentinel_congruent compare.

Local Abbreviation sentinels n := (Js.repeat_nat (String Priority.sentinel "") n).

Lemma sentinels_succ (n : nat) (s : string) :
  sentinels (S n) ++ s = String Priority.sentinel (sentinels n ++ s).
Proof. reflexivity. Qed.

(** More sentinels in front, earlier in the order. *)
Lemma more_sentinels_first (m n : nat) (a b : string) :
  (m < n)%nat -> Collation.ordinary compare b ->
  compare (sentinels n ++ a) (sentinels m ++ b) < 0.
Proof.
  revert n. induction m as [|m IH]; intros n Hlt Hb.
  - destruct n as [|n]; [lia|].
    rewrite sentinels_succ. simpl.
    destruct b as [|c t]; [contradiction|]. apply Hb.
  - destruct n as [|n]; [lia|].
    rewrite !sentinels_succ. apply congruent. apply IH; [lia|exact Hb].
Qed.

Lemma sentinels_split (key : string) :
  key = sentinels (Collation.sentinelPrefix key) ++ Collation.dropSentinels key.
Proof.
  induction key as [|c key IH]; simpl.
  - reflexivity.
  - destruct (Ascii.eqb c Priority.sentinel) eqn:E.
    + apply Ascii.eqb_eq in E. subst c. simpl. now rewrite <- IH.
    + reflexivity.
Qed.

Lemma longer_prefix_first (ka kb : string) :
  (Collation.sentinelPrefix kb < Collation.sentinelPrefix ka)%nat ->
  Collation.ordinary compare (Collation.dropSentinels kb) ->
  compare ka kb < 0.
Proof.
  intros Hlt Hb.
  rewrite (sentinels_split ka), (sentinels_split kb).
  now apply more_sentinels_first.
Qed.

End KeyOrder.

(** ** Array.prototype.sort with a comparator that does not throw *)

Section SortFacts.

Context {A : Type}.
Variable comparefn : A -> A -> option Z.
Variable c : A -> A -> Z.
Hypothesis comparefn_total : forall x y, comparefn x y = Some (c x y).

Lemma insert_permutation (x : A) (l : list A) :
  exists l', JsArray.insert comparefn x l = Some l' /\ Permutation (x :: l) l'.
Proof.
  induction l as [|y l IH]; simpl.
  - exists [x]. split; [reflexivity|apply Permutation_refl].
  - rewrite comparefn_total. destruct (c x y <=? 0).
    + eexists. split; [reflexivity|apply Permutation_refl].
    + destruct IH as [l' [-> Hp]]. eexists. split; [reflexivity|].
      eapply perm_trans; [apply perm_swap|]. now apply perm_skip.
Qed.

Lemma sort_permutation (l : list A) :
  exists s, JsArray.sort comparefn l = Some s /\ Permutation l s.
Proof.
  induction l as [|x l IH]; simpl.
  - exists []. split; [reflexivity|apply perm_nil].
  - destruct IH as [s [-> Hp]].
    destruct (insert_permutation x s) as [s' [-> Hp']].
    exists s'. split; [reflexivity|].
    eapply perm_trans; [apply perm_skip, Hp|exact Hp'].
Qed.

Hypothesis c_antisym : forall x y, c x y < 0 <-> c y x > 0.
Hypothesis c_trans : forall x y z, c x y <= 0 -> c y z <= 0 -> c x z <= 0.

Let before (x y : A) : Prop := c x y <= 0.

Lemma insert_sorted (x : A) (l l' : list A) :
  StronglySorted before l -> JsArray.insert comparefn x l = Some l' ->
  StronglySorted before l'.
Proof.
  revert l'. induction l as [|y l IH]; intros l' Hs Hi; simpl in Hi.
  - injection Hi as <-. constructor; constructor.
  - rewrite comparefn_total in Hi. inversion Hs as [|? ? Hs' Hall]; subst.
    destruct (c x y <=? 0) eqn:E.
    + injection Hi as <-. apply Z.leb_le in E.
      constructor; [exact Hs|]. constructor; [exact E|].
      eapply Forall_impl; [|exact Hall].
      intros z Hz. exact (c_trans x y z E Hz).
    + apply Z.leb_gt in E.
      destruct (insert_permutation x l) as [r [Hr Hp]].
      rewrite Hr in Hi. injection Hi as <-.
      constructor; [now apply IH|].
      assert (Hyx : before y x).
      { unfold before. pose proof (proj1 (c_antisym y x)) as H1.
        pose proof (proj2 (c_antisym y x)) as H2.
        destruct (Z_le_gt_dec (c y x) 0) as [Hle|Hgt]; [exact Hle|].
        pose proof (proj2 (c_antisym x y)) as H3. lia. }
      apply Forall_forall. intros z Hz.
      apply (Permutation_in _ (Permutation_sym Hp)) in Hz.
      destruct Hz as [<-|Hz]; [exact Hyx|].
      rewrite Forall_forall in Hall. now apply Hall.
Qed.

Lemma sort_sorted (l s : list A) :
  JsArray.sort comparefn l = Some s -> StronglySorted before s.
Proof.
  revert s. induction l as [|x l IH]; intros s Hs; simpl in Hs.
  - injection Hs as <-. constructor.
  - destruct (JsArray.sort comparefn l) as [r|]; [|discriminate].
    eapply insert_sorted; [|exact Hs]. now apply IH.
Qed.

Lemma sorted_precedes (s : list A) (x y : A) :
  StronglySorted before s -> JsArray.precedes x y s -> before x y.
Proof.
  intros Hs [l1 [l2 [l3 ->]]].
  induction l1 as [|z l1 IH]; simpl in Hs.
  - inversion Hs as [|? ? _ Hall]; subst.
    rewrite Forall_forall in Hall. apply Hall.
    apply in_or_app. right. now left.
  - inversion Hs; subst. now apply IH.
Qed.

Lemma in_two_precedes (s : list A) (x y : A) :
  In x s -> In y s -> x <> y ->
  JsArray.precedes x y s \/ JsArray.precedes y x s.
Proof.
  intros Hx Hy Hne.
  destruct (in_split x s Hx) as [l1 [l2 ->]].
  apply in_app_or in Hy. destruct Hy as [Hy|[Hy|Hy]].
  - right. destruct (in_split y l1 Hy) as [m1 [m2 ->]].
    exists m1, m2, l2. now rewrite <- app_assoc.
  - contradiction.
  - left. destruct (in_split y l2 Hy) as [m1 [m2 ->]].
    exists l1, m1, m2. reflexivity.
Qed.

(** In the result of the sort, an element that compares strictly lower
    stands before the other one. *)
Lemma sort_orders (l s : list A) (x y : A) :
  JsArray.sort comparefn l = Some s ->
  In x l -> In y l -> c x y < 0 ->
  JsArray.precedes x y s.
Proof.
  intros Hs Hx Hy Hlt.
  destruct (sort_permutation l) as [s' [Hs' Hp]].
  rewrite Hs in Hs'. injection Hs' as <-.
  assert (Hne : x <> y).
  { intros ->. pose proof (proj1 (c_antisym y y) Hlt). lia. }
  assert (Hxs : In x s) by now apply (Permutation_in _ Hp).
  assert (Hys : In y s) by now apply (Permutation_in _ Hp).
  destruct (in_two_precedes s x y Hxs Hys Hne) as [H|H]; [exact H|].
  exfalso. apply (sorted_precedes s y x (sort_sorted l s Hs)) in H.
    unfold before in H. pose proof (proj1 (c_antisym x y) Hlt). lia.
Qed.

End SortFacts.

(** ** The character-by-character comparator *)

Section LexCompare.

Variable weight : ascii -> N.

Lemma lex_compare_antisym (x y : string) :
  Collation.lex_compare weight x y < 0 <-> Collation.lex_compare weight y x > 0.
Proof.
  revert y. induction x as [|a x IH]; intros [|b y]; simpl; try lia.
  rewrite (N.compare_antisym (weight a) (weight b)).
  destruct (N.compare (weight a) (weight b)); simpl; try lia. apply IH.
Qed.

Lemma lex_compare_trans (x y z : string) :
  Collation.lex_compare weight x y <= 0 ->
  Collation.lex_compare weight y z <= 0 ->
  Collation.lex_compare weight x z <= 0.
Proof.
  revert y z. induction x as [|a x IH]; intros [|b y] [|d z]; simpl; try lia.
  destruct (N.compare_spec (weight a) (weight b)) as [Hab|Hab|Hab];
    destruct (N.compare_spec (weight b) (weight d)) as [Hbd|Hbd|Hbd];
    destruct (N.compare_spec (weight a) (weight d)) as [Had|Had|Had];
    try lia.
  apply IH.
Qed.

Lemma lex_compare_consistent :
  Collation.consistent (Collation.lex_compare weight).
Proof.
  split.
  - apply lex_compare_antisym.
  - apply lex_compare_trans.
Qed.

Lemma lex_compare_congruent :
  Collation.sentinel_congruent (Collation.lex_compare weight).
Proof.
  intros s t H. simpl. now rewrite N.compare_refl.
Qed.

Lemma lex_compare_after_sentinel (c : ascii) :
  (weight Priority.sentinel < weight c)%N ->
  Collation.after_sentinel (Collation.lex_compare weight) c.
Proof.
  intros H s t. simpl.
  destruct (N.compare_spec (weight Priority.sentinel) (weight c)); lia.
Qed.

End LexCompare.

(** ** The sorted pages of a document set *)

Section PipelineFacts.

Variable isMatch : string -> string -> bool.
Variable compare : string -> string -> Z.
Variable path_join : list string -> string.
Variable files : string -> option string.
Variable parse : string -> Dom.document.
Variable querySelector : string -> Dom.document -> option (list nat).
Variable innerHTML : Dom.node -> string.
Variable entryToSimpleMarkdown : string -> list string -> bool -> Result string.

Local Abbreviation run :=
  (Index.processDocSet isMatch compare path_join files parse querySelector
     innerHTML entryToSimpleMarkdown).

Local Abbreviation keyOf set x :=
  (Priority.sortKey isMatch x (Index.promote set) (Index.demote set)).

Lemma comparePathnames_total (set : Index.DocSet) (a b : string) :
  Index.comparePathnames isMatch compare set a b
  = Some (compare (keyOf set a) (keyOf set b)).
Proof.
  unfold Index.comparePathnames. now rewrite !prioritizePathname_key.
Qed.

Lemma processDocSet_sorted (context : Index.PluginContext) (set : Index.DocSet) :
  exists out,
    run context set = Some out /\
    JsArray.sort (Index.comparePathnames isMatch compare set)
      (Index.selectMatches isMatch (Index.pages context) set)
    = Some (Index.sorted out) /\
    Permutation (Index.selectMatches isMatch (Index.pages context) set)
                (Index.sorted out).
Proof.
  unfold Index.processDocSet.
  destruct (sort_permutation (Index.comparePathnames isMatch compare set)
              (fun a b => compare (keyOf set a) (keyOf set b))
              (comparePathnames_total set)
              (Index.selectMatches isMatch (Index.pages context) set))
    as [s [Hs Hp]].
  rewrite Hs.
  destruct (fold_left _ s ([], [])) as [entries errors].
  eexists. split; [reflexivity|]. simpl. split; [reflexivity|exact Hp].
Qed.

(** A key that compares lower puts its path first. *)
Lemma lower_key_orderedBefore (context : Index.PluginContext)
    (set : Index.DocSet) (x y : string) :
  compare (keyOf set x) (keyOf set y) < 0 ->
  Index.orderedBefore isMatch compare path_join files parse querySelector
    innerHTML entryToSimpleMarkdown context set x y.
Proof.
  intros Hlt. split.
  - exists (keyOf set x), (keyOf set y).
    rewrite !prioritizePathname_key. repeat split. exact Hlt.
  - intros [Hanti Htrans].
    destruct (processDocSet_sorted context set) as [out [Hrun [Hsort _]]].
    exists out. split; [exact Hrun|]. intros Hx Hy.
    apply (sort_orders (Index.comparePathnames isMatch compare set)
             (fun a b => compare (keyOf set a) (keyOf set b))
             (comparePathnames_total set)
             (fun a b => Hanti (keyOf set a) (keyOf set b))
             (fun a b d => Htrans (keyOf set a) (keyOf set b) (keyOf set d))
             _ _ x y Hsort Hx Hy Hlt).
Qed.

End PipelineFacts.

(** ** The order of the pages of a set *)

Section Ordering.

Variable isMatch : string -> string -> bool.
Variable compare : string -> string -> Z.
Variable path_join : list string -> string.
Variable files : string -> option string.
Variable parse : string -> Dom.document.
Variable querySelector : string -> Dom.document -> option (list nat).
Variable innerHTML : Dom.node -> string.
Variable entryToSimpleMarkdown : string -> list string -> bool -> Result string.

Local Abbreviation before :=
  (Index.orderedBefore isMatch compare path_join files parse querySelector
     innerHTML entryToSimpleMarkdown).

(** C2 (as amended): of two sort keys built in one run, the key with the
    longer sentinel prefix compares lower, so its path comes earlier (not
    later) in the sorted pages than the path of a key with a shorter or no
    sentinel prefix. This holds for a comparator that keeps the order of two
    strings when both get a sentinel in front, and when the shorter prefix
    is followed by a character that the comparator orders after the
    sentinel. *)
Theorem longer_prefix_sorts_earlier (context : Index.PluginContext)
    (set : Index.DocSet) (a b ka kb : string) :
  Collation.sentinel_congruent compare ->
  Priority.prioritizePathname isMatch a (Index.promote set) (Index.demote set)
  = Some ka ->
  Priority.prioritizePathname isMatch b (Index.promote set) (Index.demote set)
  = Some kb ->
  (Collation.sentinelPrefix kb < Collation.sentinelPrefix ka)%nat ->
  Collation.ordinary compare (Collation.dropSentinels kb) ->
  compare ka kb < 0 /\ before context set a b.
Proof.
  intros Hc Ha Hb Hlt Hord.
  rewrite prioritizePathname_key in Ha, Hb.
  injection Ha as <-. injection Hb as <-.
  assert (H : compare (Priority.sortKey isMatch a (Index.promote set) (Index.demote set))
                      (Priority.sortKey isMatch b (Index.promote set) (Index.demote set))
              < 0)
    by now apply longer_prefix_first.
  split; [exact H|]. now apply lower_key_orderedBefore.
Qed.

(** C3 (as amended): with a comparator that keeps the order of two strings
    when both get a sentinel in front, a path that matches a demote pattern
    is ordered after a path that matches neither list, provided the demoted
    path starts with a character the comparator orders after the sentinel;
    and of two paths that match promote patterns and no demote pattern, the
    one whose first matching promote pattern is listed earlier is ordered
    before the other, provided that other path starts with such a
    character. *)
Theorem promote_demote_order (context : Index.PluginContext) (set : Index.DocSet) :
  Collation.sentinel_congruent compare ->
  let promoted := Js.default [] (Index.promote set) in
  let demoted := Js.default [] (Index.demote set) in
  (forall a b d,
     Priority.first_match isMatch a demoted d ->
     Priority.no_match isMatch b promoted ->
     Priority.no_match isMatch b demoted ->
     Collation.ordinary compare a ->
     before context set b a) /\
  (forall a b p q,
     Priority.no_match isMatch a demoted ->
     Priority.no_match isMatch b demoted ->
     Priority.first_match isMatch a promoted p ->
     Priority.first_match isMatch b promoted q ->
     (p < q)%nat ->
     Collation.ordinary compare b ->
     before context set a b).
Proof.
  intros Hc promoted demoted. split.
  - intros a b d Ha Hbp Hbd Hord.
    apply lower_key_orderedBefore. unfold Priority.sortKey.
    fold promoted demoted.
    rewrite (prefixLength_demoted isMatch a promoted demoted d Ha).
    rewrite (prefixLength_neutral isMatch b promoted demoted Hbp Hbd).
    pose proof (first_match_lt isMatch a demoted d Ha) as Hd.
    apply more_sentinels_first; [exact Hc|unfold Js.len in *; lia|exact Hord].
  - intros a b p q Had Hbd Hap Hbq Hpq Hord.
    apply lower_key_orderedBefore. unfold Priority.sortKey.
    fold promoted demoted.
    rewrite (prefixLength_promoted isMatch a promoted demoted p Had Hap).
    rewrite (prefixLength_promoted isMatch b promoted demoted q Hbd Hbq).
    pose proof (first_match_lt isMatch b promoted q Hbq) as Hq.
    apply more_sentinels_first; [exact Hc|unfold Js.len in *; lia|exact Hord].
Qed.

End Ordering.

(** ** The ordering theorems on the small site *)

Lemma codeUnit_after_sentinel (c : ascii) :
  (N_of_ascii Priority.sentinel < N_of_ascii c)%N ->
  Collation.after_sentinel Collation.codeUnitCompare c.
Proof. apply lex_compare_after_sentinel. Qed.

Lemma longer_prefix_sorts_earlier_witness :
  Collation.codeUnitCompare "_beta/" "alpha/" < 0 /\
  Index.orderedBefore Priority.literalMatch Collation.codeUnitCompare
    Example.path_join Example.files Example.parse Example.querySelector
    Example.innerHTML Example.entryToSimpleMarkdown
    Example.context (Example.docSet (Some ["beta/"]) None) "beta/" "alpha/".
Proof.
  apply (longer_prefix_sorts_earlier Priority.literalMatch
           Collation.codeUnitCompare Example.path_join Example.files
           Example.parse Example.querySelector Example.innerHTML
           Example.entryToSimpleMarkdown Example.context
           (Example.docSet (Some ["beta/"]) None) "beta/" "alpha/"
           "_beta/" "alpha/").
  - apply lex_compare_congruent.
  - reflexivity.
  - reflexivity.
  - simpl. lia.
  - simpl. apply codeUnit_after_sentinel. reflexivity.
Defined.

(** On the small site with beta promoted, the key of beta has the longer
    sentinel prefix and beta comes first: the invariant of the data model
    does not hold. *)
Lemma longer_prefix_sorts_later_fails :
  ~ Index.spec_longer_prefix_later Priority.literalMatch
      Collation.codeUnitCompare (Example.docSet (Some ["beta/"]) None) /\
  option_map Index.sorted (Example.run (Example.docSet (Some ["beta/"]) None))
  = Some ["beta/"; "alpha/"; "delta/"; "gamma/"].
Proof.
  split.
  - intros H.
    specialize (H "beta/" "alpha/" "_beta/" "alpha/" eq_refl eq_refl).
    assert (Hlt : (Collation.sentinelPrefix "alpha/"
                   < Collation.sentinelPrefix "_beta/")%nat) by (simpl; lia).
    specialize (H Hlt). vm_compute in H. discriminate H.
  - vm_compute. reflexivity.
Qed.

Lemma promote_demote_order_witness :
  Index.orderedBefore Priority.literalMatch Collation.codeUnitCompare
    Example.path_join Example.files Example.parse Example.querySelector
    Example.innerHTML Example.entryToSimpleMarkdown
    Example.context (Example.docSet (Some ["gamma/"; "delta/"]) (Some ["alpha/"]))
    "beta/" "alpha/" /\
  Index.orderedBefore Priority.literalMatch Collation.codeUnitCompare
    Example.path_join Example.files Example.parse Example.querySelector
    Example.innerHTML Example.entryToSimpleMarkdown
    Example.context (Example.docSet (Some ["gamma/"; "delta/"]) (Some ["alpha/"]))
    "gamma/" "delta/".
Proof.
  destruct (promote_demote_order Priority.literalMatch Collation.codeUnitCompare
              Example.path_join Example.files Example.parse
              Example.querySelector Example.innerHTML
              Example.entryToSimpleMarkdown Example.context
              (Example.docSet (Some ["gamma/"; "delta/"]) (Some ["alpha/"]))
              (lex_compare_congruent N_of_ascii)) as [Hdemote Hpromote].
  split.
  - apply (Hdemote "alpha/" "beta/" 0%nat).
    + split.
      * exists "alpha/". split; reflexivity.
      * intros j pat Hj. lia.
    + intros pat [<-|[<-|[]]]; reflexivity.
    + intros pat [<-|[]]. reflexivity.
    + simpl. apply codeUnit_after_sentinel. reflexivity.
  - apply (Hpromote "gamma/" "delta/" 0%nat 1%nat).
    + intros pat [<-|[]]. reflexivity.
    + intros pat [<-|[]]. reflexivity.
    + split.
      * exists "gamma/". split; reflexivity.
      * intros j pat Hj. lia.
    + split.
      * exists "delta/". split; reflexivity.
      * intros j pat Hj Hn. destruct j as [|j]; [|lia].
        injection Hn as <-. reflexivity.
    + lia.
    + simpl. apply codeUnit_after_sentinel. reflexivity.
Defined.

(** A demoted path that itself starts with the sentinel is ordered before a
    path that matches neither list. *)
Lemma demoted_sentinel_path_sorts_first :
  ~ Index.spec_priority_order Priority.literalMatch Collation.codeUnitCompare
      Example.path_join Example.files Example.parse Example.querySelector
      Example.innerHTML Example.entryToSimpleMarkdown
      Example.archiveContext Example.archiveSet /\
  option_map Index.sorted
    (Index.processDocSet Priority.literalMatch Collation.codeUnitCompare
       Example.path_join Example.files Example.parse Example.querySelector
       Example.innerHTML Example.entryToSimpleMarkdown
       Example.archiveContext Example.archiveSet)
  = Some ["_archive/"; "blog/"].
Proof.
  split.
  - intros [H _].
    assert (Ha : Priority.first_match Priority.literalMatch "_archive/"
                   ["_archive/"] 0).
    { split.
      - exists "_archive/". split; reflexivity.
      - intros j pat Hj. lia. }
    assert (Hn : Priority.no_match Priority.literalMatch "_archive/" []).
    { intros pat []. }
    assert (Hbp : Priority.no_match Priority.literalMatch "blog/" []).
    { intros pat []. }
    assert (Hbd : Priority.no_match Priority.literalMatch "blog/" ["_archive/"]).
    { intros pat [<-|[]]. reflexivity. }
    destruct (H "_archive/" "blog/" 0%nat Ha Hn Hbp Hbd)
      as [[kx [ky [Hx [Hy Hlt]]]] _].
    vm_compute in Hx. vm_compute in Hy.
    injection Hx as <-. injection Hy as <-.
    vm_compute in Hlt. discriminate Hlt.
  - vm_compute. reflexivity.
Qed.

(** ** Selecting the pages of a set *)

(** C4: a path is among the selected pages exactly when it is the path of a
    rendered page, matches at least one include pattern and matches no
    exclude pattern, where an absent or empty exclude list excludes nothing;
    when the include patterns match no page, nothing is selected. *)
Theorem selectMatches_spec (isMatch : string -> string -> bool)
    (pages : list Index.Page) (set : Index.DocSet) :
  (forall pn,
     In pn (Index.selectMatches isMatch pages set) <->
     In pn (List.map Index.pathname pages) /\
     (exists pat, In pat (Index.include set) /\ isMatch pn pat = true) /\
     (forall excluded pat,
        Index.exclude set = Some excluded -> In pat excluded ->
        isMatch pn pat = false)) /\
  ((forall page pat, In page pages -> In pat (Index.include set) ->
                     isMatch (Index.pathname page) pat = false) ->
   Index.selectMatches isMatch pages set = []).
Proof.
  split.
  - intros pn. unfold Index.selectMatches, Js.some.
    assert (Hinc : forall l,
               In pn (filter (fun pn => existsb (fun pat => isMatch pn pat)
                                          (Index.include set)) l) <->
               In pn l /\
               exists pat, In pat (Index.include set) /\ isMatch pn pat = true).
    { intros l. rewrite filter_In, existsb_exists. reflexivity. }
    destruct (Index.exclude set) as [excluded|].
    + rewrite filter_In, Hinc, negb_true_iff. split.
      * intros [[Hin Hpat] Hex]. repeat split; try assumption.
        intros excluded' pat Heq Hp. injection Heq as <-.
        destruct (isMatch pn pat) eqn:E; [|reflexivity].
        assert (existsb (fun pat => isMatch pn pat) excluded = true) as Ht
            by (apply existsb_exists; now exists pat).
        congruence.
      * intros [Hin [Hpat Hex]]. repeat split; try assumption.
        destruct (existsb _ excluded) eqn:E; [|reflexivity].
        apply existsb_exists in E. destruct E as [pat [Hp Hm]].
        rewrite (Hex excluded pat eq_refl Hp) in Hm. discriminate.
    + rewrite Hinc. split.
      * intros [Hin Hpat]. repeat split; try assumption. discriminate.
      * intros [Hin [Hpat _]]. now split.
  - intros Hnone. unfold Index.selectMatches, Js.some.
    assert (Hempty : filter (fun pn => existsb (fun pat => isMatch pn pat)
                                         (Index.include set))
                            (List.map Index.pathname pages) = []).
    { induction pages as [|page rest IH]; simpl; [reflexivity|].
      destruct (existsb _ (Index.include set)) eqn:E.
      - apply existsb_exists in E. destruct E as [pat [Hp Hm]].
        rewrite (Hnone page pat (or_introl eq_refl) Hp) in Hm. discriminate.
      - apply IH. intros page' pat Hin. apply Hnone. now right. }
    rewrite Hempty. now destruct (Index.exclude set).
Qed.

Lemma selectMatches_spec_witness :
  (forall page pat,
     In page (Index.pages Example.context) ->
     In pat (Index.include Example.strayset) ->
     Priority.literalMatch (Index.pathname page) pat = false) /\
  Index.selectMatches Priority.literalMatch (Index.pages Example.context)
    Example.strayset = [].
Proof.
  assert (H : forall page pat,
             In page (Index.pages Example.context) ->
             In pat (Index.include Example.strayset) ->
             Priority.literalMatch (Index.pathname page) pat = false).
  { intros page pat Hpage [<-|[]].
    simpl in Hpage.
    destruct Hpage as [<-|[<-|[<-|[<-|[<-|[]]]]]]; reflexivity. }
  split; [exact H|].
  exact (proj2 (selectMatches_spec Priority.literalMatch
                  (Index.pages Example.context) Example.strayset) H).
Defined.

Lemma string_app_assoc_early (a b c : string) : (a ++ b) ++ c = a ++ b ++ c.
Proof. induction a as [|x a IH]; simpl; [reflexivity|now rewrite IH]. Qed.

(** ** Pages that cannot be processed *)

Section SkippedPages.

Variable isMatch : string -> string -> bool.
Variable compare : string -> string -> Z.
Variable path_join : list string -> string.
Variable files : string -> option string.
Variable parse : string -> Dom.document.
Variable querySelector : string -> Dom.document -> option (list nat).
Variable innerHTML : Dom.node -> string.
Variable entryToSimpleMarkdown : string -> list string -> bool -> Result string.

Local Abbreviation attempt :=
  (Index.tryPage path_join files parse querySelector innerHTML
     entryToSimpleMarkdown).
Local Abbreviation fails :=
  (Index.pageFails path_join files parse querySelector innerHTML
     entryToSimpleMarkdown).
Local Abbreviation entriesOf :=
  (Index.entriesOf path_join files parse querySelector innerHTML
     entryToSimpleMarkdown).
Local Abbreviation step :=
  (Index.processPage path_join files parse querySelector innerHTML
     entryToSimpleMarkdown).

(** The loop never stops early: it goes through all the pages, whatever
    happened to the ones before. *)
Lemma loop_result (dist : string) (set : Index.DocSet) (pns : list string)
    (entries errors : list string) :
  List.fold_left (step dist set) pns (entries, errors)
  = (List.app entries (entriesOf dist set pns),
     List.app errors
       (List.map (Index.notFoundMessage path_join dist)
          (List.filter (fails dist set) pns))).
Proof.
  revert entries errors. induction pns as [|pn pns IH]; intros entries errors.
  - simpl. now rewrite !app_nil_r.
  - simpl. unfold Index.pageFails.
    destruct (attempt dist set pn) as [entry|]; rewrite IH; simpl.
    + now rewrite <- app_assoc.
    + now rewrite <- app_assoc.
Qed.

Lemma entries_and_failures (dist : string) (set : Index.DocSet)
    (pns : list string) :
  (List.length (entriesOf dist set pns)
   + List.length (List.filter (fails dist set) pns))%nat
  = List.length pns.
Proof.
  induction pns as [|pn pns IH]; simpl; [reflexivity|].
  unfold Index.pageFails at 1.
  destruct (attempt dist set pn); simpl; rewrite ?length_app; simpl; lia.
Qed.

Lemma missing_file_fails (dist : string) (set : Index.DocSet) (pn : string) :
  files (Index.htmlPathOf path_join dist pn) = None ->
  fails dist set pn = true.
Proof.
  intros H. unfold Index.pageFails, Index.tryPage. now rewrite H.
Qed.

Lemma missing_main_fails (dist : string) (set : Index.DocSet) (pn html : string) :
  files (Index.htmlPathOf path_join dist pn) = Some html ->
  querySelector (Js.default "main" (Index.mainSelector set)) (parse html) = None ->
  fails dist set pn = true.
Proof.
  intros Hf Hq.
  unfold Index.pageFails, Index.tryPage, Index.buildEntryFromHtml.
  now rewrite Hf, Hq.
Qed.

End SkippedPages.

Section SkipAndContinue.

Variable isMatch : string -> string -> bool.
Variable compare : string -> string -> Z.
Variable path_join : list string -> string.
Variable files : string -> option string.
Variable parse : string -> Dom.document.
Variable querySelector : string -> Dom.document -> option (list nat).
Variable innerHTML : Dom.node -> string.
Variable entryToSimpleMarkdown : string -> list string -> bool -> Result string.

(** The html file of a page, the call that builds its entry and the line
    printed when the page fails, written out. *)
Local Abbreviation htmlPath context pn :=
  (path_join [Index.distDir context; JsString.stripTrailingSlash pn; "index.html"]).
Local Abbreviation build context set pn :=
  (Index.buildEntryFromHtml files parse querySelector innerHTML
     entryToSimpleMarkdown (htmlPath context pn) (Index.mainSelector set)
     (Index.ignoreSelectors set) (Js.default false (Index.onlyStructure set))).
Local Abbreviation warning context pn :=
  ("❌ File not found: " ++ htmlPath context pn).

Lemma entriesOf_explicit (context : Index.PluginContext) (set : Index.DocSet)
    (pns : list string) :
  Index.entriesOf path_join files parse querySelector innerHTML
    entryToSimpleMarkdown (Index.distDir context) set pns
  = List.flat_map
      (fun pn =>
         match files (htmlPath context pn) with
         | Some _ =>
             match build context set pn with
             | Ok entry => [entry]
             | Err _ => []
             end
         | None => []
         end)
      pns.
Proof.
  unfold Index.entriesOf. induction pns as [|pn pns IH]; [reflexivity|].
  simpl. rewrite IH. f_equal.
  unfold Index.tryPage, Index.htmlPathOf.
  destruct (files (htmlPath context pn)); [|reflexivity].
  now destruct (build context set pn).
Qed.

Lemma warnings_explicit (context : Index.PluginContext) (set : Index.DocSet)
    (pns : list string) :
  List.map (Index.notFoundMessage path_join (Index.distDir context))
    (List.filter
       (Index.pageFails path_join files parse querySelector innerHTML
          entryToSimpleMarkdown (Index.distDir context) set)
       pns)
  = List.flat_map
      (fun pn =>
         match files (htmlPath context pn) with
         | Some _ =>
             match build context set pn with
             | Ok _ => []
             | Err _ => [warning context pn]
             end
         | None => [warning context pn]
         end)
      pns.
Proof.
  induction pns as [|pn pns IH]; [reflexivity|].
  cbn [List.filter List.flat_map]. rewrite <- IH. clear IH.
  assert (Hpn : Index.pageFails path_join files parse querySelector innerHTML
                  entryToSimpleMarkdown (Index.distDir context) set pn
                = match files (htmlPath context pn) with
                  | Some _ =>
                      match build context set pn with
                      | Ok _ => false
                      | Err _ => true
                      end
                  | None => true
                  end).
  { unfold Index.pageFails, Index.tryPage, Index.htmlPathOf.
    destruct (files (htmlPath context pn)); [|reflexivity].
    now destruct (build context set pn). }
  rewrite Hpn.
  destruct (files (htmlPath context pn)); [|reflexivity].
  now destruct (build context set pn).
Qed.

Lemma build_with_main (context : Index.PluginContext) (set : Index.DocSet)
    (pn html : string) (place : list nat) (main : Dom.node) (markdown : string) :
  files (htmlPath context pn) = Some html ->
  querySelector (Js.default "main" (Index.mainSelector set)) (parse html)
  = Some place ->
  Dom.nodeAt place (parse html) = Some main ->
  entryToSimpleMarkdown
    (JsString.trim (innerHTML (snd (Index.extractTitle main))))
    ("h1" :: "footer" :: "header" :: Js.default [] (Index.ignoreSelectors set))
    (Js.default false (Index.onlyStructure set)) = Ok markdown ->
  exists entry, build context set pn = Ok entry.
Proof.
  intros Hfile Hmain Hnode Hmd. unfold Index.buildEntryFromHtml.
  rewrite Hfile, Hmain, Hnode.
  destruct (Index.extractTitle main) as [t m]. cbn [snd] in Hmd.
  rewrite Hmd. now eexists.
Qed.

Lemma build_without_main (context : Index.PluginContext) (set : Index.DocSet)
    (pn html : string) :
  files (htmlPath context pn) = Some html ->
  querySelector (Js.default "main" (Index.mainSelector set)) (parse html) = None ->
  build context set pn
  = Err ("Missing main selector <" ++ Js.default "main" (Index.mainSelector set)
         ++ ">").
Proof.
  intros Hfile Hmain. unfold Index.buildEntryFromHtml.
  now rewrite Hfile, Hmain.
Qed.

(** C5: processDocSet always produces its artifact. Its entries are the
    entries that buildEntryFromHtml returns for the sorted pages whose file
    can be read, one per page and in sorted order; every other selected
    page, one whose file cannot be read or whose document has no element
    for the main selector among them, is skipped and leaves one warning,
    the text File not found followed by the path of its html file, which
    contains the path of the page wherever path.join keeps that path as it
    is. The pages after a failing page are processed all the same, a page
    that can be read and has its main element gets its entry, and entries
    and warnings together are as many as the selected pages. *)
Theorem failed_pages_are_skipped (context : Index.PluginContext)
    (set : Index.DocSet) :
  let selected := Index.selectMatches isMatch (Index.pages context) set in
  exists out,
    Index.processDocSet isMatch compare path_join files parse querySelector
      innerHTML entryToSimpleMarkdown context set = Some out /\
    Permutation selected (Index.sorted out) /\
    Index.entries out
    = List.flat_map
        (fun pn =>
           match files (htmlPath context pn) with
           | Some _ =>
               match build context set pn with
               | Ok entry => [entry]
               | Err _ => []
               end
           | None => []
           end)
        (Index.sorted out) /\
    Index.errors out
    = List.flat_map
        (fun pn =>
           match files (htmlPath context pn) with
           | Some _ =>
               match build context set pn with
               | Ok _ => []
               | Err _ => [warning context pn]
               end
           | None => [warning context pn]
           end)
        (Index.sorted out) /\
    (List.length (Index.entries out) + List.length (Index.errors out))%nat
    = List.length selected /\
    Index.content out
    = "<SYSTEM>" ++ Index.description set ++ "</SYSTEM>"
      ++ JsString.nl ++ JsString.nl
      ++ Js.join (Index.pageSeparator context) (Index.entries out) /\
    (forall pn html place main markdown,
       In pn selected ->
       files (htmlPath context pn) = Some html ->
       querySelector (Js.default "main" (Index.mainSelector set)) (parse html)
       = Some place ->
       Dom.nodeAt place (parse html) = Some main ->
       entryToSimpleMarkdown
         (JsString.trim (innerHTML (snd (Index.extractTitle main))))
         ("h1" :: "footer" :: "header" :: Js.default [] (Index.ignoreSelectors set))
         (Js.default false (Index.onlyStructure set)) = Ok markdown ->
       exists entry,
         build context set pn = Ok entry /\ In entry (Index.entries out)) /\
    (forall pn,
       In pn selected ->
       files (htmlPath context pn) = None ->
       In (warning context pn) (Index.errors out)) /\
    (forall pn html,
       In pn selected ->
       files (htmlPath context pn) = Some html ->
       querySelector (Js.default "main" (Index.mainSelector set)) (parse html)
       = None ->
       (exists message, build context set pn = Err message) /\
       In (warning context pn) (Index.errors out)) /\
    (forall pn before after,
       htmlPath context pn = before ++ JsString.stripTrailingSlash pn ++ after ->
       warning context pn
       = ("❌ File not found: " ++ before)
         ++ JsString.stripTrailingSlash pn ++ after).
Proof.
  intros selected.
  destruct (processDocSet_sorted isMatch compare path_join files parse
              querySelector innerHTML entryToSimpleMarkdown context set)
    as [out [Hrun [Hsort Hperm]]].
  exists out. split; [exact Hrun|]. split; [exact Hperm|].
  unfold Index.processDocSet in Hrun. rewrite Hsort in Hrun.
  rewrite loop_result in Hrun. simpl in Hrun.
  injection Hrun as Hout.
  pose proof (f_equal Index.entries Hout) as He.
  pose proof (f_equal Index.errors Hout) as Hr.
  pose proof (f_equal Index.content Hout) as Hc.
  simpl in He, Hr, Hc. clear Hout.
  rewrite entriesOf_explicit in He. rewrite warnings_explicit in Hr.
  split; [now rewrite <- He|]. split; [now rewrite <- Hr|]. split.
  - rewrite <- He, <- Hr, <- entriesOf_explicit, <- warnings_explicit, length_map.
    rewrite (entries_and_failures path_join files parse querySelector
               innerHTML entryToSimpleMarkdown).
    symmetry. apply (Permutation_length Hperm).
  - split; [rewrite <- Hc, <- He, <- entriesOf_explicit; reflexivity|].
    split; [|split; [|split]].
    + intros pn html place main markdown Hsel Hfile Hmain Hnode Hmd.
      destruct (build_with_main context set pn html place main markdown
                  Hfile Hmain Hnode Hmd) as [entry Hentry].
      exists entry. split; [exact Hentry|].
      rewrite <- He. apply in_flat_map. exists pn.
      split; [exact (Permutation_in _ Hperm Hsel)|].
      rewrite Hfile, Hentry. now left.
    + intros pn Hsel Hfile. rewrite <- Hr. apply in_flat_map. exists pn.
      split; [exact (Permutation_in _ Hperm Hsel)|].
      rewrite Hfile. now left.
    + intros pn html Hsel Hfile Hmain.
      pose proof (build_without_main context set pn html Hfile Hmain) as Herr.
      split; [eexists; exact Herr|].
      rewrite <- Hr. apply in_flat_map. exists pn.
      split; [exact (Permutation_in _ Hperm Hsel)|].
      rewrite Hfile, Herr. now left.
    + intros pn before after Hpath. rewrite Hpath.
      now rewrite string_app_assoc_early.
Qed.

End SkipAndContinue.

Lemma failed_pages_are_skipped_witness :
  exists out,
    Example.run (Example.docSet None None) = Some out /\
    In ("# Alpha" ++ JsString.nl ++ JsString.nl ++ "<p>first</p>")
       (Index.entries out) /\
    In "❌ File not found: dist/delta/index.html" (Index.errors out) /\
    In "❌ File not found: dist/gamma/index.html" (Index.errors out).
Proof.
  destruct (failed_pages_are_skipped Priority.literalMatch
              Collation.codeUnitCompare Example.path_join Example.files
              Example.parse Example.querySelector Example.innerHTML
              Example.entryToSimpleMarkdown Example.context
              (Example.docSet None None))
    as [out [Hrun [_ [_ [_ [_ [_ [Hok [Hfile [Hmain _]]]]]]]]]].
  exists out. split; [exact Hrun|]. split; [|split].
  - assert (Hsel : In "alpha/"
                      (Index.selectMatches Priority.literalMatch
                         (Index.pages Example.context)
                         (Example.docSet None None)))
      by (left; reflexivity).
    destruct (Hok "alpha/" "alpha" [0; 1; 0]%nat
                (Dom.Element "main" []
                   [Example.heading "Alpha"; Example.paragraph "first"])
                "<p>first</p>" Hsel eq_refl eq_refl eq_refl eq_refl)
      as [entry [Hentry Hin]].
    vm_compute in Hentry. injection Hentry as <-. exact Hin.
  - assert (Hsel : In "delta/"
                      (Index.selectMatches Priority.literalMatch
                         (Index.pages Example.context)
                         (Example.docSet None None)))
      by (right; right; right; left; reflexivity).
    exact (Hfile "delta/" Hsel eq_refl).
  - assert (Hsel : In "gamma/"
                      (Index.selectMatches Priority.literalMatch
                         (Index.pages Example.context)
                         (Example.docSet None None)))
      by (right; right; left; reflexivity).
    exact (proj2 (Hmain "gamma/" "gamma" Hsel eq_refl eq_refl)).
Defined.

(** ** The first heading of the main element *)

Lemma dom_node_ind (P : Dom.node -> Prop) :
  (forall localName attributes childNodes,
     Forall P childNodes -> P (Dom.Element localName attributes childNodes)) ->
  (forall data, P (Dom.Text data)) ->
  (forall data, P (Dom.Comment data)) ->
  forall n, P n.
Proof.
  intros Helement Htext Hcomment. fix IH 1. intros [localName attributes childNodes|data|data].
  - apply Helement. induction childNodes as [|c rest IHrest].
    + constructor.
    + constructor; [apply IH|exact IHrest].
  - apply Htext.
  - apply Hcomment.
Qed.

Section FirstNamed.

Variable name : string.

Local Abbreviation closed ts := (Forall (fun t => Dom.opens name t = false) ts).

Lemma search_among (siblings : list Dom.node) :
  Forall (Dom.search_ok name) siblings ->
  match Dom.firstIn (Dom.findNamed name) siblings with
  | Some h =>
      Dom.isElementNamed name h = true /\
      exists pre post siblings',
        List.flat_map Dom.tokens siblings = (pre ++ Dom.tokens h ++ post)%list /\
        closed pre /\
        Dom.removeFirstIn (Dom.isElementNamed name) (Dom.removeNamed name) siblings
        = Some siblings' /\
        List.flat_map Dom.tokens siblings' = (pre ++ post)%list
  | None =>
      closed (List.flat_map Dom.tokens siblings) /\
      Dom.removeFirstIn (Dom.isElementNamed name) (Dom.removeNamed name) siblings
      = None
  end.
Proof.
  induction siblings as [|c rest IH]; intros Hall.
  - simpl. split; [constructor|reflexivity].
  - inversion Hall as [|? ? Hc Hrest]; subst. specialize (IH Hrest).
    simpl. unfold Dom.search_ok in Hc.
    destruct (Dom.findNamed name c) as [h|].
    + destruct Hc as [Hh [[Hn ->]|[Hn [pre [post [c' [Ht [Hpre [Hr Ht']]]]]]]]].
      * split; [exact Hh|]. exists [], (List.flat_map Dom.tokens rest), rest.
        rewrite Hn. repeat split. constructor.
      * split; [exact Hh|].
        exists pre, (post ++ List.flat_map Dom.tokens rest)%list, (c' :: rest).
        rewrite Hn, Hr. simpl. rewrite Ht, Ht', <- !app_assoc.
        repeat split. exact Hpre.
    + destruct Hc as [Hn [Hclosed Hr]]. rewrite Hn, Hr.
      destruct (Dom.firstIn (Dom.findNamed name) rest) as [h|].
      * destruct IH as [Hh [pre [post [rest' [Ht [Hpre [Hrm Ht']]]]]]].
        split; [exact Hh|].
        exists (Dom.tokens c ++ pre)%list, post, (c :: rest').
        rewrite Hrm. simpl. rewrite Ht, Ht', <- !app_assoc.
        repeat split. apply Forall_app. now split.
      * destruct IH as [Hclosed' Hrm]. rewrite Hrm.
        split; [|reflexivity]. apply Forall_app. now split.
Qed.

Lemma search_ok_all (n : Dom.node) : Dom.search_ok name n.
Proof.
  induction n as [localName attributes childNodes IH|data|data] using dom_node_ind.
  - unfold Dom.search_ok. simpl.
    destruct (String.eqb localName name) eqn:E.
    + split; [simpl; exact E|]. left. split; [simpl; exact E|reflexivity].
    + pose proof (search_among childNodes IH) as H.
      destruct (Dom.firstIn (Dom.findNamed name) childNodes) as [h|].
      * destruct H as [Hh [pre [post [childNodes' [Ht [Hpre [Hrm Ht']]]]]]].
        split; [exact Hh|]. right. split; [simpl; exact E|].
        exists (Dom.Open localName attributes :: pre),
               (post ++ [Dom.Close localName])%list,
               (Dom.Element localName attributes childNodes').
        simpl. rewrite Hrm, Ht, Ht', <- !app_assoc. repeat split.
        constructor; [simpl; exact E|exact Hpre].
      * destruct H as [Hclosed Hrm]. split; [simpl; exact E|]. split.
        -- simpl. constructor; [simpl; exact E|].
           apply Forall_app. split; [exact Hclosed|]. now constructor.
        -- simpl. now rewrite Hrm.
  - unfold Dom.search_ok. simpl. repeat split. now constructor.
  - unfold Dom.search_ok. simpl. repeat split. now constructor.
Qed.

(** [querySelector] for a type selector finds the first element of that
    name in the content, and [remove] cuts exactly its markup out. *)
Lemma querySelectorNamed_spec (element : Dom.node) :
  match Dom.querySelectorNamed name element with
  | Some h =>
      Dom.isElementNamed name h = true /\
      exists pre post element',
        Dom.innerTokens element = (pre ++ Dom.tokens h ++ post)%list /\
        closed pre /\
        Dom.removeNamed name element = Some element' /\
        Dom.innerTokens element' = (pre ++ post)%list
  | None =>
      closed (Dom.innerTokens element) /\ Dom.removeNamed name element = None
  end.
Proof.
  destruct element as [localName attributes childNodes|data|data]; simpl.
  - assert (Hall : Forall (Dom.search_ok name) childNodes).
    { apply Forall_forall. intros c _. apply search_ok_all. }
    pose proof (search_among childNodes Hall) as H.
    destruct (Dom.firstIn (Dom.findNamed name) childNodes) as [h|].
    + destruct H as [Hh [pre [post [childNodes' [Ht [Hpre [Hrm Ht']]]]]]].
      split; [exact Hh|].
      exists pre, post, (Dom.Element localName attributes childNodes').
      rewrite Hrm. now repeat split.
    + destruct H as [Hclosed Hrm]. rewrite Hrm. now split.
  - split; [constructor|reflexivity].
  - split; [constructor|reflexivity].
Qed.

End FirstNamed.

Lemma string_app_assoc (a b c : string) : (a ++ b) ++ c = a ++ b ++ c.
Proof. induction a as [|x a IH]; simpl; [reflexivity|now rewrite IH]. Qed.

Lemma string_app_nil_r (a : string) : a ++ "" = a.
Proof. induction a as [|x a IH]; simpl; [reflexivity|now rewrite IH]. Qed.

Lemma string_app_length (a b : string) :
  String.length (a ++ b) = (String.length a + String.length b)%nat.
Proof. induction a as [|x a IH]; simpl; [reflexivity|now rewrite IH]. Qed.

Lemma startsWith_spec (prefix s rest : string) :
  JsString.startsWith prefix s = Some rest <-> s = prefix ++ rest.
Proof.
  revert s. induction prefix as [|a prefix IH]; intros s; simpl.
  - split; [now intros [= ->]|now intros ->].
  - destruct s as [|b s].
    + split; discriminate.
    + destruct (Ascii.eqb a b) eqn:E.
      * apply Ascii.eqb_eq in E. subst b. rewrite IH.
        split; [now intros ->|now intros [= ->]].
      * split; [discriminate|].
        intros [= -> _]. now rewrite Ascii.eqb_refl in E.
Qed.

Lemma afterAny_some (table : list string) (s rest : string) :
  JsString.afterAny table s = Some rest ->
  exists e, In e table /\ s = e ++ rest.
Proof.
  induction table as [|e table IH]; simpl; [discriminate|].
  destruct (JsString.startsWith e s) as [r|] eqn:E.
  - intros [= ->]. exists e. split; [now left|now apply startsWith_spec].
  - intros H. destruct (IH H) as [e' [He' Hs]]. exists e'. split; [now right|exact Hs].
Qed.

(** Every white-space code point is found at the start of a string that
    starts with its encoding, and what is left is the rest of the string. *)
Lemma afterWhiteSpace_encoding (e rest : string) :
  In e JsString.whiteSpace -> JsString.afterWhiteSpace (e ++ rest) = Some rest.
Proof.
  unfold JsString.whiteSpace. simpl.
  intros H. repeat (destruct H as [<-|H]; [reflexivity|]). destruct H.
Qed.

Lemma whiteSpace_nonempty (e : string) :
  In e JsString.whiteSpace -> (0 < String.length e)%nat.
Proof.
  unfold JsString.whiteSpace. simpl.
  intros H. repeat (destruct H as [<-|H]; [simpl; lia|]). destruct H.
Qed.

Lemma afterWhiteSpace_some (s rest : string) :
  JsString.afterWhiteSpace s = Some rest ->
  exists e, In e JsString.whiteSpace /\ s = e ++ rest /\
            (String.length rest < String.length s)%nat.
Proof.
  intros H. destruct (afterAny_some _ _ _ H) as [e [He Hs]].
  exists e. split; [exact He|]. split; [exact Hs|].
  subst s. rewrite string_app_length.
  pose proof (whiteSpace_nonempty e He). lia.
Qed.

Lemma trimStartFuel_enough (fuel : nat) (s : string) :
  (String.length s <= fuel)%nat ->
  JsString.trimStartFuel fuel s = JsString.trimStart s.
Proof.
  unfold JsString.trimStart.
  remember (String.length s) as n eqn:En. revert fuel s En.
  induction n as [n IH] using lt_wf_ind. intros fuel s En Hle.
  destruct fuel as [|fuel].
  - assert (n = 0)%nat as -> by lia. reflexivity.
  - destruct n as [|n].
    + destruct s; [reflexivity|discriminate En].
    + simpl. destruct (JsString.afterWhiteSpace s) as [rest|] eqn:E;
        [|reflexivity].
      destruct (afterWhiteSpace_some s rest E) as [_ [_ [_ Hlt]]].
      rewrite (IH (String.length rest)); [|lia|reflexivity|lia].
      rewrite (IH (String.length rest) ltac:(lia) n rest eq_refl ltac:(lia)).
      reflexivity.
Qed.

Lemma trimStart_step (s rest : string) :
  JsString.afterWhiteSpace s = Some rest ->
  JsString.trimStart s = JsString.trimStart rest.
Proof.
  intros H. destruct (afterWhiteSpace_some s rest H) as [_ [_ [_ Hlt]]].
  unfold JsString.trimStart at 1.
  destruct (String.length s) as [|n] eqn:En; [lia|].
  simpl. rewrite H. apply trimStartFuel_enough. lia.
Qed.

Lemma trimStart_done (s : string) :
  JsString.afterWhiteSpace s = None -> JsString.trimStart s = s.
Proof.
  intros H. unfold JsString.trimStart.
  destruct (String.length s); simpl; [reflexivity|now rewrite H].
Qed.

Lemma isBlank_encoding (e rest : string) :
  In e JsString.whiteSpace -> JsString.isBlank rest = true ->
  JsString.isBlank (e ++ rest) = true.
Proof.
  intros He Hrest. unfold JsString.isBlank in *.
  now rewrite (trimStart_step _ rest (afterWhiteSpace_encoding e rest He)).
Qed.

(** What [trimStart] takes off is white space, and what it leaves does not
    start with white space. *)
Lemma trimStart_spec (s : string) :
  JsString.afterWhiteSpace (JsString.trimStart s) = None /\
  exists pre, s = pre ++ JsString.trimStart s /\ JsString.isBlank pre = true.
Proof.
  remember (String.length s) as n eqn:En. revert s En.
  induction n as [n IH] using lt_wf_ind. intros s En.
  destruct (JsString.afterWhiteSpace s) as [rest|] eqn:E.
  - destruct (afterWhiteSpace_some s rest E) as [e [He [Hs Hlt]]].
    rewrite (trimStart_step s rest E).
    destruct (IH (String.length rest) ltac:(lia) rest eq_refl)
      as [Hnone [pre [Hrest Hpre]]].
    split; [exact Hnone|]. exists (e ++ pre). split.
    + rewrite string_app_assoc, <- Hrest. exact Hs.
    + now apply isBlank_encoding.
  - rewrite (trimStart_done s E). split; [exact E|].
    exists "". split; reflexivity.
Qed.

Lemma trimStart_blank (s : string) :
  JsString.isBlank s = true -> JsString.trimStart s = "".
Proof.
  unfold JsString.isBlank. apply String.eqb_eq.
Qed.

Lemma trim_blank (s : string) :
  JsString.isBlank s = true -> JsString.trim s = "".
Proof.
  intros H. unfold JsString.trim. now rewrite trimStart_blank.
Qed.

Lemma extractTitle_spec (main : Dom.node) :
  let title := fst (Index.extractTitle main) in
  let main' := snd (Index.extractTitle main) in
  match Dom.querySelectorNamed "h1" main with
  | Some h =>
      title = JsString.trim (Dom.textContent h) /\
      Dom.isElementNamed "h1" h = true /\
      exists pre post,
        Dom.innerTokens main = (pre ++ Dom.tokens h ++ post)%list /\
        Forall (fun t => Dom.opens "h1" t = false) pre /\
        Dom.innerTokens main' = (pre ++ post)%list
  | None =>
      title = "Untitled" /\ main' = main /\
      Forall (fun t => Dom.opens "h1" t = false) (Dom.innerTokens main)
  end.
Proof.
  unfold Index.extractTitle.
  pose proof (querySelectorNamed_spec "h1" main) as H.
  destruct (Dom.querySelectorNamed "h1" main) as [h|]; cbn [fst snd].
  - destruct H as [Hh [pre [post [main' [Ht [Hpre [Hrm Ht']]]]]]].
    split; [reflexivity|]. split; [exact Hh|].
    exists pre, post. rewrite Hrm. now repeat split.
  - destruct H as [Hclosed _]. now repeat split.
Qed.

Lemma named_element_opens (name : string) (h : Dom.node) :
  Dom.isElementNamed name h = true ->
  exists t rest, Dom.tokens h = t :: rest /\ Dom.opens name t = true.
Proof.
  destruct h as [localName attributes childNodes|data|data]; simpl;
    try discriminate.
  intros H. eexists. eexists. split; [reflexivity|exact H].
Qed.

Section Title.

Variable files : string -> option string.
Variable parse : string -> Dom.document.
Variable querySelector : string -> Dom.document -> option (list nat).
Variable innerHTML : Dom.node -> string.
Variable entryToSimpleMarkdown : string -> list string -> bool -> Result string.

(** C8: for a page whose main element is found, the title is the trimmed
    text of the first h1 inside the main element; the content handed to the
    flattener is the content of the main element with the markup of that
    heading cut out, so the heading is not part of the body; without an h1
    the title is "Untitled" and the content is unchanged. The entry starts
    with the title line and ends with the flattened body. *)
Theorem title_from_first_heading (htmlPath : string)
    (mainSelector : option string) (ignoreSelectors : option (list string))
    (onlyStructure : bool) (html : string) (place : list nat) (main : Dom.node) :
  files htmlPath = Some html ->
  querySelector (Js.default "main" mainSelector) (parse html) = Some place ->
  Dom.nodeAt place (parse html) = Some main ->
  let title := fst (Index.extractTitle main) in
  let main' := snd (Index.extractTitle main) in
  match Dom.querySelectorNamed "h1" main with
  | Some h =>
      title = JsString.trim (Dom.textContent h) /\
      Dom.isElementNamed "h1" h = true /\
      exists pre post,
        Dom.innerTokens main = (pre ++ Dom.tokens h ++ post)%list /\
        Forall (fun t => Dom.opens "h1" t = false) pre /\
        Dom.innerTokens main' = (pre ++ post)%list
  | None =>
      title = "Untitled" /\ main' = main /\
      Forall (fun t => Dom.opens "h1" t = false) (Dom.innerTokens main)
  end /\
  (forall markdown,
     entryToSimpleMarkdown (JsString.trim (innerHTML main'))
       ("h1" :: "footer" :: "header" :: Js.default [] ignoreSelectors)
       onlyStructure = Ok markdown ->
     exists description,
       Index.buildEntryFromHtml files parse querySelector innerHTML
         entryToSimpleMarkdown htmlPath mainSelector ignoreSelectors
         onlyStructure
       = Ok (Js.join (JsString.nl ++ JsString.nl)
               (("# " ++ title) :: List.app description [JsString.trim markdown]))).
Proof.
  intros Hfile Hmain Hnode title main'. split.
  - apply extractTitle_spec.
  - intros markdown Hmd. unfold Index.buildEntryFromHtml.
    rewrite Hfile, Hmain, Hnode.
    subst title main'. destruct (Index.extractTitle main) as [t m].
    cbn [fst snd] in *. rewrite Hmd.
    eexists. reflexivity.
Qed.

End Title.

Lemma title_from_first_heading_witness :
  Example.files "dist/alpha/index.html" = Some "alpha" /\
  Example.querySelector "main" (Example.parse "alpha") = Some [0; 1; 0]%nat /\
  fst (Index.extractTitle
         (Dom.Element "main" []
            [Example.heading "Alpha"; Example.paragraph "first"]))
  = "Alpha" /\
  exists description,
    Index.buildEntryFromHtml Example.files Example.parse Example.querySelector
      Example.innerHTML Example.entryToSimpleMarkdown
      "dist/alpha/index.html" None None false
    = Ok (Js.join (JsString.nl ++ JsString.nl)
            ("# Alpha" :: List.app description ["<p>first</p>"])).
Proof.
  destruct (title_from_first_heading Example.files Example.parse
              Example.querySelector Example.innerHTML
              Example.entryToSimpleMarkdown
              "dist/alpha/index.html" None None false "alpha" [0; 1; 0]%nat
              (Dom.Element "main" []
                 [Example.heading "Alpha"; Example.paragraph "first"])
              eq_refl eq_refl eq_refl) as [Htitle Hentry].
  split; [reflexivity|]. split; [reflexivity|]. split.
  - simpl in Htitle. destruct Htitle as [Ht _]. exact Ht.
  - apply (Hentry "<p>first</p>"). reflexivity.
Defined.

Lemma findNamed_inside (name : string) (n h : Dom.node) :
  Dom.findNamed name n = Some h -> In h (Heading.selfAndBelow n).
Proof.
  revert h.
  induction n as [localName attributes childNodes IH|data|data]
    using dom_node_ind; intros h; simpl; try discriminate.
  destruct (String.eqb localName name).
  - intros [= <-]. now left.
  - intros H. right. induction IH as [|c rest Hc _ IHrest]; [discriminate H|].
    simpl in H. simpl. apply in_or_app.
    destruct (Dom.findNamed name c) as [hit|].
    + injection H as ->. left. now apply Hc.
    + right. now apply IHrest.
Qed.

Lemma querySelectorNamed_inside (name : string) (element h : Dom.node) :
  Dom.querySelectorNamed name element = Some h -> In h (Heading.inside element).
Proof.
  destruct element as [localName attributes childNodes|data|data]; simpl;
    try discriminate.
  induction childNodes as [|c rest IH]; simpl; [discriminate|].
  intros H. apply in_or_app.
  destruct (Dom.findNamed name c) as [hit|] eqn:E.
  - injection H as ->. left. now apply (findNamed_inside name).
  - right. now apply IH.
Qed.

Lemma findNamed_none (name : string) (n : Dom.node) :
  Dom.findNamed name n = None ->
  forall m, In m (Heading.selfAndBelow n) -> Dom.isElementNamed name m = false.
Proof.
  induction n as [localName attributes childNodes IH|data|data]
    using dom_node_ind; simpl; intros H m Hm;
    try (destruct Hm as [<-|[]]; reflexivity).
  destruct (String.eqb localName name) eqn:E; [discriminate H|].
  destruct Hm as [<-|Hm]; [exact E|].
  induction IH as [|c rest Hc _ IHrest]; [destruct Hm|].
  simpl in H, Hm. apply in_app_or in Hm.
  destruct (Dom.findNamed name c) as [hit|] eqn:Ec; [discriminate H|].
  destruct Hm as [Hm|Hm]; [now apply Hc|now apply IHrest].
Qed.

Lemma querySelectorNamed_none (name : string) (element : Dom.node) :
  Dom.querySelectorNamed name element = None ->
  forall m, In m (Heading.inside element) -> Dom.isElementNamed name m = false.
Proof.
  destruct element as [localName attributes childNodes|data|data]; simpl;
    try (intros _ m []).
  induction childNodes as [|c rest IH]; simpl; [intros _ m []|].
  intros H m Hm. apply in_app_or in Hm.
  destruct (Dom.findNamed name c) as [hit|] eqn:E; [discriminate H|].
  destruct Hm as [Hm|Hm]; [now apply (findNamed_none name c E)|now apply IH].
Qed.

(** C10 (as amended): when the first h1 inside the main element, the one
    the title is taken from, has no text, or white space only, the title is
    the empty string and not "Untitled"; whatever its text, the title is
    that text trimmed. That h1 is an element inside the main element before
    which no other h1 starts. The title falls back to "Untitled" exactly
    when the main element contains no h1 at all. *)
Theorem blank_heading_gives_empty_title (main : Dom.node) :
  let title := fst (Index.extractTitle main) in
  (forall h,
     Dom.querySelectorNamed "h1" main = Some h ->
     JsString.isBlank (Dom.textContent h) = true ->
     title = "" /\ title <> "Untitled") /\
  (forall h,
     Dom.querySelectorNamed "h1" main = Some h ->
     title = JsString.trim (Dom.textContent h)) /\
  (Dom.querySelectorNamed "h1" main = None <->
   Forall (fun t => Dom.opens "h1" t = false) (Dom.innerTokens main)) /\
  (Forall (fun t => Dom.opens "h1" t = false) (Dom.innerTokens main) ->
   title = "Untitled") /\
  (forall h,
     Dom.querySelectorNamed "h1" main = Some h ->
     In h (Heading.inside main) /\
     Dom.isElementNamed "h1" h = true /\
     exists pre post,
       Dom.innerTokens main = (pre ++ Dom.tokens h ++ post)%list /\
       Forall (fun t => Dom.opens "h1" t = false) pre) /\
  (Dom.querySelectorNamed "h1" main = None <->
   forall m, In m (Heading.inside main) -> Dom.isElementNamed "h1" m = false) /\
  ((forall m, In m (Heading.inside main) -> Dom.isElementNamed "h1" m = false) ->
   title = "Untitled").
Proof.
  intros title. pose proof (extractTitle_spec main) as H. cbv zeta in H.
  fold title in H.
  assert (Hiff : Dom.querySelectorNamed "h1" main = None <->
                 Forall (fun t => Dom.opens "h1" t = false) (Dom.innerTokens main)).
  { destruct (Dom.querySelectorNamed "h1" main) as [h|].
    - split; [discriminate|]. intros Hclosed. exfalso.
      destruct H as [_ [Hh [pre [post [Ht _]]]]].
      destruct (named_element_opens "h1" h Hh) as [t [rest [Hts Hopen]]].
      rewrite Ht, Hts in Hclosed. rewrite Forall_forall in Hclosed.
      assert (Dom.opens "h1" t = false) as Hno.
      { apply Hclosed. apply in_or_app. right. now left. }
      congruence.
    - split; [intros _|reflexivity]. now destruct H as [_ [_ Hclosed]]. }
  assert (Hnodes : Dom.querySelectorNamed "h1" main = None <->
                   forall m, In m (Heading.inside main) ->
                             Dom.isElementNamed "h1" m = false).
  { split; [apply querySelectorNamed_none|].
    intros Hnone. destruct (Dom.querySelectorNamed "h1" main) as [h|] eqn:Eq;
      [|reflexivity].
    destruct H as [_ [Hh _]].
    rewrite (Hnone h (querySelectorNamed_inside "h1" main h Eq)) in Hh.
    discriminate Hh. }
  split; [|split; [|split; [|split; [|split; [|split]]]]].
  - intros h Hq Hblank. rewrite Hq in H. destruct H as [Ht _].
    rewrite Ht, (trim_blank _ Hblank). split; [reflexivity|discriminate].
  - intros h Hq. rewrite Hq in H. now destruct H as [Ht _].
  - exact Hiff.
  - intros Hclosed. apply Hiff in Hclosed. rewrite Hclosed in H.
    now destruct H as [Ht _].
  - intros h Hq. split; [exact (querySelectorNamed_inside "h1" main h Hq)|].
    rewrite Hq in H. destruct H as [_ [Hh [pre [post [Ht [Hpre _]]]]]].
    split; [exact Hh|]. now exists pre, post.
  - exact Hnodes.
  - intros Hnone. apply Hnodes in Hnone. rewrite Hnone in H.
    now destruct H as [Ht _].
Qed.

Lemma blank_heading_gives_empty_title_witness :
  Dom.querySelectorNamed "h1" Sample.blankHeading
  = Some (Example.heading Sample.blankText) /\
  JsString.isBlank (Dom.textContent (Example.heading Sample.blankText)) = true /\
  fst (Index.extractTitle Sample.blankHeading) = "".
Proof.
  split; [reflexivity|]. split; [reflexivity|].
  destruct (blank_heading_gives_empty_title Sample.blankHeading)
    as [Hblank _].
  exact (proj1 (Hblank (Example.heading Sample.blankText) eq_refl eq_refl)).
Defined.

(** A blank h1 that comes after another h1 does not make the title empty:
    the title is taken from the first one. *)
Lemma later_blank_heading_keeps_title :
  ~ Heading.spec_blank_heading Sample.realThenBlank /\
  fst (Index.extractTitle Sample.realThenBlank) = "Real".
Proof.
  split; [|reflexivity].
  intros H.
  assert (Hin : In (Example.heading "  ") (Heading.inside Sample.realThenBlank)).
  { simpl. right. right. left. reflexivity. }
  specialize (H (Example.heading "  ") Hin eq_refl eq_refl).
  vm_compute in H. discriminate H.
Qed.

(** ** The accessibility transformer *)

Lemma hast_node_ind (P : Hast.node -> Prop) :
  (forall tagName properties children,
     Forall P children -> P (Hast.Element tagName properties children)) ->
  (forall content, P (Hast.Text content)) ->
  (forall content, P (Hast.Comment content)) ->
  P Hast.Doctype ->
  forall n, P n.
Proof.
  intros Helement Htext Hcomment Hdoctype. fix IH 1.
  intros [tagName properties children|content|content|].
  - apply Helement. induction children as [|c rest IHrest].
    + constructor.
    + constructor; [apply IH|exact IHrest].
  - apply Htext.
  - apply Hcomment.
  - exact Hdoctype.
Qed.

Section RemoveFacts.

Variable test : Hast.node -> bool.
Hypothesis test_own : Hast.ownPropertiesTest test.

Local Abbreviation passes_none := (Hast.allNodes (fun n => negb (test n))).

Lemma living_all (f : Hast.node -> bool) (children : list Hast.node) :
  Forall (fun c => forall c', Hast.preorder test c = Some c' ->
                              Hast.allNodes f c' = true) children ->
  forallb (Hast.allNodes f) (Hast.living (Hast.preorder test) children) = true.
Proof.
  induction 1 as [|c rest Hc _ IH]; simpl; [reflexivity|].
  destruct (Hast.preorder test c) as [c'|] eqn:E; [|exact IH].
  simpl. now rewrite (Hc c' eq_refl), IH.
Qed.

(** What [remove] keeps does not pass its test. *)
Lemma preorder_clean (n n' : Hast.node) :
  Hast.preorder test n = Some n' -> passes_none n' = true.
Proof.
  revert n'.
  induction n as [tagName properties children IH|content|content|]
    using hast_node_ind; intros n' H; simpl in H.
  - destruct (test (Hast.Element tagName properties children)) eqn:Et;
      [discriminate|].
    destruct children as [|c rest].
    + injection H as <-. simpl. now rewrite Et.
    + destruct (Hast.living (Hast.preorder test) (c :: rest)) as [|k kept] eqn:Ek;
        [discriminate|].
      injection H as <-. cbn [Hast.allNodes].
      rewrite (proj1 test_own tagName properties (k :: kept) (c :: rest)), Et.
      rewrite <- Ek. cbn [negb andb]. now apply living_all.
  - destruct (test (Hast.Text content)); [discriminate|].
    injection H as <-. simpl.
    now rewrite (proj2 test_own content).
  - destruct (test (Hast.Comment content)) eqn:Et; [discriminate|].
    injection H as <-. simpl. now rewrite Et.
  - destruct (test Hast.Doctype) eqn:Et; [discriminate|].
    injection H as <-. simpl. now rewrite Et.
Qed.

Lemma living_clean_id (children : list Hast.node) :
  Forall (fun c => passes_none c = true -> Hast.preorder test c = Some c)
         children ->
  forallb passes_none children = true ->
  Hast.living (Hast.preorder test) children = children.
Proof.
  induction 1 as [|c rest Hc _ IH]; simpl; [reflexivity|].
  intros H. apply andb_true_iff in H. destruct H as [H1 H2].
  now rewrite (Hc H1), (IH H2).
Qed.

(** Where nothing passes the test, [remove] changes nothing. *)
Lemma preorder_clean_id (n : Hast.node) :
  passes_none n = true -> Hast.preorder test n = Some n.
Proof.
  induction n as [tagName properties children IH|content|content|]
    using hast_node_ind; intros H; simpl in H; apply andb_true_iff in H;
    destruct H as [Ht Hrest]; apply negb_true_iff in Ht; simpl; rewrite Ht;
    try reflexivity.
  destruct children as [|c rest]; [reflexivity|].
  now rewrite (living_clean_id (c :: rest) IH Hrest).
Qed.

Variable other : Hast.node -> bool.
Hypothesis other_own : Hast.ownPropertiesTest other.

Local Abbreviation other_none := (Hast.allNodes (fun n => negb (other n))).

(** [remove] with this test keeps a tree free of what another test rejects. *)
Lemma preorder_keeps_clean (n n' : Hast.node) :
  other_none n = true -> Hast.preorder test n = Some n' -> other_none n' = true.
Proof.
  revert n'.
  induction n as [tagName properties children IH|content|content|]
    using hast_node_ind; intros n' Hc H; simpl in H;
    try (destruct (test _); [discriminate|]; now injection H as <-).
  destruct (test (Hast.Element tagName properties children)); [discriminate|].
  destruct children as [|c rest]; [now injection H as <-|].
  destruct (Hast.living (Hast.preorder test) (c :: rest)) as [|k kept] eqn:Ek;
    [discriminate|].
  injection H as <-. cbn [Hast.allNodes] in *.
  apply andb_true_iff in Hc. destruct Hc as [Ho Hall].
  rewrite (proj1 other_own tagName properties (k :: kept) (c :: rest)), Ho.
  rewrite <- Ek. cbn [negb andb]. clear Ek Ho.
  revert IH Hall. generalize (c :: rest). intros l IH Hall.
  induction IH as [|x l Hx _ IHl]; simpl in *; [reflexivity|].
  apply andb_true_iff in Hall. destruct Hall as [H1 H2].
  destruct (Hast.preorder test x) as [x'|] eqn:Ex; [|now apply IHl].
  simpl. now rewrite (Hx x' H1 eq_refl), (IHl H2).
Qed.

End RemoveFacts.

Section RemoveForest.

Variable test : Hast.node -> bool.
Hypothesis test_own : Hast.ownPropertiesTest test.

Lemma living_clean (children : list Hast.node) :
  forallb (Hast.allNodes (fun n => negb (test n)))
          (Hast.living (Hast.preorder test) children) = true.
Proof.
  apply living_all. apply Forall_forall. intros c _ c'.
  now apply preorder_clean.
Qed.

Lemma living_id (children : list Hast.node) :
  forallb (Hast.allNodes (fun n => negb (test n))) children = true ->
  Hast.living (Hast.preorder test) children = children.
Proof.
  apply living_clean_id. apply Forall_forall. intros c _.
  apply preorder_clean_id.
Qed.

Variable other : Hast.node -> bool.
Hypothesis other_own : Hast.ownPropertiesTest other.

Lemma living_keeps_clean (children : list Hast.node) :
  forallb (Hast.allNodes (fun n => negb (other n))) children = true ->
  forallb (Hast.allNodes (fun n => negb (other n)))
          (Hast.living (Hast.preorder test) children) = true.
Proof.
  induction children as [|c rest IH]; simpl; [reflexivity|].
  intros H. apply andb_true_iff in H. destruct H as [H1 H2].
  destruct (Hast.preorder test c) as [c'|] eqn:E; [|now apply IH].
  simpl. rewrite (preorder_keeps_clean test other other_own c c' H1 E).
  now apply IH.
Qed.

End RemoveForest.

Lemma isAriaHidden_own : Hast.ownPropertiesTest Hast.isAriaHidden.
Proof. split; reflexivity. Qed.

Lemma isDecorativeImage_own : Hast.ownPropertiesTest Hast.isDecorativeImage.
Proof. split; reflexivity. Qed.

Section Relabel.

Lemma relabel_idempotent (n : Hast.node) :
  Hast.relabel (Hast.relabel n) = Hast.relabel n.
Proof.
  induction n as [tagName properties children IH|content|content|]
    using hast_node_ind; try reflexivity.
  simpl.
  destruct (Hast.ariaLabelValue (Hast.Element tagName properties children))
    as [label|] eqn:E.
  - simpl.
    change (Hast.ariaLabelValue (Hast.Element tagName properties [Hast.Text label]))
      with (Hast.ariaLabelValue (Hast.Element tagName properties children)).
    now rewrite E.
  - simpl.
    change (Hast.ariaLabelValue
              (Hast.Element tagName properties (map Hast.relabel children)))
      with (Hast.ariaLabelValue (Hast.Element tagName properties children)).
    rewrite E. f_equal. rewrite map_map.
    apply map_ext_in. intros c Hc. rewrite Forall_forall in IH. now apply IH.
Qed.

Variable test : Hast.node -> bool.
Hypothesis test_own : Hast.ownPropertiesTest test.

Lemma relabel_keeps_clean (n : Hast.node) :
  Hast.allNodes (fun n => negb (test n)) n = true ->
  Hast.allNodes (fun n => negb (test n)) (Hast.relabel n) = true.
Proof.
  induction n as [tagName properties children IH|content|content|]
    using hast_node_ind; try (intros H; exact H).
  intros H. cbn [Hast.allNodes] in H. apply andb_true_iff in H.
  destruct H as [Ht Hall]. simpl.
  destruct (Hast.ariaLabelValue (Hast.Element tagName properties children))
    as [label|].
  - cbn [Hast.allNodes forallb].
    rewrite (proj1 test_own tagName properties [Hast.Text label] children), Ht.
    now rewrite (proj2 test_own label).
  - cbn [Hast.allNodes].
    rewrite (proj1 test_own tagName properties (map Hast.relabel children) children), Ht.
    cbn [andb]. rewrite forallb_forall in *. intros c' Hc'.
    apply in_map_iff in Hc'. destruct Hc' as [c [<- Hc]].
    rewrite Forall_forall in IH. apply IH; [exact Hc|]. now apply Hall.
Qed.

Lemma map_relabel_keeps_clean (children : list Hast.node) :
  forallb (Hast.allNodes (fun n => negb (test n))) children = true ->
  forallb (Hast.allNodes (fun n => negb (test n))) (map Hast.relabel children)
  = true.
Proof.
  rewrite !forallb_forall. intros H c' Hc'.
  apply in_map_iff in Hc'. destruct Hc' as [c [<- Hc]].
  apply relabel_keeps_clean. now apply H.
Qed.

End Relabel.

(** What the transformer returns holds no element that is hidden from
    assistive technology and no image with an empty alternative text. *)
Lemma transformer_output_clean (tree : Hast.root) :
  forallb (Hast.allNodes (fun n => negb (Hast.isAriaHidden n)))
          (Hast.rootChildren (Hast.accessibilityTransformer tree)) = true /\
  forallb (Hast.allNodes (fun n => negb (Hast.isDecorativeImage n)))
          (Hast.rootChildren (Hast.accessibilityTransformer tree)) = true.
Proof.
  unfold Hast.accessibilityTransformer, Hast.remove. simpl. split.
  - apply (map_relabel_keeps_clean _ isAriaHidden_own).
    apply (living_keeps_clean _ _ isAriaHidden_own).
    apply (living_clean _ isAriaHidden_own).
  - apply (map_relabel_keeps_clean _ isDecorativeImage_own).
    apply (living_clean _ isDecorativeImage_own).
Qed.

(** C7: the accessibility transformer is idempotent: applied to its own
    result it returns that result. *)
Theorem accessibilityTransformer_idempotent (tree : Hast.root) :
  Hast.accessibilityTransformer (Hast.accessibilityTransformer tree)
  = Hast.accessibilityTransformer tree.
Proof.
  destruct (transformer_output_clean tree) as [Hhidden Himage].
  remember (Hast.accessibilityTransformer tree) as once eqn:Eonce.
  unfold Hast.accessibilityTransformer at 1. unfold Hast.remove. simpl.
  rewrite (living_id _ (Hast.rootChildren once) Hhidden).
  rewrite (living_id _ (Hast.rootChildren once) Himage).
  rewrite Eonce. unfold Hast.accessibilityTransformer, Hast.remove. simpl.
  f_equal. rewrite map_map. apply map_ext. intros c. apply relabel_idempotent.
Qed.

(** C6, at the toolbar: the hidden icon is the only child of the button, so
    unist-util-remove drops the button together with it (its [cascade]
    option is on unless the caller turns it off) and the label is never
    used; by the three rules the button stays and shows its label. *)
Theorem icon_button_is_dropped :
  Hast.accessibilityTransformer Example.toolbar
  = Hast.Root
      [Hast.Element "p" (Some []) [Hast.Text (Hast.VString "Settings")]] /\
  Hast.spec_transform Example.toolbar
  = Hast.Root
      [Hast.Element "p" (Some []) [Hast.Text (Hast.VString "Settings")];
       Hast.Element "button" (Some [("ariaLabel", Hast.VString "Close")])
         [Hast.Text (Hast.VString "Close")]].
Proof.
  split; reflexivity.
Qed.

(** ** The ranking of paths behind the sentinel count *)

Section StandingFacts.

Variable isMatch : string -> string -> bool.

Lemma first_match_or_none (id : string) (pats : list string) :
  Priority.no_match isMatch id pats \/
  exists i, Priority.first_match isMatch id pats i.
Proof.
  induction pats as [|pat pats IH].
  - left. intros x [].
  - destruct (isMatch id pat) eqn:E.
    + right. exists 0%nat. split.
      * exists pat. now split.
      * intros j x Hj. lia.
    + destruct IH as [Hnone|[i [[x [Hn Hm]] Hbefore]]].
      * left. intros x [<-|Hx]; [exact E|now apply Hnone].
      * right. exists (S i). split.
        -- exists x. now split.
        -- intros j y Hj Hy. destruct j as [|j].
           ++ simpl in Hy. injection Hy as <-. exact E.
           ++ apply (Hbefore j y); [lia|exact Hy].
Qed.

Lemma first_match_unique (id : string) (pats : list string) (i j : nat) :
  Priority.first_match isMatch id pats i ->
  Priority.first_match isMatch id pats j -> i = j.
Proof.
  intros [[x [Hx Hmx]] Hbi] [[y [Hy Hmy]] Hbj].
  destruct (Nat.lt_trichotomy i j) as [H|[H|H]]; [|exact H|].
  - rewrite (Hbj i x H Hx) in Hmx. discriminate.
  - rewrite (Hbi j y H Hy) in Hmy. discriminate.
Qed.

Lemma first_match_not_none (id : string) (pats : list string) (i : nat) :
  Priority.first_match isMatch id pats i ->
  Priority.no_match isMatch id pats -> False.
Proof.
  intros [[x [Hx Hm]] _] Hnone.
  rewrite (Hnone x (nth_error_In _ _ Hx)) in Hm. discriminate.
Qed.

Lemma standing_bias (id : string) (promote demote : list string)
    (s : Standing.standing) :
  Standing.holds isMatch id promote demote s ->
  Priority.prefixLength isMatch id promote demote
  = match s with
    | Standing.Promoted p => (Js.len promote - Z.of_nat p) + Js.len demote
    | Standing.Neutral => Js.len demote
    | Standing.Demoted d => Js.len demote - Z.of_nat d - 1
    end /\
  match s with
  | Standing.Promoted p => Z.of_nat p < Js.len promote
  | Standing.Neutral => True
  | Standing.Demoted d => Z.of_nat d < Js.len demote
  end.
Proof.
  destruct s as [p| |d]; simpl.
  - intros [Hd Hp]. split.
    + now apply prefixLength_promoted.
    + now apply (first_match_lt isMatch id).
  - intros [Hd Hp]. split; [now apply prefixLength_neutral|exact I].
  - intros Hd. split.
    + now apply prefixLength_demoted.
    + now apply (first_match_lt isMatch id).
Qed.

(** X1: the sentinel count follows the ranking exactly. Of two paths, one
    gets more sentinels than the other if and only if it ranks above it:
    promoted above unmatched above demoted, and inside the promote list as
    inside the demote list the pattern listed earlier ranks higher. The
    count never exceeds the number of patterns. *)
Theorem bias_follows_rank (promote demote : list string) (a b : string)
    (s t : Standing.standing) :
  Standing.holds isMatch a promote demote s ->
  Standing.holds isMatch b promote demote t ->
  (Priority.prefixLength isMatch b promote demote
   < Priority.prefixLength isMatch a promote demote
   <-> Standing.outranks s t) /\
  0 <= Priority.prefixLength isMatch a promote demote
    <= Js.len promote + Js.len demote.
Proof.
  intros Ha Hb.
  destruct (standing_bias a promote demote s Ha) as [Ea Ba].
  destruct (standing_bias b promote demote t Hb) as [Eb Bb].
  rewrite Ea, Eb. unfold Js.len in *.
  destruct s as [p| |d]; destruct t as [q| |e]; simpl; split; try lia;
    split; intros; try exact I; lia.
Qed.

Lemma standing_exists (promote demote : list string) (id : string) :
  exists s,
    Standing.holds isMatch id promote demote s /\
    forall s', Standing.holds isMatch id promote demote s' -> s' = s.
Proof.
  destruct (first_match_or_none id demote) as [Hd|[d Hd]].
  - destruct (first_match_or_none id promote) as [Hp|[p Hp]].
    + exists Standing.Neutral. split; [now split|].
      intros [p'| |d']; simpl.
      * intros [_ Hp']. destruct (first_match_not_none _ _ _ Hp' Hp).
      * reflexivity.
      * intros Hd'. destruct (first_match_not_none _ _ _ Hd' Hd).
    + exists (Standing.Promoted p). split; [now split|].
      intros [p'| |d']; simpl.
      * intros [_ Hp']. f_equal. exact (first_match_unique _ _ _ _ Hp' Hp).
      * intros [_ Hp']. destruct (first_match_not_none _ _ _ Hp Hp').
      * intros Hd'. destruct (first_match_not_none _ _ _ Hd' Hd).
  - exists (Standing.Demoted d). split; [exact Hd|].
    intros [p'| |d']; simpl.
    + intros [Hd' _]. destruct (first_match_not_none _ _ _ Hd Hd').
    + intros [Hd' _]. destruct (first_match_not_none _ _ _ Hd Hd').
    + intros Hd'. f_equal. exact (first_match_unique _ _ _ _ Hd' Hd).
Qed.

(** X2: prioritizePathname treats every path by exactly one standing, and
    demotion comes first: the index it finds in the demote list is that of
    the first demote pattern the path matches, whatever the promote list
    says; only for a path that matches no demote pattern does the first
    matching promote pattern count; and the key it returns is the path
    behind as many sentinels as that standing gives. *)
Theorem standing_exists_unique (promote demote : list string) (id : string) :
  exists s,
    Standing.holds isMatch id promote demote s /\
    (forall s', Standing.holds isMatch id promote demote s' -> s' = s) /\
    Js.findIndex (fun expr => isMatch id expr) demote
    = match s with
      | Standing.Demoted d => Z.of_nat d
      | _ => -1
      end /\
    Priority.prefixLength isMatch id promote demote
    = match s with
      | Standing.Promoted p => (Js.len promote - Z.of_nat p) + Js.len demote
      | Standing.Neutral => Js.len demote
      | Standing.Demoted d => Js.len demote - Z.of_nat d - 1
      end /\
    Priority.prioritizePathname isMatch id (Some promote) (Some demote)
    = Some (Js.repeat_nat (String Priority.sentinel "")
              (Z.to_nat (Priority.prefixLength isMatch id promote demote))
            ++ id).
Proof.
  destruct (standing_exists promote demote id) as [s [Hs Huniq]].
  exists s. split; [exact Hs|]. split; [exact Huniq|]. split; [|split].
  - destruct s as [p| |d]; simpl in Hs.
    + now apply findIndex_no_match.
    + now apply findIndex_no_match.
    + now apply findIndex_first_match.
  - exact (proj1 (standing_bias id promote demote s Hs)).
  - apply prioritizePathname_key.
Qed.

End StandingFacts.

Lemma bias_follows_rank_witness :
  Standing.holds Priority.literalMatch "delta/" ["gamma/"; "delta/"] ["alpha/"]
    (Standing.Promoted 1) /\
  Standing.holds Priority.literalMatch "alpha/" ["gamma/"; "delta/"] ["alpha/"]
    (Standing.Demoted 0) /\
  Priority.prefixLength Priority.literalMatch "alpha/" ["gamma/"; "delta/"] ["alpha/"]
  < Priority.prefixLength Priority.literalMatch "delta/" ["gamma/"; "delta/"] ["alpha/"].
Proof.
  assert (Ha : Standing.holds Priority.literalMatch "delta/"
                 ["gamma/"; "delta/"] ["alpha/"] (Standing.Promoted 1)).
  { split.
    - intros pat [<-|[]]. reflexivity.
    - split.
      + exists "delta/". split; reflexivity.
      + intros j pat Hj Hn. destruct j as [|j]; [|lia].
        injection Hn as <-. reflexivity. }
  assert (Hb : Standing.holds Priority.literalMatch "alpha/"
                 ["gamma/"; "delta/"] ["alpha/"] (Standing.Demoted 0)).
  { split.
    - exists "alpha/". split; reflexivity.
    - intros j pat Hj. lia. }
  split; [exact Ha|]. split; [exact Hb|].
  apply (proj1 (bias_follows_rank Priority.literalMatch
                  ["gamma/"; "delta/"] ["alpha/"] "delta/" "alpha/"
                  (Standing.Promoted 1) (Standing.Demoted 0) Ha Hb)).
  exact I.
Defined.

(** ** The sorted pages: ranking, sortedness, re-sorting *)

Section SortedAgain.

Context {A : Type}.
Variable comparefn : A -> A -> option Z.
Variable c : A -> A -> Z.
Hypothesis comparefn_total : forall x y, comparefn x y = Some (c x y).

Lemma sort_of_sorted (l : list A) :
  StronglySorted (fun x y => c x y <= 0) l ->
  JsArray.sort comparefn l = Some l.
Proof.
  induction 1 as [|x l Hs IH Hall]; simpl; [reflexivity|].
  rewrite IH. destruct l as [|y l']; simpl; [reflexivity|].
  rewrite comparefn_total.
  inversion Hall as [|? ? Hxy _]; subst.
  apply Z.leb_le in Hxy. now rewrite Hxy.
Qed.

End SortedAgain.

Section RankedOrder.

Variable isMatch : string -> string -> bool.
Variable compare : string -> string -> Z.
Variable path_join : list string -> string.
Variable files : string -> option string.
Variable parse : string -> Dom.document.
Variable querySelector : string -> Dom.document -> option (list nat).
Variable innerHTML : Dom.node -> string.
Variable entryToSimpleMarkdown : string -> list string -> bool -> Result string.

Local Abbreviation keyOf set x :=
  (Priority.sortKey isMatch x (Index.promote set) (Index.demote set)).

(** X3: a path that ranks above another is ordered before it: its key
    compares lower and, with a consistent comparator, it stands earlier in
    the sorted pages. In particular a promoted path comes before every
    unmatched and every demoted path, and of two demoted paths the one
    matched by the demote pattern listed earlier comes first. This needs a
    comparator that keeps the order of two strings when both get a sentinel
    in front, and a lower-ranked path that starts with a character ordered
    after the sentinel. *)
Theorem higher_rank_sorts_first (context : Index.PluginContext)
    (set : Index.DocSet) (a b : string) (s t : Standing.standing) :
  Collation.sentinel_congruent compare ->
  Standing.holds isMatch a (Js.default [] (Index.promote set))
    (Js.default [] (Index.demote set)) s ->
  Standing.holds isMatch b (Js.default [] (Index.promote set))
    (Js.default [] (Index.demote set)) t ->
  Standing.outranks s t ->
  Collation.ordinary compare b ->
  Index.orderedBefore isMatch compare path_join files parse querySelector
    innerHTML entryToSimpleMarkdown context set a b.
Proof.
  intros Hc Ha Hb Hrank Hord.
  apply lower_key_orderedBefore. unfold Priority.sortKey.
  destruct (standing_bias isMatch a _ _ s Ha) as [Ea Ba].
  destruct (standing_bias isMatch b _ _ t Hb) as [Eb Bb].
  rewrite Ea, Eb.
  apply more_sentinels_first; [exact Hc| |exact Hord].
  unfold Js.len in *.
  destruct s as [p| |d]; destruct t as [q| |e]; simpl in Hrank;
    try contradiction; lia.
Qed.

(** X4: with a consistent comparator the pages are processed in an order
    that is a rearrangement of the selection, sorted by key, and sorting
    that order once more does not change it. *)
Theorem sorted_pages_are_sorted (context : Index.PluginContext)
    (set : Index.DocSet) :
  Collation.consistent compare ->
  exists out,
    Index.processDocSet isMatch compare path_join files parse querySelector
      innerHTML entryToSimpleMarkdown context set = Some out /\
    Permutation (Index.selectMatches isMatch (Index.pages context) set)
                (Index.sorted out) /\
    StronglySorted (fun x y => compare (keyOf set x) (keyOf set y) <= 0)
                   (Index.sorted out) /\
    JsArray.sort (Index.comparePathnames isMatch compare set) (Index.sorted out)
    = Some (Index.sorted out).
Proof.
  intros [Hanti Htrans].
  destruct (processDocSet_sorted isMatch compare path_join files parse
              querySelector innerHTML entryToSimpleMarkdown context set)
    as [out [Hrun [Hsort Hperm]]].
  exists out. split; [exact Hrun|]. split; [exact Hperm|].
  assert (Hs : StronglySorted
                 (fun x y => compare (keyOf set x) (keyOf set y) <= 0)
                 (Index.sorted out)).
  { apply (sort_sorted (Index.comparePathnames isMatch compare set)
             (fun x y => compare (keyOf set x) (keyOf set y))
             (comparePathnames_total isMatch compare set)
             (fun x y => Hanti (keyOf set x) (keyOf set y))
             (fun x y z => Htrans (keyOf set x) (keyOf set y) (keyOf set z))
             _ _ Hsort). }
  split; [exact Hs|].
  apply (sort_of_sorted (Index.comparePathnames isMatch compare set)
           (fun x y => compare (keyOf set x) (keyOf set y))
           (comparePathnames_total isMatch compare set) _ Hs).
Qed.

(** X5: a set without promote and demote patterns (absent or empty lists)
    gives every path itself as its key, so with a consistent comparator the
    pages are processed in the comparator's order of their paths. *)
Theorem plain_set_sorts_by_path (context : Index.PluginContext)
    (set : Index.DocSet) :
  Js.default [] (Index.promote set) = [] ->
  Js.default [] (Index.demote set) = [] ->
  (forall id,
     Priority.prioritizePathname isMatch id (Index.promote set) (Index.demote set)
     = Some id) /\
  (Collation.consistent compare ->
   exists out,
     Index.processDocSet isMatch compare path_join files parse querySelector
       innerHTML entryToSimpleMarkdown context set = Some out /\
     StronglySorted (fun x y => compare x y <= 0) (Index.sorted out)).
Proof.
  intros Hp Hd.
  assert (Hkey : forall id, keyOf set id = id).
  { intros id. unfold Priority.sortKey. rewrite Hp, Hd. reflexivity. }
  split.
  - intros id. rewrite prioritizePathname_key. f_equal. apply Hkey.
  - intros [Hanti Htrans].
    destruct (processDocSet_sorted isMatch compare path_join files parse
                querySelector innerHTML entryToSimpleMarkdown context set)
      as [out [Hrun [Hsort _]]].
    exists out. split; [exact Hrun|].
    assert (Htotal : forall x y,
               Index.comparePathnames isMatch compare set x y
               = Some (compare x y)).
    { intros x y. rewrite comparePathnames_total.
      now rewrite (Hkey x), (Hkey y). }
    exact (sort_sorted (Index.comparePathnames isMatch compare set)
             (fun x y => compare x y) Htotal Hanti Htrans _ _ Hsort).
Qed.

End RankedOrder.

Lemma higher_rank_sorts_first_witness :
  Standing.outranks (Standing.Promoted 1) Standing.Neutral /\
  Index.orderedBefore Priority.literalMatch Collation.codeUnitCompare
    Example.path_join Example.files Example.parse Example.querySelector
    Example.innerHTML Example.entryToSimpleMarkdown
    Example.context (Example.docSet (Some ["gamma/"; "delta/"]) (Some ["alpha/"]))
    "delta/" "beta/".
Proof.
  split; [exact I|].
  apply (higher_rank_sorts_first Priority.literalMatch Collation.codeUnitCompare
           Example.path_join Example.files Example.parse Example.querySelector
           Example.innerHTML Example.entryToSimpleMarkdown Example.context
           (Example.docSet (Some ["gamma/"; "delta/"]) (Some ["alpha/"]))
           "delta/" "beta/" (Standing.Promoted 1) Standing.Neutral).
  - apply lex_compare_congruent.
  - split.
    + intros pat [<-|[]]. reflexivity.
    + split.
      * exists "delta/". split; reflexivity.
      * intros j pat Hj Hn. destruct j as [|j]; [|lia].
        injection Hn as <-. reflexivity.
  - split.
    + intros pat [<-|[]]. reflexivity.
    + intros pat [<-|[<-|[]]]; reflexivity.
  - exact I.
  - simpl. apply codeUnit_after_sentinel. reflexivity.
Defined.

Lemma sorted_pages_are_sorted_witness :
  exists out,
    Example.run (Example.docSet (Some ["beta/"]) None) = Some out /\
    Permutation
      (Index.selectMatches Priority.literalMatch (Index.pages Example.context)
         (Example.docSet (Some ["beta/"]) None))
      (Index.sorted out) /\
    JsArray.sort
      (Index.comparePathnames Priority.literalMatch Collation.codeUnitCompare
         (Example.docSet (Some ["beta/"]) None))
      (Index.sorted out)
    = Some (Index.sorted out).
Proof.
  destruct (sorted_pages_are_sorted Priority.literalMatch
              Collation.codeUnitCompare Example.path_join Example.files
              Example.parse Example.querySelector Example.innerHTML
              Example.entryToSimpleMarkdown Example.context
              (Example.docSet (Some ["beta/"]) None)
              (lex_compare_consistent N_of_ascii))
    as [out [Hrun [Hperm [_ Hagain]]]].
  exists out. split; [exact Hrun|]. split; [exact Hperm|exact Hagain].
Defined.

Lemma plain_set_sorts_by_path_witness :
  Priority.prioritizePathname Priority.literalMatch "beta/" None None
  = Some "beta/" /\
  exists out,
    Example.run (Example.docSet None None) = Some out /\
    StronglySorted (fun x y => Collation.codeUnitCompare x y <= 0)
                   (Index.sorted out).
Proof.
  destruct (plain_set_sorts_by_path Priority.literalMatch
              Collation.codeUnitCompare Example.path_join Example.files
              Example.parse Example.querySelector Example.innerHTML
              Example.entryToSimpleMarkdown Example.context
              (Example.docSet None None) eq_refl eq_refl) as [Hkey Hsorted].
  split; [exact (Hkey "beta/")|].
  exact (Hsorted (lex_compare_consistent N_of_ascii)).
Defined.

(** ** Trimming, the title and the entry *)

Lemma trimEnd_split (s : string) :
  exists post, s = JsString.trimEnd s ++ post /\ JsString.isBlank post = true.
Proof.
  induction s as [|c s [post [Hs Hpost]]].
  - exists "". split; reflexivity.
  - cbn [JsString.trimEnd].
    destruct (JsString.isBlank (String c s)) eqn:E.
    + exists (String c s). now split.
    + exists post. split; [simpl; now f_equal|exact Hpost].
Qed.

(** [trimEnd] cuts off the longest white-space end there is. *)
Lemma trimEnd_shortest (s a b : string) :
  s = a ++ b -> JsString.isBlank b = true ->
  (String.length (JsString.trimEnd s) <= String.length a)%nat.
Proof.
  revert a. induction s as [|c s IH]; intros a Hs Hb.
  - simpl. lia.
  - cbn [JsString.trimEnd].
    destruct (JsString.isBlank (String c s)) eqn:E; [simpl; lia|].
    destruct a as [|c' a].
    + simpl in Hs. subst b. congruence.
    + simpl in Hs. injection Hs as -> Hs.
      simpl. specialize (IH a Hs Hb). lia.
Qed.

Lemma endsWith_spec (suffix s : string) :
  Blank.endsWith suffix s = true -> exists p, s = p ++ suffix.
Proof.
  induction s as [|c s IH]; cbn [Blank.endsWith].
  - rewrite orb_false_r. intros H. apply String.eqb_eq in H. subst suffix.
    now exists "".
  - intros H. apply orb_true_iff in H. destruct H as [H|H].
    + apply String.eqb_eq in H. subst suffix. now exists "".
    + destruct (IH H) as [p ->]. now exists (String c p).
Qed.

Lemma trim_spec (s : string) :
  Blank.startsBlank (JsString.trim s) = false /\
  Blank.endsBlank (JsString.trim s) = false /\
  exists pre post,
    s = pre ++ JsString.trim s ++ post /\
    JsString.isBlank pre = true /\ JsString.isBlank post = true.
Proof.
  unfold JsString.trim.
  destruct (trimStart_spec s) as [Hnone [pre [Hs Hpre]]].
  destruct (trimEnd_split (JsString.trimStart s)) as [post [Ht Hpost]].
  split; [|split].
  - unfold Blank.startsBlank.
    destruct (JsString.afterWhiteSpace (JsString.trimEnd (JsString.trimStart s)))
      as [rest|] eqn:E; [|reflexivity].
    destruct (afterWhiteSpace_some _ _ E) as [e [He [Hu _]]].
    rewrite Ht, Hu, string_app_assoc in Hnone.
    rewrite (afterWhiteSpace_encoding e _ He) in Hnone. discriminate Hnone.
  - unfold Blank.endsBlank.
    destruct (existsb _ JsString.whiteSpace) eqn:E; [|reflexivity].
    apply existsb_exists in E. destruct E as [e [He Hends]].
    destruct (endsWith_spec e _ Hends) as [p Hp].
    assert (Hlen : (String.length (JsString.trimEnd (JsString.trimStart s))
                    <= String.length p)%nat).
    { apply (trimEnd_shortest _ p (e ++ post)).
      - rewrite Ht at 1. rewrite Hp at 1. apply string_app_assoc.
      - now apply isBlank_encoding. }
    rewrite Hp, string_app_length in Hlen.
    pose proof (whiteSpace_nonempty e He). lia.
  - exists pre, post. split; [|now split]. now rewrite <- Ht.
Qed.

Lemma trim_empty_blank (s : string) :
  JsString.trim s = "" -> JsString.isBlank s = true.
Proof.
  unfold JsString.trim. intros H.
  destruct (trimStart_spec s) as [Hnone _].
  destruct (JsString.trimStart s) as [|c t] eqn:Et.
  - unfold JsString.isBlank. now rewrite Et.
  - cbn [JsString.trimEnd] in H.
    destruct (JsString.isBlank (String c t)) eqn:E; [|discriminate H].
    unfold JsString.isBlank in E. rewrite (trimStart_done _ Hnone) in E.
    discriminate E.
Qed.

(** X6: the title never starts or ends with white space, and when it comes
    from a heading it is the text of that heading without the white space
    around it. *)
Theorem title_is_trimmed (main : Dom.node) :
  let title := fst (Index.extractTitle main) in
  Blank.startsBlank title = false /\
  Blank.endsBlank title = false /\
  (forall h,
     Dom.querySelectorNamed "h1" main = Some h ->
     exists pre post,
       Dom.textContent h = pre ++ title ++ post /\
       JsString.isBlank pre = true /\ JsString.isBlank post = true).
Proof.
  unfold Index.extractTitle.
  destruct (Dom.querySelectorNamed "h1" main) as [h|]; cbn [fst].
  - destruct (trim_spec (Dom.textContent h)) as [Hs [He Hsplit]].
    split; [exact Hs|]. split; [exact He|].
    intros h' Hh. injection Hh as <-. exact Hsplit.
  - split; [reflexivity|]. split; [reflexivity|]. discriminate.
Qed.

Lemma title_is_trimmed_witness :
  Dom.querySelectorNamed "h1" Sample.wideHeading
  = Some (Example.heading Sample.wideText) /\
  fst (Index.extractTitle Sample.wideHeading) = "Wide" /\
  exists pre post,
    Sample.wideText = pre ++ fst (Index.extractTitle Sample.wideHeading) ++ post /\
    JsString.isBlank pre = true /\ JsString.isBlank post = true.
Proof.
  split; [reflexivity|]. split; [reflexivity|].
  destruct (title_is_trimmed Sample.wideHeading) as [_ [_ H]].
  exact (H (Example.heading Sample.wideText) eq_refl).
Defined.

Lemma count_app (name : string) (xs ys : list Dom.token) :
  Heading.count name (xs ++ ys)
  = (Heading.count name xs + Heading.count name ys)%nat.
Proof.
  unfold Heading.count. now rewrite filter_app, length_app.
Qed.

(** X7: taking the title removes one heading only. The h1 start tags left
    in the content are those it had before minus those of the removed
    heading, so an h1 that comes later, outside the first one, stays in the
    content handed to the flattener. *)
Theorem only_first_heading_removed (main h : Dom.node) :
  Dom.querySelectorNamed "h1" main = Some h ->
  (Heading.count "h1" (Dom.innerTokens (snd (Index.extractTitle main)))
   + Heading.count "h1" (Dom.tokens h))%nat
  = Heading.count "h1" (Dom.innerTokens main) /\
  (1 <= Heading.count "h1" (Dom.tokens h))%nat.
Proof.
  intros Hq. pose proof (extractTitle_spec main) as H. cbv zeta in H.
  rewrite Hq in H. destruct H as [_ [Hh [pre [post [Ht [_ Ht']]]]]].
  rewrite Ht, Ht', !count_app. split; [lia|].
  destruct (named_element_opens "h1" h Hh) as [t [rest [Hts Hopen]]].
  rewrite Hts. unfold Heading.count. simpl. rewrite Hopen. simpl. lia.
Qed.

Lemma only_first_heading_removed_witness :
  Heading.count "h1" (Dom.innerTokens Sample.twoHeadings) = 2%nat /\
  Heading.count "h1"
    (Dom.innerTokens (snd (Index.extractTitle Sample.twoHeadings))) = 1%nat.
Proof.
  split; [reflexivity|].
  destruct (only_first_heading_removed Sample.twoHeadings
              (Example.heading "  First  ") eq_refl) as [H _].
  change (Heading.count "h1" (Dom.tokens (Example.heading "  First  ")))
    with 1%nat in H.
  change (Heading.count "h1" (Dom.innerTokens Sample.twoHeadings))
    with 2%nat in H.
  lia.
Defined.

(** X9: [replace(/\/$/, "")] drops exactly one final slash and leaves a
    path without a final slash alone, so a page is read from the same file
    whether its path ends with a slash or not. *)
Theorem trailing_slash_is_optional (path_join : list string -> string)
    (dist pn : string) :
  JsString.stripTrailingSlash (pn ++ "/") = pn /\
  ((forall t, pn <> t ++ "/") ->
   JsString.stripTrailingSlash pn = pn /\
   Index.htmlPathOf path_join dist (pn ++ "/")
   = Index.htmlPathOf path_join dist pn).
Proof.
  assert (Hdrop : forall s, JsString.stripTrailingSlash (s ++ "/") = s).
  { induction s as [|c s IH]; [reflexivity|].
    simpl. destruct (s ++ "/") eqn:E.
    - destruct s; discriminate.
    - now rewrite IH. }
  assert (Hkeep : forall s, (forall t, s <> t ++ "/") ->
                            JsString.stripTrailingSlash s = s).
  { induction s as [|c s IH]; intros Hs; [reflexivity|].
    simpl. destruct s as [|d s'].
    - destruct (Ascii.eqb c "/") eqn:E; [|reflexivity].
      apply Ascii.eqb_eq in E. subst c. destruct (Hs "" eq_refl).
    - f_equal. apply IH. intros t Ht.
      apply (Hs (String c t)). simpl. now rewrite Ht. }
  split; [apply Hdrop|].
  intros Hs. split; [now apply Hkeep|].
  unfold Index.htmlPathOf. now rewrite Hdrop, (Hkeep pn Hs).
Qed.

Lemma trailing_slash_is_optional_witness :
  Index.htmlPathOf Example.path_join "dist" "alpha/"
  = Index.htmlPathOf Example.path_join "dist" "alpha".
Proof.
  destruct (trailing_slash_is_optional Example.path_join "dist" "alpha")
    as [_ H].
  apply H. intros t Ht.
  destruct t as [|a [|b [|c [|d [|e [|f t]]]]]]; discriminate Ht.
Defined.

Section DescriptionLine.

Variable files : string -> option string.
Variable parse : string -> Dom.document.
Variable querySelector : string -> Dom.document -> option (list nat).
Variable innerHTML : Dom.node -> string.
Variable entryToSimpleMarkdown : string -> list string -> bool -> Result string.

(** X8: an entry is the title line and the flattened body, separated by a
    blank line, with one description line in between exactly when the
    document (after the heading was taken out) has a meta description whose
    content is not blank; that line is the content without the white space
    around it. A meta description that is missing, has no content attribute
    or is blank adds nothing. *)
Theorem description_line_when_not_blank (htmlPath : string)
    (mainSelector : option string) (ignoreSelectors : option (list string))
    (onlyStructure : bool) (html : string) (place : list nat)
    (main : Dom.node) (markdown : string) :
  files htmlPath = Some html ->
  querySelector (Js.default "main" mainSelector) (parse html) = Some place ->
  Dom.nodeAt place (parse html) = Some main ->
  entryToSimpleMarkdown
    (JsString.trim (innerHTML (snd (Index.extractTitle main))))
    ("h1" :: "footer" :: "header" :: Js.default [] ignoreSelectors)
    onlyStructure = Ok markdown ->
  let title := fst (Index.extractTitle main) in
  let doc' := Dom.replaceAt place (snd (Index.extractTitle main)) (parse html) in
  let entry :=
    Index.buildEntryFromHtml files parse querySelector innerHTML
      entryToSimpleMarkdown htmlPath mainSelector ignoreSelectors
      onlyStructure in
  let plain :=
    Ok ("# " ++ title ++ JsString.nl ++ JsString.nl ++ JsString.trim markdown) in
  (querySelector Index.metaDescriptionSelector doc' = None -> entry = plain) /\
  (forall metaPlace meta,
     querySelector Index.metaDescriptionSelector doc' = Some metaPlace ->
     Dom.nodeAt metaPlace doc' = Some meta ->
     match Dom.getAttribute "content" meta with
     | None => entry = plain
     | Some c =>
         if JsString.isBlank c then entry = plain
         else entry
              = Ok ("# " ++ title ++ JsString.nl ++ JsString.nl
                    ++ "> " ++ JsString.trim c ++ JsString.nl ++ JsString.nl
                    ++ JsString.trim markdown)
     end).
Proof.
  intros Hfile Hmain Hnode Hmd title doc' entry plain.
  subst title doc' entry plain. unfold Index.buildEntryFromHtml.
  rewrite Hfile, Hmain, Hnode.
  destruct (Index.extractTitle main) as [t m]. cbn [fst snd] in *.
  rewrite Hmd. split.
  - intros Hq. rewrite Hq. reflexivity.
  - intros metaPlace meta Hq Hn. rewrite Hq, Hn.
    destruct (Dom.getAttribute "content" meta) as [c|]; [|reflexivity].
    destruct (JsString.isBlank c) eqn:Eb.
    + rewrite (trim_blank c Eb). reflexivity.
    + destruct (String.eqb (JsString.trim c) "") eqn:Et.
      * apply String.eqb_eq in Et. apply trim_empty_blank in Et. congruence.
      * reflexivity.
Qed.

End DescriptionLine.

Lemma description_line_when_not_blank_witness :
  Index.buildEntryFromHtml (fun _ => Some "page") (fun _ => Sample.describedPage)
    Sample.querySelector Example.innerHTML Example.entryToSimpleMarkdown
    "dist/alpha/index.html" None None false
  = Ok ("# Alpha" ++ JsString.nl ++ JsString.nl
        ++ "> About alpha" ++ JsString.nl ++ JsString.nl ++ "<p>first</p>").
Proof.
  destruct (description_line_when_not_blank
              (fun _ => Some "page") (fun _ => Sample.describedPage)
              Sample.querySelector Example.innerHTML
              Example.entryToSimpleMarkdown
              "dist/alpha/index.html" None None false "page" [0; 1; 0]%nat
              (Dom.Element "main" []
                 [Example.heading "Alpha"; Example.paragraph "first"])
              "<p>first</p>" eq_refl eq_refl eq_refl eq_refl) as [_ H].
  exact (H [0; 0; 0]%nat
           (Dom.Element "meta"
              [("name", "description"); ("content", Sample.describedContent)] [])
           eq_refl eq_refl).
Defined.

(** ** What the accessibility transformer keeps, drops and rewrites *)

Lemma allNodes_subnodes (f : Hast.node -> bool) (n : Hast.node) :
  Hast.allNodes f n = true -> forall m, In m (Tree.subnodes n) -> f m = true.
Proof.
  induction n as [tagName properties children IH|content|content|]
    using hast_node_ind; simpl; intros H m Hm;
    apply andb_true_iff in H; destruct H as [Hf Hall];
    try (destruct Hm as [<-|[]]; exact Hf).
  destruct Hm as [<-|Hm]; [exact Hf|].
  apply in_flat_map in Hm. destruct Hm as [c [Hc Hm]].
  rewrite Forall_forall in IH. rewrite forallb_forall in Hall.
  exact (IH c Hc (Hall c Hc) m Hm).
Qed.

Lemma forest_subnodes (f : Hast.node -> bool) (l : list Hast.node) :
  forallb (Hast.allNodes f) l = true ->
  forall m, In m (List.flat_map Tree.subnodes l) -> f m = true.
Proof.
  intros H m Hm. apply in_flat_map in Hm. destruct Hm as [c [Hc Hm]].
  rewrite forallb_forall in H. exact (allNodes_subnodes f c (H c Hc) m Hm).
Qed.

Lemma relabel_labelled (n m : Hast.node) (label : Hast.value) :
  In m (Tree.subnodes (Hast.relabel n)) ->
  Hast.ariaLabelValue m = Some label ->
  exists tagName properties,
    m = Hast.Element tagName properties [Hast.Text label].
Proof.
  revert m.
  induction n as [tagName properties children IH|content|content|]
    using hast_node_ind; intros m Hm Hl;
    try (destruct Hm as [<-|[]]; discriminate Hl).
  simpl in Hm.
  destruct (Hast.ariaLabelValue (Hast.Element tagName properties children))
    as [l|] eqn:E.
  - simpl in Hm. destruct Hm as [<-|[<-|[]]]; [|discriminate Hl].
    change (Hast.ariaLabelValue (Hast.Element tagName properties [Hast.Text l]))
      with (Hast.ariaLabelValue (Hast.Element tagName properties children)) in Hl.
    rewrite E in Hl. injection Hl as <-. now exists tagName, properties.
  - simpl in Hm. destruct Hm as [<-|Hm].
    + change (Hast.ariaLabelValue
                (Hast.Element tagName properties (map Hast.relabel children)))
        with (Hast.ariaLabelValue (Hast.Element tagName properties children)) in Hl.
      rewrite E in Hl. discriminate Hl.
    + apply in_flat_map in Hm. destruct Hm as [c' [Hc' Hm]].
      apply in_map_iff in Hc'. destruct Hc' as [c [<- Hc]].
      rewrite Forall_forall in IH. exact (IH c Hc m Hm Hl).
Qed.

(** X10: in what the transformer returns, no node below the root is hidden
    from assistive technology, none is an image with an empty alternative
    text, and every element with a usable label has that label, as one text
    node, for its whole content. *)
Theorem transformer_output_invariant (tree : Hast.root) (m : Hast.node) :
  In m (Tree.below (Hast.accessibilityTransformer tree)) ->
  Hast.isAriaHidden m = false /\
  Hast.isDecorativeImage m = false /\
  (forall label,
     Hast.ariaLabelValue m = Some label ->
     exists tagName properties,
       m = Hast.Element tagName properties [Hast.Text label]).
Proof.
  intros Hm. destruct (transformer_output_clean tree) as [Hh Hi].
  split; [|split].
  - apply negb_true_iff.
    exact (forest_subnodes _ _ Hh m Hm).
  - apply negb_true_iff.
    exact (forest_subnodes _ _ Hi m Hm).
  - intros label Hl. unfold Tree.below, Hast.accessibilityTransformer in Hm.
    simpl in Hm. apply in_flat_map in Hm. destruct Hm as [c' [Hc' Hm]].
    apply in_map_iff in Hc'. destruct Hc' as [c [<- Hc]].
    exact (relabel_labelled c m label Hm Hl).
Qed.

Lemma transformer_output_invariant_witness :
  In (Hast.Element "a" (Some [("ariaLabel", Hast.VString "Home page")])
        [Hast.Text (Hast.VString "Home page")])
     (Tree.below (Hast.accessibilityTransformer Sample.labelledLink)) /\
  Hast.isAriaHidden
    (Hast.Element "a" (Some [("ariaLabel", Hast.VString "Home page")])
       [Hast.Text (Hast.VString "Home page")]) = false.
Proof.
  assert (H : In (Hast.Element "a" (Some [("ariaLabel", Hast.VString "Home page")])
                    [Hast.Text (Hast.VString "Home page")])
                 (Tree.below (Hast.accessibilityTransformer Sample.labelledLink))).
  { left. reflexivity. }
  split; [exact H|].
  exact (proj1 (transformer_output_invariant Sample.labelledLink _ H)).
Defined.

Section Cascade.

Variable test : Hast.node -> bool.

Lemma living_app (f : Hast.node -> option Hast.node) (xs ys : list Hast.node) :
  Hast.living f (xs ++ ys) = (Hast.living f xs ++ Hast.living f ys)%list.
Proof.
  induction xs as [|x xs IH]; simpl; [reflexivity|].
  destruct (f x); simpl; now rewrite IH.
Qed.

Lemma living_all_pass (children : list Hast.node) :
  forallb test children = true ->
  Hast.living (Hast.preorder test) children = [].
Proof.
  induction children as [|c rest IH]; simpl; [reflexivity|].
  intros H. apply andb_true_iff in H. destruct H as [Hc Hrest].
  destruct c; simpl; simpl in Hc; rewrite Hc; now apply IH.
Qed.

(** An element whose children all pass the test is dropped with them. *)
Lemma preorder_emptied (tagName : string)
    (properties : option (list (string * Hast.value)))
    (children : list Hast.node) :
  children <> [] -> forallb test children = true ->
  Hast.preorder test (Hast.Element tagName properties children) = None.
Proof.
  intros Hne Hall. simpl.
  destruct (test (Hast.Element tagName properties children)); [reflexivity|].
  destruct children as [|c rest]; [now destruct Hne|].
  now rewrite (living_all_pass (c :: rest) Hall).
Qed.

Lemma living_leaves_kept (children : list Hast.node) :
  forallb (fun c => negb (test c) && Tree.isLeaf c) children = true ->
  Hast.living (Hast.preorder test) children = children.
Proof.
  induction children as [|c rest IH]; simpl; [reflexivity|].
  intros H. apply andb_true_iff in H. destruct H as [Hc Hrest].
  apply andb_true_iff in Hc. destruct Hc as [Ht Hleaf].
  apply negb_true_iff in Ht.
  destruct c as [t p [|k ks]|v|v|]; simpl in *; try discriminate Hleaf;
    rewrite Ht; now rewrite (IH Hrest).
Qed.

Lemma preorder_leaves_kept (tagName : string)
    (properties : option (list (string * Hast.value)))
    (children : list Hast.node) :
  test (Hast.Element tagName properties children) = false ->
  forallb (fun c => negb (test c) && Tree.isLeaf c) children = true ->
  Hast.preorder test (Hast.Element tagName properties children)
  = Some (Hast.Element tagName properties children).
Proof.
  intros Ht Hleaves. simpl. rewrite Ht.
  destruct children as [|c rest]; [reflexivity|].
  now rewrite (living_leaves_kept (c :: rest) Hleaves).
Qed.

Lemma cascadeFree_agrees (n : Hast.node) :
  Tree.cascadeFree test n = true ->
  Hast.preorder test n = Hast.spec_prune test n.
Proof.
  induction n as [tagName properties children IH|content|content|]
    using hast_node_ind; try reflexivity.
  intros H. simpl in H. simpl.
  destruct (test (Hast.Element tagName properties children)) eqn:Et;
    [reflexivity|].
  simpl in H. destruct children as [|c rest]; [reflexivity|].
  apply andb_true_iff in H. destruct H as [Hex Hall].
  assert (Hsame : Hast.living (Hast.preorder test) (c :: rest)
                  = Hast.living (Hast.spec_prune test) (c :: rest)).
  { revert IH Hall. generalize (c :: rest). intros l IH Hall.
    induction IH as [|x l Hx _ IHl]; [reflexivity|].
    simpl in Hall. apply andb_true_iff in Hall. destruct Hall as [H1 H2].
    simpl. rewrite (Hx H1), (IHl H2). reflexivity. }
  rewrite Hsame.
  assert (Hne : Hast.living (Hast.spec_prune test) (c :: rest) <> []).
  { revert Hex. generalize (c :: rest). intros l Hex.
    induction l as [|x l IHl]; [discriminate Hex|].
    simpl in Hex. simpl.
    destruct (test x) eqn:Ex.
    - assert (Hast.spec_prune test x = None) as ->
          by (destruct x; simpl; now rewrite Ex).
      apply IHl. exact Hex.
    - destruct x; simpl; rewrite Ex; discriminate. }
  destruct (Hast.living (Hast.spec_prune test) (c :: rest)) as [|k kept];
    [now destruct Hne|reflexivity].
Qed.

Lemma cascadeFree_living (children : list Hast.node) :
  forallb (Tree.cascadeFree test) children = true ->
  Hast.living (Hast.preorder test) children
  = Hast.living (Hast.spec_prune test) children.
Proof.
  induction children as [|c rest IH]; simpl; [reflexivity|].
  intros H. apply andb_true_iff in H. destruct H as [H1 H2].
  now rewrite (cascadeFree_agrees c H1), (IH H2).
Qed.

End Cascade.

Lemma living_dropped (test : Hast.node -> bool) (x : Hast.node)
    (before after : list Hast.node) :
  Hast.preorder test x = None ->
  Hast.living (Hast.preorder test) (before ++ x :: after)
  = Hast.living (Hast.preorder test) (before ++ after).
Proof.
  intros Hx. rewrite !living_app.
  change (Hast.living (Hast.preorder test) (x :: after))
    with (match Hast.preorder test x with
          | Some c' => c' :: Hast.living (Hast.preorder test) after
          | None => Hast.living (Hast.preorder test) after
          end).
  now rewrite Hx.
Qed.

Lemma transformer_dropped (x : Hast.node) (before after : list Hast.node) :
  Hast.preorder Hast.isAriaHidden x = None ->
  Hast.accessibilityTransformer (Hast.Root (before ++ x :: after))
  = Hast.accessibilityTransformer (Hast.Root (before ++ after)).
Proof.
  intros Hx. unfold Hast.accessibilityTransformer, Hast.remove. simpl.
  now rewrite (living_dropped Hast.isAriaHidden x before after Hx).
Qed.

(** X11: an element that has children, all of them hidden, does not survive
    the first removal, wherever it stands in the tree, and its label is
    never used: among its siblings it is dropped as if it were not there,
    and a parent that has no other child is dropped with it. So a tree with
    such an element, or with such a parent, directly below the root is
    transformed like the tree without it. *)
Theorem emptied_element_is_dropped (tagName : string)
    (properties : option (list (string * Hast.value)))
    (children : list Hast.node) :
  let element := Hast.Element tagName properties children in
  children <> [] ->
  forallb Hast.isAriaHidden children = true ->
  Hast.preorder Hast.isAriaHidden element = None /\
  (forall before after,
     Hast.living (Hast.preorder Hast.isAriaHidden) (before ++ element :: after)
     = Hast.living (Hast.preorder Hast.isAriaHidden) (before ++ after)) /\
  (forall parentTag parentProperties,
     Hast.preorder Hast.isAriaHidden
       (Hast.Element parentTag parentProperties [element]) = None) /\
  (forall before after,
     Hast.accessibilityTransformer (Hast.Root (before ++ element :: after))
     = Hast.accessibilityTransformer (Hast.Root (before ++ after))) /\
  (forall parentTag parentProperties before after,
     Hast.accessibilityTransformer
       (Hast.Root
          (before ++ Hast.Element parentTag parentProperties [element] :: after))
     = Hast.accessibilityTransformer (Hast.Root (before ++ after))).
Proof.
  intros element Hne Hhidden.
  assert (Hdrop : Hast.preorder Hast.isAriaHidden element = None)
    by exact (preorder_emptied Hast.isAriaHidden tagName properties children
                Hne Hhidden).
  assert (Hparent : forall parentTag parentProperties,
             Hast.preorder Hast.isAriaHidden
               (Hast.Element parentTag parentProperties [element]) = None).
  { intros parentTag parentProperties.
    change (Hast.preorder Hast.isAriaHidden
              (Hast.Element parentTag parentProperties [element]))
      with (if Hast.isAriaHidden
                 (Hast.Element parentTag parentProperties [element])
            then None
            else match
                   match Hast.preorder Hast.isAriaHidden element with
                   | Some c' => [c']
                   | None => []
                   end
                 with
                 | [] => None
                 | k :: kept =>
                     Some (Hast.Element parentTag parentProperties (k :: kept))
                 end).
    rewrite Hdrop. now destruct (Hast.isAriaHidden _). }
  split; [exact Hdrop|]. split; [|split; [exact Hparent|split]].
  - intros before after. now apply living_dropped.
  - intros before after. now apply transformer_dropped.
  - intros parentTag parentProperties before after.
    apply transformer_dropped. apply Hparent.
Qed.

Lemma emptied_element_is_dropped_witness :
  Hast.accessibilityTransformer Example.toolbar
  = Hast.accessibilityTransformer
      (Hast.Root
         [Hast.Element "p" (Some []) [Hast.Text (Hast.VString "Settings")]]) /\
  Hast.accessibilityTransformer
    (Hast.Root
       [Hast.Element "div" (Some [])
          [Hast.Element "button" (Some [("ariaLabel", Hast.VString "Close")])
             [Hast.Element "svg" (Some [("ariaHidden", Hast.VString "true")]) []]]])
  = Hast.accessibilityTransformer (Hast.Root []).
Proof.
  destruct (emptied_element_is_dropped "button"
              (Some [("ariaLabel", Hast.VString "Close")])
              [Hast.Element "svg" (Some [("ariaHidden", Hast.VString "true")]) []])
    as [_ [_ [_ [Hroot Hnested]]]].
  - discriminate.
  - reflexivity.
  - split.
    + exact (Hroot
               [Hast.Element "p" (Some []) [Hast.Text (Hast.VString "Settings")]]
               []).
    + exact (Hnested "div" (Some []) [] []).
Defined.

(** X12: where no removal leaves an element without children, the
    transformer does what the three rules say and nothing more: if every
    element that stays has a child that stays, in the first removal and in
    the second, the result is the tree with the hidden subtrees and the
    empty-alt images removed and the labelled elements rewritten. *)
Theorem transformer_follows_rules (tree : Hast.root) :
  forallb (Tree.cascadeFree Hast.isAriaHidden) (Hast.rootChildren tree) = true ->
  forallb (Tree.cascadeFree Hast.isDecorativeImage)
          (Hast.rootChildren (Hast.spec_remove Hast.isAriaHidden tree)) = true ->
  Hast.accessibilityTransformer tree = Hast.spec_transform tree.
Proof.
  intros H1 H2.
  unfold Hast.accessibilityTransformer, Hast.spec_transform, Hast.remove,
    Hast.spec_remove in *. simpl in *.
  rewrite (cascadeFree_living Hast.isAriaHidden _ H1).
  now rewrite (cascadeFree_living Hast.isDecorativeImage _ H2).
Qed.

Lemma transformer_follows_rules_witness :
  Hast.accessibilityTransformer Sample.labelledLink
  = Hast.Root
      [Hast.Element "a" (Some [("ariaLabel", Hast.VString "Home page")])
         [Hast.Text (Hast.VString "Home page")];
       Hast.Element "div" (Some []) [Hast.Text (Hast.VString "kept")]].
Proof.
  rewrite (transformer_follows_rules Sample.labelledLink eq_refl eq_refl).
  reflexivity.
Defined.

Lemma derives_refl (m : Hast.node) : Tree.derives m m.
Proof. destruct m; simpl; auto. Qed.

Lemma derives_trans (m n k : Hast.node) :
  Tree.derives m n -> Tree.derives n k -> Tree.derives m k.
Proof.
  destruct m, n, k; simpl; try tauto; try discriminate; try congruence.
  intros [-> ->] [-> ->]. now split.
Qed.

Lemma derives_label (m n : Hast.node) :
  Tree.derives m n -> Hast.ariaLabelValue m = Hast.ariaLabelValue n.
Proof.
  destruct m, n; simpl; try tauto; try discriminate; try congruence.
  intros [-> ->]. reflexivity.
Qed.

Section Derivation.

Variable test : Hast.node -> bool.

Lemma preorder_derives (n n' : Hast.node) :
  Hast.preorder test n = Some n' ->
  forall m, In m (Tree.subnodes n') ->
  exists m0, In m0 (Tree.subnodes n) /\ Tree.derives m m0.
Proof.
  revert n'.
  induction n as [tagName properties children IH|content|content|]
    using hast_node_ind; intros n' H m Hm; simpl in H;
    try (destruct (test _); [discriminate|]; injection H as <-;
         exists m; split; [exact Hm|apply derives_refl]).
  destruct (test (Hast.Element tagName properties children)); [discriminate|].
  destruct children as [|c rest].
  - injection H as <-. exists m. split; [exact Hm|apply derives_refl].
  - destruct (Hast.living (Hast.preorder test) (c :: rest)) as [|k kept] eqn:Ek;
      [discriminate|].
    injection H as <-. rewrite <- Ek in Hm.
    change (In m (Hast.Element tagName properties
                    (Hast.living (Hast.preorder test) (c :: rest))
                  :: List.flat_map Tree.subnodes
                       (Hast.living (Hast.preorder test) (c :: rest)))) in Hm.
    destruct Hm as [<-|Hm].
    + exists (Hast.Element tagName properties (c :: rest)).
      split; [now left|now split].
    + assert (Hin : exists m0, In m0 (List.flat_map Tree.subnodes (c :: rest)) /\
                               Tree.derives m m0).
      { clear Ek. revert IH Hm. generalize (c :: rest). intros l IH Hm.
        induction IH as [|x l Hx _ IHl]; [destruct Hm|].
        simpl in Hm. destruct (Hast.preorder test x) as [x'|] eqn:Ex.
        - simpl in Hm. apply in_app_or in Hm. destruct Hm as [Hm|Hm].
          + destruct (Hx x' eq_refl m Hm) as [m0 [Hm0 Hd]].
            exists m0. split; [|exact Hd]. simpl. apply in_or_app. now left.
          + destruct (IHl Hm) as [m0 [Hm0 Hd]].
            exists m0. split; [|exact Hd]. simpl. apply in_or_app. now right.
        - destruct (IHl Hm) as [m0 [Hm0 Hd]].
          exists m0. split; [|exact Hd]. simpl. apply in_or_app. now right. }
      destruct Hin as [m0 [Hm0 Hd]]. exists m0. split; [now right|exact Hd].
Qed.

Lemma living_derives (l : list Hast.node) (m : Hast.node) :
  In m (List.flat_map Tree.subnodes (Hast.living (Hast.preorder test) l)) ->
  exists m0, In m0 (List.flat_map Tree.subnodes l) /\ Tree.derives m m0.
Proof.
  induction l as [|x l IH]; simpl; [intros []|].
  destruct (Hast.preorder test x) as [x'|] eqn:Ex.
  - simpl. intros Hm. apply in_app_or in Hm. destruct Hm as [Hm|Hm].
    + destruct (preorder_derives x x' Ex m Hm) as [m0 [Hm0 Hd]].
      exists m0. split; [|exact Hd]. apply in_or_app. now left.
    + destruct (IH Hm) as [m0 [Hm0 Hd]].
      exists m0. split; [|exact Hd]. apply in_or_app. now right.
  - intros Hm. destruct (IH Hm) as [m0 [Hm0 Hd]].
    exists m0. split; [|exact Hd]. apply in_or_app. now right.
Qed.

End Derivation.

Lemma relabel_derives (n m : Hast.node) :
  In m (Tree.subnodes (Hast.relabel n)) ->
  (exists m0, In m0 (Tree.subnodes n) /\ Tree.derives m m0) \/
  (exists e label,
     In e (Tree.subnodes n) /\ Hast.ariaLabelValue e = Some label /\
     m = Hast.Text label).
Proof.
  revert m.
  induction n as [tagName properties children IH|content|content|]
    using hast_node_ind; intros m Hm;
    try (left; exists m; split; [exact Hm|apply derives_refl]).
  simpl in Hm.
  destruct (Hast.ariaLabelValue (Hast.Element tagName properties children))
    as [l|] eqn:E.
  - simpl in Hm. destruct Hm as [<-|[<-|[]]].
    + left. exists (Hast.Element tagName properties children).
      split; [now left|now split].
    + right. exists (Hast.Element tagName properties children), l.
      split; [now left|now split].
  - simpl in Hm. destruct Hm as [<-|Hm].
    + left. exists (Hast.Element tagName properties children).
      split; [now left|now split].
    + apply in_flat_map in Hm. destruct Hm as [c' [Hc' Hm]].
      apply in_map_iff in Hc'. destruct Hc' as [c [<- Hc]].
      rewrite Forall_forall in IH.
      assert (Hsub : forall x, In x (Tree.subnodes c) ->
                In x (Tree.subnodes (Hast.Element tagName properties children))).
      { intros x Hx. right. apply in_flat_map. now exists c. }
      destruct (IH c Hc m Hm) as [[m0 [Hm0 Hd]]|[e [label [He [Hl ->]]]]].
      * left. exists m0. split; [now apply Hsub|exact Hd].
      * right. exists e, label. split; [now apply Hsub|now split].
Qed.

(** X13: the transformer never invents or alters an element. Every node of
    its result comes from a node of the tree it was given, an element with
    the tag and the properties it had; the only other nodes are the text
    nodes that carry the label of an element of the given tree. *)
Theorem transformer_invents_nothing (tree : Hast.root) (m : Hast.node) :
  In m (Tree.below (Hast.accessibilityTransformer tree)) ->
  (exists m0, In m0 (Tree.below tree) /\ Tree.derives m m0) \/
  (exists e label,
     In e (Tree.below tree) /\ Hast.ariaLabelValue e = Some label /\
     m = Hast.Text label).
Proof.
  unfold Tree.below, Hast.accessibilityTransformer, Hast.remove. simpl.
  intros Hm. apply in_flat_map in Hm. destruct Hm as [c' [Hc' Hm]].
  apply in_map_iff in Hc'. destruct Hc' as [c [<- Hc]].
  assert (Hback : forall x,
             In x (Tree.subnodes c) ->
             exists x0, In x0 (List.flat_map Tree.subnodes (Hast.rootChildren tree)) /\
                        Tree.derives x x0).
  { intros x Hx.
    assert (Hx2 : In x (List.flat_map Tree.subnodes
                          (Hast.living (Hast.preorder Hast.isDecorativeImage)
                             (Hast.living (Hast.preorder Hast.isAriaHidden)
                                (Hast.rootChildren tree)))))
      by (apply in_flat_map; now exists c).
    destruct (living_derives _ _ _ Hx2) as [x1 [Hx1 Hd1]].
    destruct (living_derives _ _ _ Hx1) as [x0 [Hx0 Hd0]].
    exists x0. split; [exact Hx0|exact (derives_trans _ _ _ Hd1 Hd0)]. }
  destruct (relabel_derives c m Hm) as [[m1 [Hm1 Hd]]|[e [label [He [Hl ->]]]]].
  - destruct (Hback m1 Hm1) as [m0 [Hm0 Hd0]].
    left. exists m0. split; [exact Hm0|exact (derives_trans _ _ _ Hd Hd0)].
  - destruct (Hback e He) as [e0 [He0 Hd0]].
    right. exists e0, label. split; [exact He0|].
    split; [|reflexivity]. now rewrite <- (derives_label _ _ Hd0).
Qed.

Lemma transformer_invents_nothing_witness :
  exists m0,
    In m0 (Tree.below Sample.labelledLink) /\
    Tree.derives (Hast.Element "div" (Some []) [Hast.Text (Hast.VString "kept")])
                 m0.
Proof.
  destruct (transformer_invents_nothing Sample.labelledLink
              (Hast.Element "div" (Some []) [Hast.Text (Hast.VString "kept")]))
    as [H|[e [label [_ [_ H]]]]].
  - right. right. left. reflexivity.
  - exact H.
  - discriminate H.
Defined.

Lemma relabel_unlabelled (n : Hast.node) :
  Hast.allNodes Tree.unlabelled n = true -> Hast.relabel n = n.
Proof.
  induction n as [tagName properties children IH|content|content|]
    using hast_node_ind; try reflexivity.
  intros H. cbn [Hast.allNodes] in H. apply andb_true_iff in H.
  destruct H as [Hn Hall]. simpl. unfold Tree.unlabelled in Hn.
  destruct (Hast.ariaLabelValue (Hast.Element tagName properties children));
    [discriminate|].
  f_equal. rewrite forallb_forall in Hall. rewrite Forall_forall in IH.
  rewrite <- (map_id children) at 2. apply map_ext_in.
  intros c Hc. exact (IH c Hc (Hall c Hc)).
Qed.

(** X14: a tree that holds no hidden element, no image with an empty
    alternative text and no element with a usable label is returned as it
    is. *)
Theorem transformer_leaves_plain_tree (tree : Hast.root) :
  forallb (Hast.allNodes (fun n => negb (Hast.isAriaHidden n)))
          (Hast.rootChildren tree) = true ->
  forallb (Hast.allNodes (fun n => negb (Hast.isDecorativeImage n)))
          (Hast.rootChildren tree) = true ->
  forallb (Hast.allNodes Tree.unlabelled) (Hast.rootChildren tree) = true ->
  Hast.accessibilityTransformer tree = tree.
Proof.
  intros Hh Hi Hl. destruct tree as [children]. simpl in *.
  unfold Hast.accessibilityTransformer, Hast.remove. simpl.
  rewrite (living_id _ children Hh), (living_id _ children Hi).
  f_equal. rewrite <- (map_id children) at 2. apply map_ext_in.
  intros c Hc. rewrite forallb_forall in Hl.
  exact (relabel_unlabelled c (Hl c Hc)).
Qed.

Lemma transformer_leaves_plain_tree_witness :
  Hast.accessibilityTransformer
    (Hast.Root
       [Hast.Element "p" (Some [("ariaLabel", Hast.VString "")])
          [Hast.Text (Hast.VString "Settings");
           Hast.Element "img" (Some [("alt", Hast.VString "gear")]) []]])
  = Hast.Root
      [Hast.Element "p" (Some [("ariaLabel", Hast.VString "")])
         [Hast.Text (Hast.VString "Settings");
          Hast.Element "img" (Some [("alt", Hast.VString "gear")]) []]].
Proof.
  apply transformer_leaves_plain_tree; reflexivity.
Defined.

(** ** The index file and the build hook *)

Lemma join_head (sep x : string) (l : list string) :
  exists rest, Js.join sep (x :: l) = x ++ rest.
Proof.
  destruct l as [|y l]; simpl.
  - exists "". induction x as [|c x IH]; simpl; [reflexivity|now f_equal].
  - now eexists.
Qed.

Lemma indexBlocks_head (opts : Llms.LlmsConfig) (docSetsLines : list string) :
  exists tail,
    Llms.indexBlocks opts docSetsLines = ("# " ++ Llms.title opts) :: tail.
Proof.
  unfold Llms.indexBlocks.
  destruct docSetsLines; destruct (Llms.present (Llms.notes opts));
    destruct (Llms.optionalLinks opts) as [[|l links]|]; simpl; now eexists.
Qed.

Lemma buildLlmsIndex_head (opts : Llms.LlmsConfig) (docSetsLines : list string) :
  exists rest,
    Llms.buildLlmsIndex opts docSetsLines = "# " ++ Llms.title opts ++ rest.
Proof.
  unfold Llms.buildLlmsIndex.
  destruct (indexBlocks_head opts docSetsLines) as [tail ->].
  simpl. destruct (join_head (JsString.nl ++ JsString.nl)
                     (String "#" (String " " (Llms.title opts)))
                     (filter Llms.nonEmpty tail)) as [rest Hrest].
  exists rest. exact Hrest.
Qed.

(** X15: the index always starts with the title heading, and an optional
    field that is empty (an empty description, details or notes string, an
    empty list of links) gives the same index as leaving the field out. *)
Theorem empty_fields_are_left_out (opts : Llms.LlmsConfig)
    (docSetsLines : list string) :
  Llms.buildLlmsIndex opts docSetsLines
  = Llms.buildLlmsIndex (Llms.dropEmpty opts) docSetsLines /\
  exists rest,
    Llms.buildLlmsIndex opts docSetsLines = "# " ++ Llms.title opts ++ rest.
Proof.
  split.
  - unfold Llms.buildLlmsIndex. f_equal. f_equal.
    destruct opts as [t d de ol ds n ps]. unfold Llms.indexBlocks, Llms.dropEmpty.
    simpl.
    destruct d as [[|c d]|]; destruct de as [[|c' de]|];
      destruct n as [[|c'' n]|]; destruct ol as [[|l links]|];
      reflexivity.
  - apply buildLlmsIndex_head.
Qed.

Section AllDocSets.

Variable isMatch : string -> string -> bool.
Variable compare : string -> string -> Z.
Variable path_join : list string -> string.
Variable files : string -> option string.
Variable parse : string -> Dom.document.
Variable querySelector : string -> Dom.document -> option (list nat).
Variable innerHTML : Dom.node -> string.
Variable entryToSimpleMarkdown : string -> list string -> bool -> Result string.
Variable newURL : string -> option string -> option string.

Local Abbreviation run :=
  (Index.processDocSet isMatch compare path_join files parse querySelector
     innerHTML entryToSimpleMarkdown).
Local Abbreviation runAll :=
  (Llms.processAllDocSets isMatch compare path_join files parse querySelector
     innerHTML entryToSimpleMarkdown newURL).

Lemma processDocSet_content (context : Index.PluginContext)
    (set : Index.DocSet) (out : Index.DocSetOutput) :
  run context set = Some out ->
  Index.content out
  = "<SYSTEM>" ++ Index.description set ++ "</SYSTEM>"
    ++ JsString.nl ++ JsString.nl
    ++ Js.join (Index.pageSeparator context) (Index.entries out).
Proof.
  unfold Index.processDocSet.
  destruct (JsArray.sort _ _) as [sorted|]; [|discriminate].
  destruct (fold_left _ sorted ([], [])) as [entries errors].
  intros H. injection H as <-. reflexivity.
Qed.

Lemma processAllDocSets_outputs (context : Index.PluginContext)
    (site : option string) (sets : list Index.DocSet) :
  (forall set, In set sets -> exists href, newURL (Index.url set) site = Some href) ->
  exists outs lines,
    runAll context site sets = (outs, Some lines) /\
    Forall2 (fun set out => run context set = Some out) sets outs.
Proof.
  induction sets as [|set rest IH]; intros Hall.
  - exists [], []. simpl. split; [reflexivity|constructor].
  - destruct IH as [outs [lines [Hrun Houts]]].
    { intros s Hs. apply Hall. now right. }
    destruct (Hall set (or_introl eq_refl)) as [href Hhref].
    destruct (processDocSet_sorted isMatch compare path_join files parse
                querySelector innerHTML entryToSimpleMarkdown context set)
      as [out [Hout _]].
    exists (out :: outs), (Llms.docSetLine set href :: lines).
    simpl. rewrite Hout, Hhref, Hrun. split; [reflexivity|now constructor].
Qed.

(** X16: when the url of every document set resolves against the site,
    every set gets its artifact, the description between the SYSTEM tags,
    a blank line and the entries joined by the page separator, and its line
    in the index, a dash, the title in square brackets, the resolved url in
    round brackets, a colon and the description, both in the order of the
    configuration. *)
Theorem every_set_gets_artifact_and_line (context : Index.PluginContext)
    (site : option string) (sets : list Index.DocSet) :
  (forall set, In set sets -> exists href, newURL (Index.url set) site = Some href) ->
  exists outs lines,
    runAll context site sets = (outs, Some lines) /\
    Forall2 (fun set out => run context set = Some out) sets outs /\
    Forall2 (fun set out =>
               Index.content out
               = "<SYSTEM>" ++ Index.description set ++ "</SYSTEM>"
                 ++ JsString.nl ++ JsString.nl
                 ++ Js.join (Index.pageSeparator context) (Index.entries out))
            sets outs /\
    Forall2 (fun set line =>
               exists href, newURL (Index.url set) site = Some href /\
                            line = "- [" ++ Index.title set ++ "](" ++ href
                                   ++ "): " ++ Index.description set)
            sets lines.
Proof.
  induction sets as [|set rest IH]; intros Hall.
  - exists [], []. simpl. repeat split; constructor.
  - destruct IH as [outs [lines [Hrun [Houts [Hcontents Hlines]]]]].
    { intros s Hs. apply Hall. now right. }
    destruct (Hall set (or_introl eq_refl)) as [href Hhref].
    destruct (processDocSet_sorted isMatch compare path_join files parse
                querySelector innerHTML entryToSimpleMarkdown context set)
      as [out [Hout _]].
    exists (out :: outs),
      (("- [" ++ Index.title set ++ "](" ++ href ++ "): "
        ++ Index.description set) :: lines).
    simpl. rewrite Hout, Hhref, Hrun. split; [reflexivity|].
    split; [|split].
    + now constructor.
    + constructor; [|exact Hcontents].
      exact (processDocSet_content context set out Hout).
    + constructor; [|exact Hlines]. now exists href.
Qed.

(** X17: the first document set whose url does not resolve stops the run:
    the artifacts of the sets before it and its own artifact are written,
    the sets after it are not processed, and no index lines are returned. *)
Theorem unresolved_url_stops_the_run (context : Index.PluginContext)
    (site : option string) (before after : list Index.DocSet)
    (set : Index.DocSet) :
  (forall s, In s before -> exists href, newURL (Index.url s) site = Some href) ->
  newURL (Index.url set) site = None ->
  exists outs,
    runAll context site (before ++ set :: after) = (outs, None) /\
    Forall2 (fun s out => run context s = Some out) (before ++ [set]) outs.
Proof.
  induction before as [|s before IH]; intros Hall Hnone.
  - destruct (processDocSet_sorted isMatch compare path_join files parse
                querySelector innerHTML entryToSimpleMarkdown context set)
      as [out [Hout _]].
    exists [out]. simpl. rewrite Hout, Hnone. split; [reflexivity|].
    constructor; [exact Hout|constructor].
  - destruct IH as [outs [Hrun Houts]]; [|exact Hnone|].
    { intros x Hx. apply Hall. now right. }
    destruct (Hall s (or_introl eq_refl)) as [href Hhref].
    destruct (processDocSet_sorted isMatch compare path_join files parse
                querySelector innerHTML entryToSimpleMarkdown context s)
      as [out [Hout _]].
    exists (out :: outs). simpl. rewrite Hout, Hhref, Hrun.
    split; [reflexivity|]. now constructor.
Qed.

(** X18: when every url resolves, the build hook writes one artifact per
    document set, whose entries are joined by the configured separator, or
    by the default one when the separator is absent or empty, and then
    writes llms.txt into the output directory, starting with the title
    heading. *)
Theorem build_writes_artifacts_and_index (opts : Llms.LlmsConfig)
    (site : option string) (dirPathname : string) (pages : list Index.Page) :
  (forall set, In set (Js.default [] (Llms.docSet opts)) ->
               exists href, newURL (Index.url set) site = Some href) ->
  exists outs text,
    Llms.buildDone isMatch compare path_join files parse querySelector
      innerHTML entryToSimpleMarkdown newURL opts site dirPathname pages
    = (outs, Some (path_join [dirPathname; "llms.txt"], text)) /\
    List.length outs = List.length (Js.default [] (Llms.docSet opts)) /\
    Forall2 (fun set out =>
               Index.content out
               = "<SYSTEM>" ++ Index.description set ++ "</SYSTEM>"
                 ++ JsString.nl ++ JsString.nl
                 ++ Js.join
                      (match Llms.pageSeparator opts with
                       | Some (String c sep) => String c sep
                       | _ => JsString.nl ++ JsString.nl ++ "---"
                              ++ JsString.nl ++ JsString.nl
                       end)
                      (Index.entries out))
            (Js.default [] (Llms.docSet opts)) outs /\
    exists rest, text = "# " ++ Llms.title opts ++ rest.
Proof.
  intros Hall. unfold Llms.buildDone.
  set (context := {| Index.pageSeparator := Llms.effectiveSeparator opts;
                     Index.distDir := dirPathname;
                     Index.pages := _ |}).
  destruct (processAllDocSets_outputs context site _ Hall)
    as [outs [lines [Hrun Houts]]].
  rewrite Hrun.
  exists outs, (Llms.buildLlmsIndex opts lines). split; [reflexivity|].
  split; [symmetry; exact (Forall2_length Houts)|]. split.
  - eapply Forall2_impl; [|exact Houts].
    intros set out Hout. cbv beta in Hout.
    rewrite (processDocSet_content context set out Hout).
    do 5 f_equal. unfold context, Llms.effectiveSeparator. simpl.
    destruct (Llms.pageSeparator opts) as [[|c sep]|]; reflexivity.
  - apply buildLlmsIndex_head.
Qed.

End AllDocSets.

Lemma every_set_gets_artifact_and_line_witness :
  exists outs,
    Llms.processAllDocSets Priority.literalMatch Collation.codeUnitCompare
      Example.path_join Example.files Example.parse Example.querySelector
      Example.innerHTML Example.entryToSimpleMarkdown Sample.newURL
      Example.context (Some "https://example.org")
      [Example.docSet None None; Example.strayset]
    = (outs,
       Some ["- [Complete site](https://example.org/llms-full.txt): The full site";
             "- [Stray](https://example.org/llms-stray.txt): Nothing to see"]) /\
    List.map Index.content outs
    = ["<SYSTEM>The full site</SYSTEM>" ++ JsString.nl ++ JsString.nl
       ++ "# Alpha" ++ JsString.nl ++ JsString.nl ++ "<p>first</p>"
       ++ JsString.nl ++ JsString.nl ++ "---" ++ JsString.nl ++ JsString.nl
       ++ "# Untitled" ++ JsString.nl ++ JsString.nl ++ "<p>second</p>";
       "<SYSTEM>Nothing to see</SYSTEM>" ++ JsString.nl ++ JsString.nl].
Proof.
  destruct (every_set_gets_artifact_and_line Priority.literalMatch
              Collation.codeUnitCompare Example.path_join Example.files
              Example.parse Example.querySelector Example.innerHTML
              Example.entryToSimpleMarkdown Sample.newURL
              Example.context (Some "https://example.org")
              [Example.docSet None None; Example.strayset])
    as [outs [lines [Hrun [Houts [Hcontents Hlines]]]]].
  - intros set Hset. eexists. reflexivity.
  - exists outs.
    assert (Hlines' : lines
              = ["- [Complete site](https://example.org/llms-full.txt): The full site";
                 "- [Stray](https://example.org/llms-stray.txt): Nothing to see"]).
    { inversion Hlines as [|s1 l1 ss1 ls1 [h1 [Hh1 Hl1]] Hrest1]; subst.
      inversion Hrest1 as [|s2 l2 ss2 ls2 [h2 [Hh2 Hl2]] Hrest2]; subst.
      inversion Hrest2; subst.
      vm_compute in Hh1. injection Hh1 as <-.
      vm_compute in Hh2. injection Hh2 as <-.
      reflexivity. }
    split.
    + rewrite Hrun, Hlines'. reflexivity.
    + vm_compute in Hrun. injection Hrun as <- _. reflexivity.
Defined.

Lemma unresolved_url_stops_the_run_witness :
  exists outs,
    Llms.processAllDocSets Priority.literalMatch Collation.codeUnitCompare
      Example.path_join Example.files Example.parse Example.querySelector
      Example.innerHTML Example.entryToSimpleMarkdown Sample.newURL
      Example.context None
      [Example.docSet None None; Example.strayset]
    = (outs, None) /\
    List.length outs = 1%nat.
Proof.
  destruct (unresolved_url_stops_the_run Priority.literalMatch
              Collation.codeUnitCompare Example.path_join Example.files
              Example.parse Example.querySelector Example.innerHTML
              Example.entryToSimpleMarkdown Sample.newURL
              Example.context None [] [Example.strayset]
              (Example.docSet None None))
    as [outs [Hrun Houts]].
  - intros s [].
  - reflexivity.
  - exists outs. split; [exact Hrun|].
    symmetry. exact (Forall2_length Houts).
Defined.

Lemma build_writes_artifacts_and_index_witness :
  exists outs text,
    Llms.buildDone Priority.literalMatch Collation.codeUnitCompare
      Example.path_join Example.files Example.parse Example.querySelector
      Example.innerHTML Example.entryToSimpleMarkdown Sample.newURL
      Sample.config (Some "https://example.org") "dist"
      (Index.pages Example.context)
    = (outs, Some ("dist/llms.txt", text)) /\
    List.length outs = 2%nat /\
    exists rest, text = "# Site" ++ rest.
Proof.
  destruct (build_writes_artifacts_and_index Priority.literalMatch
              Collation.codeUnitCompare Example.path_join Example.files
              Example.parse Example.querySelector Example.innerHTML
              Example.entryToSimpleMarkdown Sample.newURL
              Sample.config (Some "https://example.org") "dist"
              (Index.pages Example.context))
    as [outs [text [Hrun [Hlen [_ Hhead]]]]].
  - intros set Hset. eexists. reflexivity.
  - exists outs, text. split; [exact Hrun|]. split; [exact Hlen|exact Hhead].
Defined.

(** ** Selections: empty ones, and page by page *)

Section Selection.

Variable isMatch : string -> string -> bool.

Lemma selectMatches_as_filter (pages : list Index.Page) (set : Index.DocSet) :
  Index.selectMatches isMatch pages set
  = List.filter
      (fun pn =>
         Js.some (fun pat => isMatch pn pat) (Index.include set) &&
         match Index.exclude set with
         | Some excluded => negb (Js.some (fun pat => isMatch pn pat) excluded)
         | None => true
         end)
      (List.map Index.pathname pages).
Proof.
  unfold Index.selectMatches.
  destruct (Index.exclude set) as [excluded|].
  - induction (List.map Index.pathname pages) as [|pn l IH]; simpl;
      [reflexivity|].
    destruct (Js.some (fun pat => isMatch pn pat) (Index.include set)); simpl.
    + destruct (negb _); simpl; now rewrite IH.
    + exact IH.
  - apply filter_ext. intros pn. now rewrite andb_true_r.
Qed.

(** X20: whether a page is selected depends on that page alone: the
    selection from two lists of pages put together is the selection from
    the first followed by the selection from the second, so pages keep
    their order and a path that occurs twice is selected twice; and an
    empty exclude list selects what an absent one selects. *)
Theorem selection_is_page_by_page (pages more : list Index.Page)
    (set : Index.DocSet) :
  Index.selectMatches isMatch (pages ++ more) set
  = (Index.selectMatches isMatch pages set
     ++ Index.selectMatches isMatch more set)%list /\
  (Index.exclude set = Some [] ->
   Index.selectMatches isMatch pages set
   = List.filter (fun pn => Js.some (fun pat => isMatch pn pat) (Index.include set))
                 (List.map Index.pathname pages)).
Proof.
  split.
  - rewrite !selectMatches_as_filter, map_app. apply filter_app.
  - intros He. rewrite selectMatches_as_filter, He.
    apply filter_ext. intros pn. simpl. now rewrite andb_true_r.
Qed.

End Selection.

Lemma selection_is_page_by_page_witness :
  Index.selectMatches Priority.literalMatch (Index.pages Example.context)
    Sample.looseSet
  = ["alpha/"; "beta/"].
Proof.
  rewrite (proj2 (selection_is_page_by_page Priority.literalMatch
                    (Index.pages Example.context) [] Sample.looseSet) eq_refl).
  reflexivity.
Defined.

Section EmptySelection.

Variable isMatch : string -> string -> bool.
Variable compare : string -> string -> Z.
Variable path_join : list string -> string.
Variable files : string -> option string.
Variable parse : string -> Dom.document.
Variable querySelector : string -> Dom.document -> option (list nat).
Variable innerHTML : Dom.node -> string.
Variable entryToSimpleMarkdown : string -> list string -> bool -> Result string.

(** X19: a set whose include patterns match no page is no error: its
    artifact is written all the same and holds the system line and nothing
    else, and no warning is printed. *)
Theorem empty_selection_gives_preamble_only (context : Index.PluginContext)
    (set : Index.DocSet) :
  (forall page pat, In page (Index.pages context) -> In pat (Index.include set) ->
                    isMatch (Index.pathname page) pat = false) ->
  exists out,
    Index.processDocSet isMatch compare path_join files parse querySelector
      innerHTML entryToSimpleMarkdown context set = Some out /\
    Index.entries out = [] /\
    Index.errors out = [] /\
    Index.content out
    = "<SYSTEM>" ++ Index.description set ++ "</SYSTEM>"
      ++ JsString.nl ++ JsString.nl /\
    Index.outPath out
    = path_join [Index.distDir context; JsString.stripLeadingSlash (Index.url set)].
Proof.
  intros Hnone.
  assert (Hsel : Index.selectMatches isMatch (Index.pages context) set = []).
  { rewrite selectMatches_as_filter.
    induction (Index.pages context) as [|page rest IH]; [reflexivity|].
    simpl. destruct (Js.some _ (Index.include set)) eqn:E.
    - apply existsb_exists in E. destruct E as [pat [Hp Hm]].
      rewrite (Hnone page pat (or_introl eq_refl) Hp) in Hm. discriminate.
    - simpl. apply IH. intros page' pat Hin. apply Hnone. now right. }
  unfold Index.processDocSet. rewrite Hsel. simpl.
  eexists. split; [reflexivity|]. simpl. repeat split.
Qed.

End EmptySelection.

Lemma empty_selection_gives_preamble_only_witness :
  exists out,
    Example.run Example.strayset = Some out /\
    Index.entries out = [] /\
    Index.content out
    = "<SYSTEM>Nothing to see</SYSTEM>" ++ JsString.nl ++ JsString.nl.
Proof.
  destruct (empty_selection_gives_preamble_only Priority.literalMatch
              Collation.codeUnitCompare Example.path_join Example.files
              Example.parse Example.querySelector Example.innerHTML
              Example.entryToSimpleMarkdown Example.context Example.strayset)
    as [out [Hrun [Hentries [_ [Hcontent _]]]]].
  - intros page pat Hpage [<-|[]]. simpl in Hpage.
    destruct Hpage as [<-|[<-|[<-|[<-|[<-|[]]]]]]; reflexivity.
  - exists out. split; [exact Hrun|]. split; [exact Hentries|exact Hcontent].
Defined.
